(** * Xirea: the llama JNI session manager ([app/src/main/cpp/llama_jni.cpp])

    A shallow embedding of the native inference session manager: the device
    configuration policy, the model session life cycle, the reusable batch
    buffer, the generation call with its prompt-evaluation and decode loops,
    and the atomic generation/stop counters that implement cancellation.

    The inference library (llama.cpp), the JNI environment and the operating
    system are external; they appear as records of functions whose results the
    code consumes. *)

From Stdlib Require Import ZArith Lia Bool List String Ascii DecimalString.
From stdpp Require Import base list.
Import ListNotations.

Local Open Scope Z_scope.

(** ** Machine integers *)

(** [std::atomic<uint64_t>] arithmetic wraps modulo 2^64. *)
Definition uint64_wrap (z : Z) : Z := z mod 2 ^ 64.

(** [llama_token] and [llama_pos] are 32-bit integers; the values handled here
    never leave that range, so they are carried as [Z]. *)
Definition llama_token := Z.

(** The range of [int], and [int] arithmetic on a result that leaves it. The
    C++ standard leaves signed overflow undefined; on the two's-complement
    targets the library is built for, the result wraps modulo 2^32. *)
Definition INT_MIN : Z := - 2 ^ 31.
Definition INT_MAX : Z := 2 ^ 31 - 1.

Definition int_wrap (z : Z) : Z := (z + 2 ^ 31) mod 2 ^ 32 - 2 ^ 31.

Definition in_int (z : Z) : Prop := INT_MIN <= z <= INT_MAX.

(** ** Constants (lines 37-51) *)

Definition kLowEndContext : Z := 512.
Definition kMidContext : Z := 1024.
Definition kMidHighContext : Z := 1536.
Definition kHighContext : Z := 2048.

Definition kLowEndBatch : Z := 128.
Definition kHighBatch : Z := 256.

Definition kLowEndMaxThreads : Z := 4.
Definition kMaxThreads : Z := 8.

Definition kLowEndMaxGenTokens : Z := 256.
Definition kMidMaxGenTokens : Z := 512.
Definition kHighMaxGenTokens : Z := 768.
Definition kMaxParams : Z := 7 * 1000 * 1000 * 1000.

(** ** Handles and the backend's live objects *)

Definition handle := nat.

Inductive resource :=
| RModel (h : handle)
| RContext (h : handle)
| RSampler (h : handle)
| RBatch (h : handle).

Definition resource_eqb (a b : resource) : bool :=
  match a, b with
  | RModel x, RModel y | RContext x, RContext y
  | RSampler x, RSampler y | RBatch x, RBatch y => Nat.eqb x y
  | _, _ => false
  end.

(** What the inference library has allocated and not yet freed. *)
Record heap := mkHeap {
  next_handle : handle;
  live : list resource
}.

Definition alloc (mk : handle -> resource) (hp : heap) : handle * heap :=
  (next_handle hp, mkHeap (S (next_handle hp)) (mk (next_handle hp) :: live hp)).

Definition release (r : resource) (hp : heap) : heap :=
  mkHeap (next_handle hp) (List.filter (fun x => negb (resource_eqb r x)) (live hp)).

(** ** The batch buffer *)

(** One index of the parallel arrays [token], [pos], [n_seq_id], [seq_id] and
    [logits] of a [llama_batch]. *)
Record slot := mkSlot {
  s_token : llama_token;
  s_pos : Z;
  s_n_seq_id : Z;
  s_seq_id0 : Z;
  s_logits : bool
}.

(** A [llama_batch]: the fill count, the allocation behind the array pointers,
    and the arrays themselves, whose allocated capacity is the length of
    [b_slots]. *)
Record llama_batch := mkBatch {
  n_tokens : Z;
  b_mem : handle;
  b_slots : list slot
}.

Definition blank_slot : slot := mkSlot 0 0 0 0 false.

(** [llama_batch_init(n, 0, 1)]: arrays of [n] entries, nothing filled in. *)
Definition llama_batch_init (n : Z) (hp : heap) : llama_batch * heap :=
  let (h, hp) := alloc RBatch hp in
  (mkBatch 0 h (replicate (Z.to_nat n) blank_slot), hp).

Definition llama_batch_free (b : llama_batch) (hp : heap) : heap :=
  release (RBatch (b_mem b)) hp.

Definition batch_capacity (b : llama_batch) : Z := Z.of_nat (length (b_slots b)).

(** The entries a decode call reads: the first [n_tokens] indices. *)
Definition batch_view (b : llama_batch) : list slot :=
  take (Z.to_nat (n_tokens b)) (b_slots b).

(** ** Global state (lines 21-35) *)

Record globals := mkGlobals {
  g_model : option handle;
  g_ctx : option handle;
  g_sampler : option handle;
  g_vocab : option handle;
  g_is_generating : bool;
  g_generation_id : Z;
  g_stop_generation_id : Z;
  g_batch : llama_batch;
  g_batch_initialized : bool;
  g_batch_size : Z;
  g_context_size : Z;
  g_n_threads : Z;
  g_max_gen_tokens : Z
}.

(** The values of the static initialisers. *)
Definition initial_globals : globals :=
  {| g_model := None; g_ctx := None; g_sampler := None; g_vocab := None;
     g_is_generating := false; g_generation_id := 0; g_stop_generation_id := 0;
     g_batch := mkBatch 0 O []; g_batch_initialized := false;
     g_batch_size := 128; g_context_size := 1024; g_n_threads := 4;
     g_max_gen_tokens := 256 |}.

Definition set_model v (st : globals) : globals :=
  {| g_model := v; g_ctx := g_ctx st; g_sampler := g_sampler st; g_vocab := g_vocab st;
     g_is_generating := g_is_generating st; g_generation_id := g_generation_id st;
     g_stop_generation_id := g_stop_generation_id st; g_batch := g_batch st;
     g_batch_initialized := g_batch_initialized st; g_batch_size := g_batch_size st;
     g_context_size := g_context_size st; g_n_threads := g_n_threads st;
     g_max_gen_tokens := g_max_gen_tokens st |}.

Definition set_ctx v (st : globals) : globals :=
  {| g_model := g_model st; g_ctx := v; g_sampler := g_sampler st; g_vocab := g_vocab st;
     g_is_generating := g_is_generating st; g_generation_id := g_generation_id st;
     g_stop_generation_id := g_stop_generation_id st; g_batch := g_batch st;
     g_batch_initialized := g_batch_initialized st; g_batch_size := g_batch_size st;
     g_context_size := g_context_size st; g_n_threads := g_n_threads st;
     g_max_gen_tokens := g_max_gen_tokens st |}.

Definition set_sampler v (st : globals) : globals :=
  {| g_model := g_model st; g_ctx := g_ctx st; g_sampler := v; g_vocab := g_vocab st;
     g_is_generating := g_is_generating st; g_generation_id := g_generation_id st;
     g_stop_generation_id := g_stop_generation_id st; g_batch := g_batch st;
     g_batch_initialized := g_batch_initialized st; g_batch_size := g_batch_size st;
     g_context_size := g_context_size st; g_n_threads := g_n_threads st;
     g_max_gen_tokens := g_max_gen_tokens st |}.

Definition set_vocab v (st : globals) : globals :=
  {| g_model := g_model st; g_ctx := g_ctx st; g_sampler := g_sampler st; g_vocab := v;
     g_is_generating := g_is_generating st; g_generation_id := g_generation_id st;
     g_stop_generation_id := g_stop_generation_id st; g_batch := g_batch st;
     g_batch_initialized := g_batch_initialized st; g_batch_size := g_batch_size st;
     g_context_size := g_context_size st; g_n_threads := g_n_threads st;
     g_max_gen_tokens := g_max_gen_tokens st |}.

Definition set_is_generating v (st : globals) : globals :=
  {| g_model := g_model st; g_ctx := g_ctx st; g_sampler := g_sampler st; g_vocab := g_vocab st;
     g_is_generating := v; g_generation_id := g_generation_id st;
     g_stop_generation_id := g_stop_generation_id st; g_batch := g_batch st;
     g_batch_initialized := g_batch_initialized st; g_batch_size := g_batch_size st;
     g_context_size := g_context_size st; g_n_threads := g_n_threads st;
     g_max_gen_tokens := g_max_gen_tokens st |}.

Definition set_generation_id v (st : globals) : globals :=
  {| g_model := g_model st; g_ctx := g_ctx st; g_sampler := g_sampler st; g_vocab := g_vocab st;
     g_is_generating := g_is_generating st; g_generation_id := v;
     g_stop_generation_id := g_stop_generation_id st; g_batch := g_batch st;
     g_batch_initialized := g_batch_initialized st; g_batch_size := g_batch_size st;
     g_context_size := g_context_size st; g_n_threads := g_n_threads st;
     g_max_gen_tokens := g_max_gen_tokens st |}.

Definition set_stop_generation_id v (st : globals) : globals :=
  {| g_model := g_model st; g_ctx := g_ctx st; g_sampler := g_sampler st; g_vocab := g_vocab st;
     g_is_generating := g_is_generating st; g_generation_id := g_generation_id st;
     g_stop_generation_id := v; g_batch := g_batch st;
     g_batch_initialized := g_batch_initialized st; g_batch_size := g_batch_size st;
     g_context_size := g_context_size st; g_n_threads := g_n_threads st;
     g_max_gen_tokens := g_max_gen_tokens st |}.

Definition set_batch v (st : globals) : globals :=
  {| g_model := g_model st; g_ctx := g_ctx st; g_sampler := g_sampler st; g_vocab := g_vocab st;
     g_is_generating := g_is_generating st; g_generation_id := g_generation_id st;
     g_stop_generation_id := g_stop_generation_id st; g_batch := v;
     g_batch_initialized := g_batch_initialized st; g_batch_size := g_batch_size st;
     g_context_size := g_context_size st; g_n_threads := g_n_threads st;
     g_max_gen_tokens := g_max_gen_tokens st |}.

Definition set_batch_initialized v (st : globals) : globals :=
  {| g_model := g_model st; g_ctx := g_ctx st; g_sampler := g_sampler st; g_vocab := g_vocab st;
     g_is_generating := g_is_generating st; g_generation_id := g_generation_id st;
     g_stop_generation_id := g_stop_generation_id st; g_batch := g_batch st;
     g_batch_initialized := v; g_batch_size := g_batch_size st;
     g_context_size := g_context_size st; g_n_threads := g_n_threads st;
     g_max_gen_tokens := g_max_gen_tokens st |}.

Definition set_batch_size v (st : globals) : globals :=
  {| g_model := g_model st; g_ctx := g_ctx st; g_sampler := g_sampler st; g_vocab := g_vocab st;
     g_is_generating := g_is_generating st; g_generation_id := g_generation_id st;
     g_stop_generation_id := g_stop_generation_id st; g_batch := g_batch st;
     g_batch_initialized := g_batch_initialized st; g_batch_size := v;
     g_context_size := g_context_size st; g_n_threads := g_n_threads st;
     g_max_gen_tokens := g_max_gen_tokens st |}.

Definition set_context_size v (st : globals) : globals :=
  {| g_model := g_model st; g_ctx := g_ctx st; g_sampler := g_sampler st; g_vocab := g_vocab st;
     g_is_generating := g_is_generating st; g_generation_id := g_generation_id st;
     g_stop_generation_id := g_stop_generation_id st; g_batch := g_batch st;
     g_batch_initialized := g_batch_initialized st; g_batch_size := g_batch_size st;
     g_context_size := v; g_n_threads := g_n_threads st;
     g_max_gen_tokens := g_max_gen_tokens st |}.

Definition set_n_threads v (st : globals) : globals :=
  {| g_model := g_model st; g_ctx := g_ctx st; g_sampler := g_sampler st; g_vocab := g_vocab st;
     g_is_generating := g_is_generating st; g_generation_id := g_generation_id st;
     g_stop_generation_id := g_stop_generation_id st; g_batch := g_batch st;
     g_batch_initialized := g_batch_initialized st; g_batch_size := g_batch_size st;
     g_context_size := g_context_size st; g_n_threads := v;
     g_max_gen_tokens := g_max_gen_tokens st |}.

Definition set_max_gen_tokens v (st : globals) : globals :=
  {| g_model := g_model st; g_ctx := g_ctx st; g_sampler := g_sampler st; g_vocab := g_vocab st;
     g_is_generating := g_is_generating st; g_generation_id := g_generation_id st;
     g_stop_generation_id := g_stop_generation_id st; g_batch := g_batch st;
     g_batch_initialized := g_batch_initialized st; g_batch_size := g_batch_size st;
     g_context_size := g_context_size st; g_n_threads := g_n_threads st;
     g_max_gen_tokens := v |}.

(** ** Device profile and configuration policy (lines 59-104) *)

(** What the operating system reports: [sysinfo] ([None] when the call fails,
    otherwise [totalram] and [mem_unit]) and
    [std::thread::hardware_concurrency()] as converted to [int]. *)
Record device := mkDevice {
  sysinfo : option (Z * Z);
  hardware_concurrency : Z
}.

Definition getTotalMemoryMB (dev : device) : Z :=
  match sysinfo dev with
  | Some (totalram, mem_unit) => uint64_wrap (totalram * mem_unit) / (1024 * 1024)
  | None => 4096
  end.

Definition getThreadCount (dev : device) (lowEnd : bool) : Z :=
  let cpuCores := hardware_concurrency dev in
  let cpuCores := if cpuCores <=? 0 then 1 else cpuCores in
  let cap := if lowEnd then kLowEndMaxThreads else kMaxThreads in
  Z.min cpuCores cap.

Definition applyDeviceConfig (dev : device) (st : globals) : globals :=
  let totalMB := getTotalMemoryMB dev in
  let lowEnd := totalMB <=? 3072 in
  let st :=
    if totalMB <=? 3072 then
      set_max_gen_tokens kLowEndMaxGenTokens
        (set_batch_size kLowEndBatch (set_context_size kLowEndContext st))
    else if totalMB <=? 4096 then
      set_max_gen_tokens 384
        (set_batch_size kHighBatch (set_context_size kMidContext st))
    else if totalMB <=? 6144 then
      set_max_gen_tokens kMidMaxGenTokens
        (set_batch_size kHighBatch (set_context_size kMidHighContext st))
    else if totalMB <=? 8192 then
      set_max_gen_tokens kMidMaxGenTokens
        (set_batch_size kHighBatch (set_context_size kHighContext st))
    else
      set_max_gen_tokens kHighMaxGenTokens
        (set_batch_size kHighBatch (set_context_size kHighContext st)) in
  set_n_threads (getThreadCount dev lowEnd) st.

(** ** The model file as seen through the inference library *)

Record llama_model_params := mkModelParams {
  n_gpu_layers : Z;
  use_mmap : bool;
  use_mlock : bool
}.

Record llama_context_params := mkContextParams {
  n_ctx : Z;
  n_threads : Z;
  n_threads_batch : Z;
  n_batch : Z;
  n_ubatch : Z;
  embeddings : bool
}.

(** The answers of the library's model functions for one load attempt:
    whether a call returns a non-null pointer, and the metadata it reports. *)
Record model_backend := mkModelBackend {
  llama_model_load_from_file : string -> llama_model_params -> bool;
  llama_model_get_vocab : bool;
  llama_model_n_ctx_train : Z;
  llama_init_from_model : llama_context_params -> bool;
  llama_model_n_params : Z;
  llama_model_desc : string
}.

(** [tolower] of the C locale on one character. *)
Definition tolower (c : ascii) : ascii :=
  let n := nat_of_ascii c in
  if (65 <=? n)%nat && (n <=? 90)%nat then ascii_of_nat (n + 32) else c.

Fixpoint lowercase (s : string) : string :=
  match s with
  | EmptyString => EmptyString
  | String c t => String (tolower c) (lowercase t)
  end.

(** [std::string::find]: the first position at which [needle] occurs, [None]
    for [npos]. *)
Fixpoint find (needle hay : string) : option nat :=
  if String.prefix needle hay then Some O
  else match hay with
       | EmptyString => None
       | String _ t => option_map S (find needle t)
       end.

Definition npos {A} (o : option A) : bool :=
  match o with None => true | Some _ => false end.

Definition free_handle (mk : handle -> resource) (p : option handle) (hp : heap) : heap :=
  match p with
  | Some h => release (mk h) hp
  | None => hp
  end.

(** ** Model loading (lines 166-299) *)

(** Lines 176-192: whatever an earlier load left behind is freed first. *)
Definition release_previous (w : globals * heap) : globals * heap :=
  let (st, hp) := w in
  let hp := if g_batch_initialized st then llama_batch_free (g_batch st) hp else hp in
  let st := if g_batch_initialized st then set_batch_initialized false st else st in
  let hp := free_handle RSampler (g_sampler st) hp in
  let st := set_sampler None st in
  let hp := free_handle RContext (g_ctx st) hp in
  let st := set_ctx None st in
  let hp := free_handle RModel (g_model st) hp in
  let st := set_model None st in
  let st := set_vocab None st in
  (st, hp).

Definition loadModel (dev : device) (mb : model_backend)
    (modelPath : string) (nCtx nThreads nGpuLayers : Z)
    (w : globals * heap) : bool * (globals * heap) :=
  (* 176-192 *)
  let (st, hp) := release_previous w in
  (* 198 *)
  let st := applyDeviceConfig dev st in
  (* 201-207 *)
  let model_params := mkModelParams 0 true false in
  if negb (llama_model_load_from_file mb modelPath model_params) then
    (false, (st, hp))
  else
  let (m, hp) := alloc RModel hp in
  let st := set_model (Some m) st in
  (* 216-222 *)
  if negb (llama_model_get_vocab mb) then
    let hp := release (RModel m) hp in
    let st := set_model None st in
    (false, (st, hp))
  else
  let st := set_vocab (Some m) st in
  (* 225-227 *)
  let modelTrainCtx := llama_model_n_ctx_train mb in
  let deviceCtx := g_context_size st in
  let st := set_context_size (Z.min (Z.min nCtx deviceCtx) modelTrainCtx) st in
  (* 233-249 *)
  let ctx_params :=
    mkContextParams (g_context_size st) (g_n_threads st) (g_n_threads st)
                    (g_batch_size st) (g_batch_size st) false in
  if negb (llama_init_from_model mb ctx_params) then
    let hp := release (RModel m) hp in
    let st := set_vocab None (set_model None st) in
    (false, (st, hp))
  else
  let (c, hp) := alloc RContext hp in
  let st := set_ctx (Some c) st in
  (* 252-261 *)
  let n_params := llama_model_n_params mb in
  if kMaxParams <? n_params then
    let hp := release (RContext c) hp in
    let st := set_ctx None st in
    let hp := release (RModel m) hp in
    let st := set_vocab None (set_model None st) in
    (false, (st, hp))
  else
  (* 263-277 *)
  let desc_str := lowercase (llama_model_desc mb) in
  if npos (find "q4" desc_str) && npos (find "q5" desc_str)
     && npos (find "quantized" desc_str) then
    let hp := release (RContext c) hp in
    let st := set_ctx None st in
    let hp := release (RModel m) hp in
    let st := set_vocab None (set_model None st) in
    (false, (st, hp))
  else
  (* 281-282; the source takes this allocation and the sampler's as given *)
  let (b, hp) := llama_batch_init (g_batch_size st) hp in
  let st := set_batch_initialized true (set_batch b st) in
  (* 286-293 *)
  let (s, hp) := alloc RSampler hp in
  let st := set_sampler (Some s) st in
  (true, (st, hp)).

(** ** Cancellation request and unloading (lines 304-353) *)

Definition stopGeneration (st : globals) : globals :=
  set_stop_generation_id (g_generation_id st) st.

(** Lines 312-334: the handles are nulled before the objects behind the saved
    copies are freed. *)
Definition unload_teardown (w : globals * heap) : globals * heap :=
  let (st, hp) := w in
  (* 312-315 *)
  let sampler_copy := g_sampler st in
  let ctx_copy := g_ctx st in
  let model_copy := g_model st in
  (* 317-320 *)
  let st := set_vocab None st in
  let st := set_sampler None st in
  let st := set_ctx None st in
  let st := set_model None st in
  (* 322-325 *)
  let hp := if g_batch_initialized st then llama_batch_free (g_batch st) hp else hp in
  let st := if g_batch_initialized st then set_batch_initialized false st else st in
  (* 326-334 *)
  let hp := free_handle RSampler sampler_copy hp in
  let hp := free_handle RContext ctx_copy hp in
  let hp := free_handle RModel model_copy hp in
  (st, hp).

Definition unloadModel (w : globals * heap) : globals * heap :=
  let (st, hp) := w in
  (* 309 *)
  let st := set_stop_generation_id (g_generation_id st) st in
  unload_teardown (st, hp).

Definition isModelLoaded (st : globals) : bool :=
  match g_model st, g_ctx st with
  | Some _, Some _ => true
  | _, _ => false
  end.

Definition getContextSize (st : globals) : Z := g_context_size st.

Definition isGenerating (st : globals) : bool := g_is_generating st.

(** ** The generation call: environment *)

Definition bytes := list ascii.

Definition NUL : ascii := Ascii.zero.

(** The C-string view of a [std::string]: everything before the first NUL. *)
Fixpoint c_str (s : bytes) : bytes :=
  match s with
  | [] => []
  | c :: t => if Ascii.eqb c NUL then [] else c :: c_str t
  end.

(** What a library call leaves in the caller's buffer: the written prefix over
    the old contents. *)
Definition overwrite {A} (written buf : list A) : list A :=
  written ++ drop (length written) buf.

(** The inference library during one generation call. A call that fills a
    caller-supplied buffer answers with its return value and the entries it
    wrote. [llama_decode] and [llama_sampler_sample] depend on the library's
    hidden state and are indexed by the number of earlier calls. *)
Record inference_backend := mkInferenceBackend {
  llama_tokenize : string -> Z -> bool -> Z * list llama_token;
  llama_get_memory : bool;
  llama_decode : nat -> list slot -> Z;
  llama_sampler_sample : nat -> llama_token;
  llama_vocab_is_eog : llama_token -> bool;
  llama_token_to_piece : llama_token -> Z -> Z * bytes
}.

(** What one generation call does to the outside: library calls with their
    arguments and results, loads of the stop counter, batch writes and
    callback invocations. *)
Inductive event :=
| EvTokenize (n_tokens_max ret : Z)
| EvMemoryClear
| EvStopLoad (v : Z)
| EvBatchClear
| EvBatchAdd (idx : Z) (s : slot)
| EvDecode (view : list slot) (ret : Z)
| EvSamplerReset
| EvSample (tok : llama_token)
| EvTokenToPiece (tok : llama_token) (len ret : Z)
| EvCallback (jtoken : bytes).

(** The state threaded through one call: the globals, the events so far
    (newest first) and how many decode, sample and stop-counter load
    operations have happened. *)
Record gen_state := mkGenState {
  gs_globals : globals;
  gs_events : list event;
  gs_decodes : nat;
  gs_samples : nat;
  gs_loads : nat
}.

Definition with_globals (f : globals -> globals) (s : gen_state) : gen_state :=
  mkGenState (f (gs_globals s)) (gs_events s) (gs_decodes s) (gs_samples s) (gs_loads s).

Definition emit (e : event) (s : gen_state) : gen_state :=
  mkGenState (gs_globals s) (e :: gs_events s) (gs_decodes s) (gs_samples s) (gs_loads s).

(** How a run of the model ends: with a value, in undefined behaviour (a write
    or read outside an array), or with the iteration budget used up. *)
Inductive outcome (A : Type) :=
| Done (a : A)
| Undefined
| OutOfFuel.
Arguments Done {A} a.
Arguments Undefined {A}.
Arguments OutOfFuel {A}.

#[global] Instance outcome_bind : MBind outcome := fun A B k m =>
  match m with
  | Done a => k a
  | Undefined => Undefined
  | OutOfFuel => OutOfFuel
  end.

(** ** Tokenization helper (lines 109-127) *)

Definition tokenize_prompt (be : inference_backend) (text : string) (add_special : bool)
    (s : gen_state) : list llama_token * gen_state :=
  match g_vocab (gs_globals s) with
  | None => ([], s)
  | Some _ =>
    let n_tokens := Z.of_nat (String.length text) + 32 in
    let tokens := replicate (Z.to_nat n_tokens) 0 in
    let (actual, written) := llama_tokenize be text n_tokens add_special in
    let s := emit (EvTokenize n_tokens actual) s in
    let tokens := overwrite written tokens in
    let '(actual, tokens, s) :=
      if actual <? 0 then
        let tokens := resize (Z.to_nat (- actual)) 0 tokens in
        let size := Z.of_nat (length tokens) in
        let (actual, written) := llama_tokenize be text size add_special in
        (actual, overwrite written tokens, emit (EvTokenize size actual) s)
      else (actual, tokens, s) in
    if actual <? 0 then ([], s)
    else (resize (Z.to_nat actual) 0 tokens, s)
  end.

(** ** Batch helpers (lines 132-144) *)

Definition batch_clear (s : gen_state) : gen_state :=
  let b := g_batch (gs_globals s) in
  emit EvBatchClear
    (with_globals (set_batch (mkBatch 0 (b_mem b) (b_slots b))) s).

(** The array writes are unchecked in the source; an index outside the
    allocation is undefined behaviour. *)
Definition batch_add (token : llama_token) (pos : Z) (logits : bool)
    (s : gen_state) : outcome gen_state :=
  let b := g_batch (gs_globals s) in
  let idx := n_tokens b in
  let entry := mkSlot token pos 1 0 logits in
  if (0 <=? idx) && (idx <? batch_capacity b) then
    Done (emit (EvBatchAdd idx entry)
      (with_globals
         (set_batch (mkBatch (idx + 1) (b_mem b) (<[Z.to_nat idx := entry]> (b_slots b))))
         s))
  else Undefined.

(** ** Pieces of the generation call (lines 358-510) *)

(** A load of [g_stop_generation_id]. The counter is shared: [others k] is the
    value, if any, that the [stopGeneration] and [unloadModel] calls of other
    threads have stored into it since the previous load of this call (the
    generation id such a call read, current or stale). *)
Definition load_stop_generation_id (others : nat -> option Z) (s : gen_state)
    : Z * gen_state :=
  let s := match others (gs_loads s) with
           | Some id => with_globals (set_stop_generation_id id) s
           | None => s
           end in
  let v := g_stop_generation_id (gs_globals s) in
  (v, mkGenState (gs_globals s) (EvStopLoad v :: gs_events s)
                 (gs_decodes s) (gs_samples s) (S (gs_loads s))).

Definition decode (be : inference_backend) (s : gen_state) : Z * gen_state :=
  let view := batch_view (g_batch (gs_globals s)) in
  let r := llama_decode be (gs_decodes s) view in
  (r, mkGenState (gs_globals s) (EvDecode view r :: gs_events s)
                 (S (gs_decodes s)) (gs_samples s) (gs_loads s)).

Definition sample (be : inference_backend) (s : gen_state) : llama_token * gen_state :=
  let tok := llama_sampler_sample be (gs_samples s) in
  (tok, mkGenState (gs_globals s) (EvSample tok :: gs_events s)
                   (gs_decodes s) (S (gs_samples s)) (gs_loads s)).

(** Lines 415-420. The budget [max_prompt] is an [int] computed from [int]s:
    a difference that leaves the range of [int] wraps around. *)
Definition truncate_prompt (context_size maxTokens : Z) (tokens : list llama_token)
    : list llama_token :=
  let n_prompt := Z.of_nat (length tokens) in
  let max_prompt := Z.max 0 (int_wrap (context_size - maxTokens - 16)) in
  if max_prompt <? n_prompt then drop (Z.to_nat (n_prompt - max_prompt)) tokens
  else tokens.

(** Lines 429-434: the inner [for] loop, [count] iterations from index [i]. *)
Fixpoint fill_batch (tokens : list llama_token) (n_prompt n_processed : Z)
    (count : nat) (i : Z) (s : gen_state) : outcome gen_state :=
  match count with
  | O => Done s
  | S count' =>
    let pos := n_processed + i in
    let is_last := pos =? n_prompt - 1 in
    match (if 0 <=? pos then tokens !! Z.to_nat pos else None) with
    | None => Undefined
    | Some tok =>
      s ← batch_add tok pos is_last s;
      fill_batch tokens n_prompt n_processed count' (i + 1) s
    end
  end.

(** Lines 425-444. The result is [Some n_processed] when the loop is left
    through its condition and [None] when a decode call fails. *)
Fixpoint prefill_loop (be : inference_backend) (others : nat -> option Z) (fuel : nat)
    (tokens : list llama_token) (n_prompt local_id n_processed : Z)
    (s : gen_state) : outcome (option Z * gen_state) :=
  match fuel with
  | O => OutOfFuel
  | S fuel' =>
    if n_processed <? n_prompt then
      let (v, s) := load_stop_generation_id others s in
      if v =? local_id then Done (Some n_processed, s)
      else
        let s := batch_clear s in
        let n_batch := Z.min (g_batch_size (gs_globals s)) (n_prompt - n_processed) in
        s ← fill_batch tokens n_prompt n_processed (Z.to_nat n_batch) 0 s;
        let (r, s) := decode be s in
        if negb (r =? 0) then Done (None, s)
        else prefill_loop be others fuel' tokens n_prompt local_id (n_processed + n_batch) s
    else Done (Some n_processed, s)
  end.

(** Lines 475-481: the token's text, with one retry at the size the library
    asked for. The result is the buffer and the last return value. *)
Definition token_to_str (be : inference_backend) (new_token : llama_token)
    (s : gen_state) : bytes * Z * gen_state :=
  let token_str := replicate 128 NUL in
  let len := Z.of_nat (length token_str) - 1 in
  let (n, written) := llama_token_to_piece be new_token len in
  let s := emit (EvTokenToPiece new_token len n) s in
  let token_str := overwrite written token_str in
  if n <? 0 then
    let token_str := resize (Z.to_nat (- n + 1)) NUL token_str in
    let len := Z.of_nat (length token_str) - 1 in
    let (n, written) := llama_token_to_piece be new_token len in
    (overwrite written token_str, n, emit (EvTokenToPiece new_token len n) s)
  else (token_str, n, s).

(** Lines 482-490: a non-empty fragment is appended to the response and
    streamed to the callback as a C string. *)
Definition deliver_token (token_str : bytes) (n : Z) (response : bytes)
    (s : gen_state) : bytes * gen_state :=
  if 0 <? n then
    let token_str := resize (Z.to_nat n) NUL token_str in
    (response ++ token_str, emit (EvCallback (c_str token_str)) s)
  else (response, s).

(** Lines 464-503. The result is the response and [n_generated]. *)
Fixpoint decode_loop (be : inference_backend) (others : nat -> option Z) (fuel : nat)
    (maxTokens local_id n_cur n_generated : Z) (response : bytes)
    (s : gen_state) : outcome (bytes * Z * gen_state) :=
  match fuel with
  | O => OutOfFuel
  | S fuel' =>
    if (n_generated <? maxTokens) && (n_cur <? g_context_size (gs_globals s)) then
      let (v, s) := load_stop_generation_id others s in
      if v =? local_id then Done (response, n_generated, s)
      else
        let (new_token, s) := sample be s in
        if llama_vocab_is_eog be new_token then Done (response, n_generated, s)
        else
          let '(token_str, n, s) := token_to_str be new_token s in
          let (response, s) := deliver_token token_str n response s in
          let s := batch_clear s in
          s ← batch_add new_token n_cur true s;
          let (r, s) := decode be s in
          if negb (r =? 0) then Done (response, n_generated, s)
          else decode_loop be others fuel' maxTokens local_id
                           (n_cur + 1) (n_generated + 1) response s
    else Done (response, n_generated, s)
  end.

(** The value handed back to the caller: one of the fixed messages, or the
    response text. *)
Inductive gen_result :=
| ErrModelNotLoaded          (* "Error: Model not loaded" *)
| ErrAlreadyGenerating       (* "Error: Generation already in progress" *)
| ErrCallbackUnavailable     (* the "Token callback not available" record *)
| ErrTokenizationFailed      (* "Error: Tokenization failed" *)
| ErrPromptEvalFailed        (* "Error: Prompt evaluation failed" *)
| Response (text : bytes).

(** Line 366. *)
Definition session_ready (st : globals) : bool :=
  match g_model st, g_ctx st, g_vocab st with
  | Some _, Some _, Some _ => g_batch_initialized st
  | _, _, _ => false
  end.

(** Lines 383-384. *)
Definition clamp_max_tokens (st : globals) (maxTokens : Z) : Z :=
  let maxTokens := if g_max_gen_tokens st <? maxTokens then g_max_gen_tokens st else maxTokens in
  if maxTokens <? 1 then 1 else maxTokens.

(** ** The generation call *)

(** [onToken_found] tells whether the callback object has the [onToken]
    method; [fuel] bounds the iterations of each loop. *)
Definition generate (be : inference_backend) (others : nat -> option Z) (fuel : nat)
    (prompt : string) (maxTokens : Z) (onToken_found : bool)
    (st : globals) : outcome (gen_result * gen_state) :=
  let s := mkGenState st [] O O O in
  (* 366 *)
  if negb (session_ready st) then Done (ErrModelNotLoaded, s)
  (* 370: exchange(true) *)
  else if g_is_generating st then Done (ErrAlreadyGenerating, s)
  else
  let s := with_globals (set_is_generating true) s in
  (* 374: fetch_add(1) + 1 *)
  let local_id := uint64_wrap (g_generation_id (gs_globals s) + 1) in
  let s := with_globals (set_generation_id local_id) s in
  (* 375 *)
  let s := with_globals (set_stop_generation_id 0) s in
  (* 383-384 *)
  let maxTokens := clamp_max_tokens (gs_globals s) maxTokens in
  (* 387-395 *)
  if negb onToken_found then
    Done (ErrCallbackUnavailable, with_globals (set_is_generating false) s)
  else
  (* 398-403 *)
  let (tokens, s) := tokenize_prompt be prompt true s in
  match tokens with
  | [] => Done (ErrTokenizationFailed, with_globals (set_is_generating false) s)
  | _ :: _ =>
  (* 409-412 *)
  let s := if llama_get_memory be then emit EvMemoryClear s else s in
  (* 415-420 *)
  let tokens := truncate_prompt (g_context_size (gs_globals s)) maxTokens tokens in
  let n_prompt := Z.of_nat (length tokens) in
  (* 423-444 *)
  r ← prefill_loop be others fuel tokens n_prompt local_id 0 s;
  match r with
  | (None, s) => Done (ErrPromptEvalFailed, with_globals (set_is_generating false) s)
  | (Some _, s) =>
  (* 446-450 *)
  let (v, s) := load_stop_generation_id others s in
  if v =? local_id then
    Done (Response [], with_globals (set_is_generating false) s)
  else
  (* 458-462 *)
  let s := emit EvSamplerReset s in
  (* 464-503 *)
  r ← decode_loop be others fuel maxTokens local_id n_prompt 0 [] s;
  let '(response, n_generated, s) := r in
  (* 506-509 *)
  Done (Response (c_str response), with_globals (set_is_generating false) s)
  end
  end.

(** ** Calls running concurrently

    The entry points are called from several threads. The atomic operations on
    [g_is_generating], [g_generation_id] and [g_stop_generation_id] are the
    points at which calls interact, so a call is cut into steps at those
    operations and the steps of different calls interleave freely. The program
    counter of a [generate] call is named after the source line it is about to
    execute. What the inference library does inside a loop body is summarised
    by the [job] the call was given. *)

Record job := mkJob {
  j_maxTokens : Z;                    (* the requested maxTokens *)
  j_onToken_found : bool;             (* the callback has the onToken method *)
  j_n_tokens : Z;                     (* size of the tokenizer's result *)
  j_prompt_decode_fails : Z -> bool;  (* llama_decode fails at this n_processed *)
  j_eog : Z -> bool;                  (* the token sampled at this n_generated ends the text *)
  j_decode_fails : Z -> bool          (* llama_decode fails at this n_generated *)
}.

(** How a [generate] call returned; the response is represented by the number
    of tokens behind it. *)
Inductive call_result :=
| RetModelNotLoaded
| RetAlreadyGenerating
| RetCallbackUnavailable
| RetTokenizationFailed
| RetPromptEvalFailed
| RetEmpty
| RetResponse (n_generated : Z).

Inductive gen_pc :=
| L366   (* the loaded check *)
| L370   (* g_is_generating.exchange(true) *)
| L374   (* g_generation_id.fetch_add(1) + 1 *)
| L375   (* g_stop_generation_id.store(0) *)
| L383   (* clamp, callback lookup, tokenization, truncation *)
| L425   (* condition of the prompt loop *)
| L426   (* body of the prompt loop *)
| L446   (* cancellation check after the prompt loop *)
| L464   (* condition of the token loop *)
| L466   (* body of the token loop *)
| LExit (r : call_result)   (* g_is_generating = false *)
| LRet (r : call_result).   (* returned *)

Record gen_locals := mkLocals {
  local_id : Z;
  l_maxTokens : Z;
  n_prompt : Z;
  n_processed : Z;
  n_cur : Z;
  n_generated : Z
}.

Definition fresh_locals : gen_locals := mkLocals 0 0 0 0 0 0.

Definition step_generate (j : job) (pc : gen_pc) (l : gen_locals) (st : globals)
    : option (gen_pc * gen_locals * globals) :=
  match pc with
  | L366 =>
    if negb (session_ready st) then Some (LRet RetModelNotLoaded, l, st)
    else Some (L370, l, st)
  | L370 =>
    let was := g_is_generating st in
    let st := set_is_generating true st in
    if was then Some (LRet RetAlreadyGenerating, l, st)
    else Some (L374, l, st)
  | L374 =>
    let id := uint64_wrap (g_generation_id st + 1) in
    Some (L375, mkLocals id (l_maxTokens l) (n_prompt l) (n_processed l) (n_cur l)
                         (n_generated l),
          set_generation_id id st)
  | L375 => Some (L383, l, set_stop_generation_id 0 st)
  | L383 =>
    let maxTokens := clamp_max_tokens st (j_maxTokens j) in
    if negb (j_onToken_found j) then Some (LExit RetCallbackUnavailable, l, st)
    else
      let n := match g_vocab st with Some _ => j_n_tokens j | None => 0 end in
      if n <=? 0 then Some (LExit RetTokenizationFailed, l, st)
      else
        let max_prompt := Z.max 0 (int_wrap (g_context_size st - maxTokens - 16)) in
        let n := if max_prompt <? n then max_prompt else n in
        Some (L425, mkLocals (local_id l) maxTokens n 0 (n_cur l) (n_generated l), st)
  | L425 =>
    if (n_processed l <? n_prompt l)
       && negb (g_stop_generation_id st =? local_id l)
    then Some (L426, l, st)
    else Some (L446, l, st)
  | L426 =>
    let n_batch := Z.min (g_batch_size st) (n_prompt l - n_processed l) in
    if j_prompt_decode_fails j (n_processed l) then Some (LExit RetPromptEvalFailed, l, st)
    else Some (L425, mkLocals (local_id l) (l_maxTokens l) (n_prompt l)
                              (n_processed l + n_batch) (n_cur l) (n_generated l), st)
  | L446 =>
    if g_stop_generation_id st =? local_id l then Some (LExit RetEmpty, l, st)
    else Some (L464, mkLocals (local_id l) (l_maxTokens l) (n_prompt l) (n_processed l)
                              (n_prompt l) 0, st)
  | L464 =>
    if (n_generated l <? l_maxTokens l) && (n_cur l <? g_context_size st)
       && negb (g_stop_generation_id st =? local_id l)
    then Some (L466, l, st)
    else Some (LExit (RetResponse (n_generated l)), l, st)
  | L466 =>
    if j_eog j (n_generated l) then Some (LExit (RetResponse (n_generated l)), l, st)
    else if j_decode_fails j (n_generated l) then
      Some (LExit (RetResponse (n_generated l)), l, st)
    else Some (L464, mkLocals (local_id l) (l_maxTokens l) (n_prompt l) (n_processed l)
                              (n_cur l + 1) (n_generated l + 1), st)
  | LExit r => Some (LRet r, l, set_is_generating false st)
  | LRet _ => None
  end.

(** [stopGeneration] (line 352) and the first statement of [unloadModel]
    (line 309) are a load of one counter followed by a store to the other. *)
Inductive stop_pc :=
| StopLoad
| StopStore (id : Z)
| StopRet.

Inductive unload_pc :=
| UnloadLoad
| UnloadStore (id : Z)
| UnloadTeardown
| UnloadRet.

Inductive thread :=
| TGenerate (j : job) (pc : gen_pc) (l : gen_locals)
| TStop (pc : stop_pc)
| TUnload (pc : unload_pc).

Record config := mkConfig {
  c_globals : globals;
  c_heap : heap;
  c_threads : list thread
}.

Definition step_thread (t : thread) (w : globals * heap) : option (thread * (globals * heap)) :=
  let (st, hp) := w in
  match t with
  | TGenerate j pc l =>
    match step_generate j pc l st with
    | Some (pc, l, st) => Some (TGenerate j pc l, (st, hp))
    | None => None
    end
  | TStop StopLoad => Some (TStop (StopStore (g_generation_id st)), (st, hp))
  | TStop (StopStore id) => Some (TStop StopRet, (set_stop_generation_id id st, hp))
  | TStop StopRet => None
  | TUnload UnloadLoad => Some (TUnload (UnloadStore (g_generation_id st)), (st, hp))
  | TUnload (UnloadStore id) => Some (TUnload UnloadTeardown, (set_stop_generation_id id st, hp))
  | TUnload UnloadTeardown => Some (TUnload UnloadRet, unload_teardown (st, hp))
  | TUnload UnloadRet => None
  end.

(** Thread [i] takes its next step. *)
Definition step (i : nat) (c : config) : option config :=
  match c_threads c !! i with
  | None => None
  | Some t =>
    match step_thread t (c_globals c, c_heap c) with
    | Some (t, (st, hp)) => Some (mkConfig st hp (<[i := t]> (c_threads c)))
    | None => None
    end
  end.

(** A schedule names the thread that moves at each instant. *)
Fixpoint exec (schedule : list nat) (c : config) : option config :=
  match schedule with
  | [] => Some c
  | i :: rest =>
    match step i c with
    | Some c => exec rest c
    | None => None
    end
  end.

Inductive reachable (c0 : config) : config -> Prop :=
| reachable_start : reachable c0 c0
| reachable_step c i c' : reachable c0 c -> step i c = Some c' -> reachable c0 c'.

(** A call is in the generating state from the moment its exchange found the
    flag clear until it has cleared the flag again. *)
Definition generating (t : thread) : bool :=
  match t with
  | TGenerate _ pc _ =>
    match pc with
    | L366 | L370 | LRet _ => false
    | _ => true
    end
  | _ => false
  end.

Definition generating_count (ts : list thread) : nat :=
  length (List.filter generating ts).

(** Every call is at its first statement and no generation is running. *)
Definition initial (c : config) : Prop :=
  g_is_generating (c_globals c) = false /\
  Forall (fun t => generating t = false) (c_threads c).

(** ** The specification's vocabulary *)

(** The resource plan of the configuration policy, read off the globals. *)
Record ResourcePlan := mkPlan {
  context_size : Z;
  batch_size : Z;
  thread_count : Z;
  max_generated_tokens : Z
}.

Definition plan_of (st : globals) : ResourcePlan :=
  mkPlan (g_context_size st) (g_batch_size st) (g_n_threads st) (g_max_gen_tokens st).

(** The tier table as the specification words it: inclusive upper bounds in
    MB, and a thread cap of 4 in the lowest tier and 8 elsewhere. *)
Definition tier_table (total_memory_mb logical_cores : Z) : ResourcePlan :=
  let cap := if total_memory_mb <=? 3072 then 4 else 8 in
  let threads := Z.min logical_cores cap in
  if total_memory_mb <=? 3072 then mkPlan 512 128 threads 256
  else if total_memory_mb <=? 4096 then mkPlan 1024 256 threads 384
  else if total_memory_mb <=? 6144 then mkPlan 1536 256 threads 512
  else if total_memory_mb <=? 8192 then mkPlan 2048 256 threads 512
  else mkPlan 2048 256 threads 768.

(** The session's handles are all present, or all absent. *)
Definition fully_loaded (st : globals) : Prop :=
  is_Some (g_model st) /\ is_Some (g_vocab st) /\ is_Some (g_ctx st) /\
  is_Some (g_sampler st) /\ g_batch_initialized st = true.

Definition fully_unloaded (st : globals) : Prop :=
  g_model st = None /\ g_vocab st = None /\ g_ctx st = None /\
  g_sampler st = None /\ g_batch_initialized st = false.

(** The library objects the session refers to. *)
Definition session_resources (st : globals) : list resource :=
  match g_sampler st with Some h => [RSampler h] | None => [] end ++
  (if g_batch_initialized st then [RBatch (b_mem (g_batch st))] else []) ++
  match g_ctx st with Some h => [RContext h] | None => [] end ++
  match g_model st with Some h => [RModel h] | None => [] end.

(** Nothing is live in the library that the session does not refer to. *)
Definition no_leak (st : globals) (hp : heap) : Prop :=
  forall r, In r (live hp) -> In r (session_resources st).

(** The reasons for which a load is refused, in the order they are tested. *)
Inductive LoadError :=
| ModelLoadError
| VocabError
| ContextCreateError
| ModelTooLargeError
| UnsupportedQuantizationError.

Definition has_quantization_marker (desc : string) : bool :=
  let d := lowercase desc in
  negb (npos (find "q4" d)) || negb (npos (find "q5" d))
  || negb (npos (find "quantized" d)).

(** The context parameters a load derives from the device and the request. *)
Definition planned_context_params (dev : device) (mb : model_backend) (nCtx : Z)
    : llama_context_params :=
  let p := plan_of (applyDeviceConfig dev initial_globals) in
  mkContextParams (Z.min (Z.min nCtx (context_size p)) (llama_model_n_ctx_train mb))
                  (thread_count p) (thread_count p) (batch_size p) (batch_size p) false.

Definition load_refusal (dev : device) (mb : model_backend) (modelPath : string) (nCtx : Z)
    : option LoadError :=
  if negb (llama_model_load_from_file mb modelPath (mkModelParams 0 true false))
  then Some ModelLoadError
  else if negb (llama_model_get_vocab mb) then Some VocabError
  else if negb (llama_init_from_model mb (planned_context_params dev mb nCtx))
  then Some ContextCreateError
  else if 7000000000 <? llama_model_n_params mb then Some ModelTooLargeError
  else if negb (has_quantization_marker (llama_model_desc mb))
  then Some UnsupportedQuantizationError
  else None.

(** ** Reading a call's events *)

(** The entries written into the batch since it was last cleared, oldest
    first; [None] when it has not been cleared in this call. *)
Fixpoint pending (evs : list event) : option (list slot) :=
  match evs with
  | [] => None
  | EvBatchClear :: _ => Some []
  | EvBatchAdd _ e :: old => option_map (fun l => l ++ [e]) (pending old)
  | _ :: old => pending old
  end.

(** Every write goes to the index that counts the entries since the last
    clear, below [B]; every decode is given exactly those entries. *)
Fixpoint batch_discipline (B : Z) (evs : list event) : Prop :=
  match evs with
  | [] => True
  | e :: old =>
    batch_discipline B old /\
    match e with
    | EvBatchAdd idx _ =>
      exists l, pending old = Some l /\ idx = Z.of_nat (length l) /\ idx < B
    | EvDecode view _ => pending old = Some view /\ Z.of_nat (length view) <= B
    | _ => True
    end
  end.

(** The batches handed to [llama_decode], oldest first. *)
Fixpoint decoded (evs : list event) : list (list slot) :=
  match evs with
  | [] => []
  | EvDecode view _ :: old => decoded old ++ [view]
  | _ :: old => decoded old
  end.

(** The fragments handed to the callback, oldest first. *)
Fixpoint callbacks (evs : list event) : list bytes :=
  match evs with
  | [] => []
  | EvCallback f :: old => callbacks old ++ [f]
  | _ :: old => callbacks old
  end.

(** The tokens drawn from the sampler, oldest first. *)
Fixpoint sampled (evs : list event) : list llama_token :=
  match evs with
  | [] => []
  | EvSample t :: old => sampled old ++ [t]
  | _ :: old => sampled old
  end.

(** The events around the sampler reset of line 462: those after it and
    those before it. [None] when the call never got that far. *)
Fixpoint split_reset (evs : list event) : option (list event * list event) :=
  match evs with
  | [] => None
  | EvSamplerReset :: old => Some ([], old)
  | e :: rest =>
    match split_reset rest with
    | Some (newer, older) => Some (e :: newer, older)
    | None => None
    end
  end.

(** The events of the prompt phase (everything, when there was no reset) and
    those of the token loop. *)
Definition prompt_phase (evs : list event) : list event :=
  match split_reset evs with
  | Some (_, older) => older
  | None => evs
  end.

Definition token_phase (evs : list event) : list event :=
  match split_reset evs with
  | Some (newer, _) => newer
  | None => []
  end.

(** The batch entry the prompt loop builds for position [pos]. *)
Definition prompt_entry (tokens : list llama_token) (pos : nat) : slot :=
  mkSlot (nth pos tokens 0) (Z.of_nat pos) 1 0
         (Z.of_nat pos =? Z.of_nat (length tokens) - 1).

(** The entries for the first [n] positions of the prompt. *)
Definition prompt_entries (tokens : list llama_token) (n : nat) : list slot :=
  map (prompt_entry tokens) (seq O n).

(** The last [k] elements of a list. *)
Definition trailing {A} (k : nat) (l : list A) : list A :=
  drop (length l - k) l.

(** The prompt a call evaluates: the tokenizer's result for the text, cut to
    the context budget. *)
Definition evaluated_prompt (be : inference_backend) (st : globals) (prompt : string)
    (maxTokens : Z) : list llama_token :=
  truncate_prompt (g_context_size st) (clamp_max_tokens st maxTokens)
    (fst (tokenize_prompt be prompt true (mkGenState st [] O O O))).

(** An iteration budget that both loops stay under. *)
Definition fuel_needed (be : inference_backend) (st : globals) (prompt : string)
    (maxTokens : Z) : nat :=
  S (Nat.max (length (evaluated_prompt be st prompt maxTokens))
             (Z.to_nat (clamp_max_tokens st maxTokens))).

(** The globals the loops read and never write. *)
Definition loop_frame (st : globals) : Z * Z * Z * Z * Z * bool :=
  (g_batch_size st, g_context_size st, batch_capacity (g_batch st), g_generation_id st,
   g_max_gen_tokens st, g_batch_initialized st).

(** The batch holds exactly the entries [l] written since the last clear,
    and the events so far respect the batch discipline. *)
Definition synced (B : Z) (s : gen_state) (l : list slot) : Prop :=
  pending (gs_events s) = Some l /\
  n_tokens (g_batch (gs_globals s)) = Z.of_nat (length l) /\
  batch_view (g_batch (gs_globals s)) = l /\
  batch_discipline B (gs_events s).

Definition is_add (e : event) : Prop :=
  match e with
  | EvBatchAdd _ _ => True
  | _ => False
  end.

(** The batch the token loop builds for one sampled token. *)
Definition is_single (view : list slot) : Prop :=
  exists tok pos, view = [mkSlot tok pos 1 0 true].

(** What holds of the result [r] and the final state [s] of a call that was
    started on the globals [st]: the batch discipline, the bound on sampled
    tokens and streamed fragments, the shape of the prompt-phase and
    token-phase batches, and the untouched configuration. *)
Definition generate_post (be : inference_backend) (st : globals) (prompt : string)
    (maxTokens : Z) (r : gen_result) (s : gen_state) : Prop :=
  let evs := gs_events s in
  let toks := evaluated_prompt be st prompt maxTokens in
  batch_discipline (g_batch_size st) evs /\
  (length (sampled evs) <= Z.to_nat (clamp_max_tokens st maxTokens))%nat /\
  (length (callbacks evs) <= length (sampled evs))%nat /\
  sampled (prompt_phase evs) = [] /\
  (exists n, (n <= length toks)%nat /\
     concat (decoded (prompt_phase evs)) = prompt_entries toks n /\
     (split_reset evs <> None ->
      ~ In (EvStopLoad (uint64_wrap (g_generation_id st + 1))) (prompt_phase evs) ->
      n = length toks)) /\
  Forall (fun v => (1 <= length v)%nat /\ Z.of_nat (length v) <= g_batch_size st)
         (decoded (prompt_phase evs)) /\
  Forall is_single (decoded (token_phase evs)) /\
  (length (decoded (token_phase evs)) <= length (sampled evs))%nat /\
  loop_frame (gs_globals s) =
  loop_frame (match r with
              | ErrModelNotLoaded | ErrAlreadyGenerating => st
              | _ => set_generation_id (uint64_wrap (g_generation_id st + 1)) st
              end).

(** What the configuration and a successful load guarantee about the batch. *)
Definition configured (st : globals) : Prop :=
  1 <= g_batch_size st /\ 1 <= g_max_gen_tokens st /\
  (g_batch_initialized st = true -> batch_capacity (g_batch st) = g_batch_size st).

(** An inference library that answers as its interface promises: the piece of
    a token when the buffer can hold it, minus the needed length otherwise. *)
Definition piece_contract (be : inference_backend) (piece : llama_token -> bytes) : Prop :=
  forall tok len,
    llama_token_to_piece be tok len =
    if Z.of_nat (length (piece tok)) <=? len
    then (Z.of_nat (length (piece tok)), piece tok)
    else (- Z.of_nat (length (piece tok)), []).

(** ** Sample environments *)

Definition phone_3gb : device := mkDevice (Some (3072 * 1024 * 1024, 1)) 8.

(** A library whose token ids are small numbers: the prompt is one token per
    character after a leading special token, the piece of token [t] is [t]
    letters long, the sampler counts upwards from 3 and token 2 ends the
    text. Buffers that are too small are answered with minus the needed
    size. *)
Definition toy_tokens (text : string) (add_special : bool) : list llama_token :=
  (if add_special then [1] else [])
  ++ map (fun c => Z.of_nat (nat_of_ascii c)) (list_ascii_of_string text).

Definition toy_piece (tok : llama_token) : bytes := replicate (Z.to_nat tok) "x"%char.

Definition toy_backend : inference_backend :=
  mkInferenceBackend
    (fun text n_tokens_max add_special =>
       let t := toy_tokens text add_special in
       if Z.of_nat (length t) <=? n_tokens_max then (Z.of_nat (length t), t)
       else (- Z.of_nat (length t), []))
    true
    (fun _ _ => 0)
    (fun k => 3 + Z.of_nat k)
    (fun tok => tok =? 2)
    (fun tok len =>
       if Z.of_nat (length (toy_piece tok)) <=? len
       then (Z.of_nat (length (toy_piece tok)), toy_piece tok)
       else (- Z.of_nat (length (toy_piece tok)), [])).


Definition phone_4gb : device := mkDevice (Some (4096 * 1024 * 1024, 1)) 8.

Definition phone_unknown_cores : device := mkDevice None 0.

Definition q4_model : model_backend :=
  mkModelBackend (fun _ _ => true) true 4096 (fun _ => true) 1100000000
                 "llama 1B Q4_K - Medium".

Definition f16_model : model_backend :=
  mkModelBackend (fun _ _ => true) true 4096 (fun _ => true) 1100000000
                 "llama 1B F16".

Definition empty_heap : heap := mkHeap O [].

(** The session after a successful load on the 3 GB phone. *)
Definition loaded_phone : globals :=
  Eval vm_compute in
    fst (snd (loadModel phone_3gb q4_model "m.gguf" 2048 4 0 (initial_globals, empty_heap))).

Definition nobody : nat -> option Z := fun _ => None.

Definition loaded_heap : heap :=
  Eval vm_compute in
    snd (snd (loadModel phone_3gb q4_model "m.gguf" 2048 4 0 (initial_globals, empty_heap))).

(** A call asking for three tokens on a two-token prompt, with nothing going
    wrong in the library. *)
Definition short_job : job :=
  mkJob 3 true 2 (fun _ => false) (fun _ => false) (fun _ => false).

Definition new_call : thread := TGenerate short_job L366 fresh_locals.

(** One generate call and one stopGeneration call. *)
Definition generate_and_stop : config :=
  mkConfig loaded_phone loaded_heap [new_call; TStop StopLoad].

(** Two generate calls and one unloadModel call. *)
Definition generate_unload_generate : config :=
  mkConfig loaded_phone loaded_heap [new_call; TUnload UnloadLoad; new_call].

(** The part of a call between the sentinel store of line 375 and the exit. *)
Definition in_loops (pc : gen_pc) : bool :=
  match pc with
  | L383 | L425 | L426 | L446 | L464 | L466 => true
  | _ => false
  end.

(** An upper bound on the steps a cancelled call still takes before it
    leaves. *)
Definition steps_to_exit (pc : gen_pc) : nat :=
  match pc with
  | L383 | L426 => 3
  | L425 | L466 => 2
  | L446 | L464 => 1
  | _ => 0
  end.

(** A stop or unload call that has read the generation counter holds the
    current id. *)
Definition no_stale_store (id : Z) (t : thread) : Prop :=
  match t with
  | TStop (StopStore v) | TUnload (UnloadStore v) => v = id
  | _ => True
  end.

(** Call [g] runs generation [id], is past its entry, and a stop request for
    [id] is recorded. *)
Definition cancelled_for (g : nat) (id : Z) (c : config) : Prop :=
  (exists j pc l, c_threads c !! g = Some (TGenerate j pc l) /\
                  in_loops pc = true /\ local_id l = id) /\
  g_generation_id (c_globals c) = id /\
  g_stop_generation_id (c_globals c) = id /\
  Forall (no_stale_store id) (c_threads c).

(** The mutual-exclusion invariant: the flag is set exactly while one call is
    generating. *)
Definition flag_tracks_generation (c : config) : Prop :=
  generating_count (c_threads c) = if g_is_generating (c_globals c) then 1%nat else 0%nat.

(** ** Model information (lines 515-538) *)

(** [std::to_string] of an integer: its decimal digits, after a minus sign
    when it is negative. *)
Definition to_string (z : Z) : string := NilZero.string_of_int (Z.to_int z).

(** The double-quote character. *)
Definition dquote : string := String (ascii_of_nat 34) EmptyString.

(** The opening of one field of the JSON text: the quoted key and a colon. *)
Definition json_field (k : string) : string := (dquote ++ k ++ dquote ++ ":")%string.

(** [llama_vocab_n_tokens] is the vocabulary size the library reports, and
    [llama_model_desc] the C string it leaves in the 256-byte buffer. *)
Definition getModelInfo (mb : model_backend) (llama_vocab_n_tokens : Z) (st : globals)
    : string :=
  match g_model st, g_vocab st with
  | Some _, Some _ =>
    let buf := llama_model_desc mb in
    let info := "{"%string in
    let info :=
      (info ++ (json_field "description" ++ dquote ++ buf ++ dquote ++ ","))%string in
    let info :=
      (info ++ (json_field "n_params" ++ to_string (llama_model_n_params mb) ++ ","))%string in
    let info :=
      (info ++ (json_field "n_vocab" ++ to_string llama_vocab_n_tokens ++ ","))%string in
    let info :=
      (info ++ (json_field "n_ctx_train" ++ to_string (llama_model_n_ctx_train mb)
             ++ ","))%string in
    let info :=
      (info ++ (json_field "n_ctx" ++ to_string (g_context_size st) ++ ","))%string in
    let info :=
      (info ++ (json_field "n_batch" ++ to_string (g_batch_size st) ++ ","))%string in
    let info :=
      (info ++ (json_field "n_threads" ++ to_string (g_n_threads st)))%string in
    (info ++ "}")%string
  | _, _ => "{}"%string
  end.

(** ** Calls made one after another

    The states the library can be in between calls when the entry points are
    called one at a time, starting from the static initialisers. A [generate]
    call moves the state when it returns. *)

Inductive api_step : globals * heap -> globals * heap -> Prop :=
| api_loadModel dev mb modelPath nCtx nThreads nGpuLayers w :
    api_step w (snd (loadModel dev mb modelPath nCtx nThreads nGpuLayers w))
| api_unloadModel w :
    api_step w (unloadModel w)
| api_stopGeneration st hp :
    api_step (st, hp) (stopGeneration st, hp)
| api_generate be others fuel prompt maxTokens onToken_found st hp r s :
    generate be others fuel prompt maxTokens onToken_found st = Done (r, s) ->
    api_step (st, hp) (gs_globals s, hp).

Inductive api_reachable : globals * heap -> Prop :=
| api_start : api_reachable (initial_globals, empty_heap)
| api_next w w' : api_reachable w -> api_step w w' -> api_reachable w'.

(** ** More vocabulary for a call's events *)

(** The call got past the loaded check and the exchange on the flag. *)
Definition entered (r : gen_result) : bool :=
  match r with
  | ErrModelNotLoaded | ErrAlreadyGenerating => false
  | _ => true
  end.

Definition is_response (r : gen_result) : bool :=
  match r with
  | Response _ => true
  | _ => false
  end.

(** The globals a call's loops leave alone: everything but the stop counter
    and the contents of the batch. *)
Definition call_frame (st : globals)
    : option handle * option handle * option handle * option handle * bool * Z * bool
      * ResourcePlan * handle * Z :=
  (g_model st, g_ctx st, g_sampler st, g_vocab st, g_is_generating st, g_generation_id st,
   g_batch_initialized st, plan_of st, b_mem (g_batch st), batch_capacity (g_batch st)).

(** No other thread stores [id] into the stop counter during the call. *)
Definition quiet (others : nat -> option Z) (id : Z) : Prop :=
  forall k, others k <> Some id.

(** The sampled tokens after which the token loop goes on. *)
Definition continuing (be : inference_backend) (toks : list llama_token) : list llama_token :=
  List.filter (fun t => negb (llama_vocab_is_eog be t)) toks.

(** The batches the token loop builds when it feeds [toks] back, the first
    of them at position [n_prompt]. *)
Definition feedback_entries (n_prompt : Z) (toks : list llama_token) : list (list slot) :=
  imap (fun i tok => [mkSlot tok (n_prompt + Z.of_nat i) 1 0 true]) toks.

Definition nonempty (b : bytes) : bool :=
  match b with
  | [] => false
  | _ :: _ => true
  end.

(** A tokenizer that answers as its interface promises: the tokens of the
    text when the buffer can hold them, minus their number otherwise. *)
Definition tokenizer_contract (be : inference_backend)
    (tokens : string -> bool -> list llama_token) : Prop :=
  forall text n add_special,
    llama_tokenize be text n add_special =
    if Z.of_nat (length (tokens text add_special)) <=? n
    then (Z.of_nat (length (tokens text add_special)), tokens text add_special)
    else (- Z.of_nat (length (tokens text add_special)), []).

(** Call [g] is out of its loops: it is about to clear the generating flag,
    or has returned. *)
Definition left_loops (g : nat) (c : config) : Prop :=
  exists j r l,
    c_threads c !! g = Some (TGenerate j (LExit r) l) \/
    c_threads c !! g = Some (TGenerate j (LRet r) l).

(** The events after which a call does nothing more: an end-of-generation
    token drawn from the sampler, and a decode call that failed. *)
Definition ends_call (be : inference_backend) (e : event) : bool :=
  match e with
  | EvSample tok => llama_vocab_is_eog be tok
  | EvDecode _ ret => negb (ret =? 0)
  | _ => false
  end.

(** What a returned call has left behind, for a call started on the globals
    [st]: which globals it wrote, what an error result excludes, how the
    token loop fed the sampled tokens back, when the stop counter was read
    as the call's own id, and how the result and the streamed fragments are
    made of the pieces of the sampled tokens. *)
Definition call_summary (be : inference_backend) (others : nat -> option Z) (st : globals)
    (prompt : string) (maxTokens : Z) (r : gen_result) (s : gen_state) : Prop :=
  let id := uint64_wrap (g_generation_id st + 1) in
  let evs := gs_events s in
  let n_prompt := Z.of_nat (length (evaluated_prompt be st prompt maxTokens)) in
  call_frame (gs_globals s) = call_frame (if entered r then set_generation_id id st else st) /\
  entered r = session_ready st && negb (g_is_generating st) /\
  (is_response r = false ->
   split_reset evs = None /\ sampled evs = [] /\ callbacks evs = []) /\
  (is_response r = true -> split_reset evs = None ->
   r = Response [] /\ exists older, evs = EvStopLoad id :: older) /\
  sampled (prompt_phase evs) = [] /\
  decoded (token_phase evs) = feedback_entries n_prompt (continuing be (sampled evs)) /\
  n_prompt + Z.of_nat (length (decoded (token_phase evs)))
  <= Z.max n_prompt (g_context_size st) /\
  (In (EvStopLoad id) (token_phase evs) ->
   exists older, token_phase evs = EvStopLoad id :: older) /\
  (In (EvStopLoad id) (prompt_phase evs) ->
   exists older,
     prompt_phase evs = EvStopLoad id :: older \/
     exists v, prompt_phase evs = EvStopLoad v :: EvStopLoad id :: older) /\
  (quiet others id -> id <> 0 -> ~ In (EvStopLoad id) evs) /\
  (llama_get_memory be = true -> decoded evs <> [] ->
   exists newer older, evs = newer ++ EvMemoryClear :: older /\ decoded older = []) /\
  (forall e, In e evs -> ends_call be e = true -> exists older, evs = e :: older) /\
  (r = ErrPromptEvalFailed <->
   split_reset evs = None /\
   exists view ret older, evs = EvDecode view ret :: older /\ ret <> 0) /\
  forall piece, piece_contract be piece ->
    callbacks evs
    = map c_str (List.filter nonempty (map piece (continuing be (sampled evs)))) /\
    forall text, r = Response text ->
      text = c_str (concat (map piece (continuing be (sampled evs)))).

(** ** More sample environments *)

(** The library of [toy_backend] with a sampler that ends the text at its
    third draw. *)
Definition short_backend : inference_backend :=
  mkInferenceBackend
    (llama_tokenize toy_backend) true (fun _ _ => 0)
    (fun k => if (k <? 2)%nat then 3 + Z.of_nat k else 2)
    (fun tok => tok =? 2)
    (llama_token_to_piece toy_backend).

(** The generate call of [generate_and_stop] has stored the sentinel and
    [stopGeneration] has run to its end. *)
Definition cancelled_config : config :=
  Eval vm_compute in
    match exec [0; 0; 0; 0; 1; 1]%nat generate_and_stop with
    | Some c => c
    | None => generate_and_stop
    end.

(** The first generate call of [generate_unload_generate] is in the body of
    the prompt loop. *)
Definition generating_config : config :=
  Eval vm_compute in
    match exec [0; 0; 0; 0; 0; 0]%nat generate_unload_generate with
    | Some c => c
    | None => generate_unload_generate
    end.


(** A library in which the piece of every token is the three bytes a, NUL,
    b; everything else is as in [toy_backend]. *)
Definition nul_piece (tok : llama_token) : bytes := ["a"%char; NUL; "b"%char].

Definition nul_backend : inference_backend :=
  mkInferenceBackend
    (llama_tokenize toy_backend) true (fun _ _ => 0)
    (llama_sampler_sample toy_backend)
    (llama_vocab_is_eog toy_backend)
    (fun tok len =>
       if Z.of_nat (length (nul_piece tok)) <=? len
       then (Z.of_nat (length (nul_piece tok)), nul_piece tok)
       else (- Z.of_nat (length (nul_piece tok)), [])).

(** A library that never accepts the buffer it is given: the tokenizer asks
    for 40 entries and the conversion for 300 bytes, whatever the size. *)
Definition stubborn_backend : inference_backend :=
  mkInferenceBackend
    (fun _ _ _ => (-40, [])) true (fun _ _ => 0)
    (llama_sampler_sample toy_backend)
    (llama_vocab_is_eog toy_backend)
    (fun _ _ => (-300, [])).

(** A prompt of 130 letters: 131 tokens for [toy_backend], three more than a
    batch of the 3 GB phone holds. *)
Definition long_prompt : string :=
  Eval vm_compute in string_of_list_ascii (replicate 130 "a"%char).

(** Every decode among the events succeeded. *)
Definition decodes_succeed (evs : list event) : bool :=
  forallb (fun e => match e with EvDecode _ ret => ret =? 0 | _ => true end) evs.

(** No load of the stop counter among the events read [id]. *)
Definition never_reads (id : Z) (evs : list event) : bool :=
  forallb (fun e => match e with EvStopLoad v => negb (v =? id) | _ => true end) evs.

(** * Properties *)

(** ** Configuration policy *)

Lemma applyDeviceConfig_plan dev st :
  plan_of (applyDeviceConfig dev st)
  = tier_table (getTotalMemoryMB dev) (Z.max 1 (hardware_concurrency dev)).
Proof.
  unfold applyDeviceConfig, tier_table, getThreadCount, plan_of.
  assert (Hc : (if hardware_concurrency dev <=? 0 then 1 else hardware_concurrency dev)
               = Z.max 1 (hardware_concurrency dev)).
  { destruct (Z.leb_spec (hardware_concurrency dev) 0); lia. }
  rewrite Hc.
  repeat match goal with
         | |- context [ ?a <=? ?b ] => destruct (a <=? b)
         end; reflexivity.
Qed.

Lemma applyDeviceConfig_frame dev st :
  let st' := applyDeviceConfig dev st in
  g_model st' = g_model st /\ g_ctx st' = g_ctx st /\ g_sampler st' = g_sampler st /\
  g_vocab st' = g_vocab st /\ g_is_generating st' = g_is_generating st /\
  g_generation_id st' = g_generation_id st /\
  g_stop_generation_id st' = g_stop_generation_id st /\
  g_batch st' = g_batch st /\ g_batch_initialized st' = g_batch_initialized st.
Proof.
  unfold applyDeviceConfig.
  repeat match goal with
         | |- context [ ?a <=? ?b ] => destruct (a <=? b)
         end; repeat split; reflexivity.
Qed.

(** C4, as stated, fails on a device whose core count is reported as zero:
    the table's [min(logical_cores, cap)] is 0 there, the code runs one
    thread. *)
Lemma tier_table_fails_without_cores :
  plan_of (applyDeviceConfig phone_unknown_cores initial_globals)
  <> tier_table (getTotalMemoryMB phone_unknown_cores)
                (hardware_concurrency phone_unknown_cores).
Proof. vm_compute. discriminate. Qed.

(** C4 (amended): for every device the resource plan is the tier table
    (<=3072 MB: 512/128/256, <=4096: 1024/256/384, <=6144: 1536/256/512,
    <=8192: 2048/256/512, above: 2048/256/768) with
    [thread_count = min(max(logical_cores, 1), cap)], the cap being 4 in the
    lowest tier and 8 otherwise; the plan is a function of the memory size and
    the core count alone (whatever the globals held before), and the
    configuration step writes nothing but the plan. *)
Theorem applyDeviceConfig_tier_table dev st :
  plan_of (applyDeviceConfig dev st)
  = tier_table (getTotalMemoryMB dev) (Z.max 1 (hardware_concurrency dev))
  /\ (forall st', plan_of (applyDeviceConfig dev st') = plan_of (applyDeviceConfig dev st))
  /\ session_resources (applyDeviceConfig dev st) = session_resources st
  /\ g_is_generating (applyDeviceConfig dev st) = g_is_generating st
  /\ g_generation_id (applyDeviceConfig dev st) = g_generation_id st
  /\ g_stop_generation_id (applyDeviceConfig dev st) = g_stop_generation_id st
  /\ g_vocab (applyDeviceConfig dev st) = g_vocab st.
Proof.
  pose proof (applyDeviceConfig_frame dev st) as F. cbv zeta in F.
  destruct F as (Hm & Hc & Hs & Hv & Hg & Hi & Hst & Hb & Hbi).
  split; [apply applyDeviceConfig_plan|].
  split.
  { intros st'. now rewrite !applyDeviceConfig_plan. }
  unfold session_resources. rewrite Hm, Hc, Hs, Hb, Hbi. auto.
Qed.

(** ** Session life cycle *)

Lemma resource_eqb_eq a b : resource_eqb a b = true <-> a = b.
Proof.
  destruct a, b; simpl; rewrite ?Nat.eqb_eq;
    split; intros H; try discriminate; try (inversion H; reflexivity);
    try (f_equal; assumption).
Qed.

Lemma resource_eqb_refl a : resource_eqb a a = true.
Proof. now apply resource_eqb_eq. Qed.

Lemma in_live_release r x hp :
  In r (live (release x hp)) <-> In r (live hp) /\ r <> x.
Proof.
  unfold release; simpl. rewrite filter_In, negb_true_iff.
  split; intros [H1 H2]; split; auto.
  - intros ->. now rewrite resource_eqb_refl in H2.
  - destruct (resource_eqb x r) eqn:E; [|reflexivity].
    apply resource_eqb_eq in E. congruence.
Qed.

Lemma next_handle_release x hp : next_handle (release x hp) = next_handle hp.
Proof. reflexivity. Qed.

Lemma nil_of_no_elements {A} (l : list A) : (forall x, ~ In x l) -> l = [].
Proof. destruct l as [|a l]; [reflexivity|]. intros H. destruct (H a). now left. Qed.

(** After lines 176-192 nothing of the earlier session is left, in the globals
    or in the library. *)
#[local] Arguments release : simpl never.
#[local] Arguments alloc : simpl never.

Lemma release_previous_clean st hp :
  no_leak st hp ->
  fully_unloaded (fst (release_previous (st, hp))) /\
  live (snd (release_previous (st, hp))) = [] /\
  plan_of (fst (release_previous (st, hp))) = plan_of st /\
  g_is_generating (fst (release_previous (st, hp))) = g_is_generating st /\
  g_generation_id (fst (release_previous (st, hp))) = g_generation_id st /\
  g_stop_generation_id (fst (release_previous (st, hp))) = g_stop_generation_id st.
Proof.
  intros NL. unfold no_leak, session_resources in NL.
  destruct st as [m c sm v gen gid sid b bi bs cs nt mg]; simpl in *.
  split; [|split].
  - destruct bi; repeat split; reflexivity.
  - apply nil_of_no_elements. intros r Hr.
    destruct bi, sm as [sm|], c as [c|], m as [m|];
      cbn [fst snd free_handle g_model g_ctx g_sampler g_batch g_batch_initialized
           set_batch_initialized set_sampler set_ctx set_model set_vocab
           llama_batch_free] in Hr;
      repeat (apply in_live_release in Hr; destruct Hr as [Hr ?]);
      apply NL in Hr; simpl in Hr; intuition congruence.
  - destruct bi; repeat split; reflexivity.
Qed.

#[local] Arguments applyDeviceConfig : simpl never.

Lemma loadModel_after_cleanup dev mb modelPath nCtx nThreads nGpuLayers st hp :
  fully_unloaded st -> live hp = [] ->
  let r := loadModel dev mb modelPath nCtx nThreads nGpuLayers (st, hp) in
  (fst r = true <-> load_refusal dev mb modelPath nCtx = None) /\
  (fst r = true ->
     fully_loaded (fst (snd r)) /\ isModelLoaded (fst (snd r)) = true /\
     live (snd (snd r)) = session_resources (fst (snd r))) /\
  (fst r = false ->
     fully_unloaded (fst (snd r)) /\ isModelLoaded (fst (snd r)) = false /\
     live (snd (snd r)) = []).
Proof.
  intros (Hm & Hv & Hc & Hs & Hb) Hl.
  destruct st as [m c sm v gen gid sid b bi bs cs nt mg], hp as [nh lv].
  simpl in *. subst.
  unfold loadModel, load_refusal, planned_context_params, has_quantization_marker.
  rewrite (applyDeviceConfig_plan dev initial_globals).
  change kMaxParams with 7000000000.
  simpl release_previous. cbv iota.
  match goal with
  | |- context [applyDeviceConfig dev ?x] =>
    pose proof (applyDeviceConfig_frame dev x) as F;
    pose proof (applyDeviceConfig_plan dev x) as P;
    destruct (applyDeviceConfig dev x) as [m' c' sm' v' gen' gid' sid' b' bi' bs' cs' nt' mg']
  end.
  cbv zeta in F. simpl in F. destruct F as (-> & -> & -> & -> & _ & _ & _ & _ & ->).
  rewrite <- P. clear P. unfold plan_of. simpl.
  unfold is_Some, fully_loaded, fully_unloaded, isModelLoaded, session_resources.
  unfold alloc, llama_batch_init, alloc, release; simpl.
  destruct (llama_model_load_from_file mb modelPath _); simpl;
    [|intuition (try discriminate; reflexivity)].
  destruct (llama_model_get_vocab mb); simpl; rewrite ?Nat.eqb_refl; simpl;
    [|intuition (try discriminate; reflexivity)].
  destruct (llama_init_from_model mb _); simpl; rewrite ?Nat.eqb_refl; simpl;
    [|intuition (try discriminate; reflexivity)].
  destruct (7000000000 <? llama_model_n_params mb); simpl;
    rewrite ?Nat.eqb_refl; simpl;
    [intuition (try discriminate; reflexivity)|].
  destruct (npos (find "q4" _)), (npos (find "q5" _)), (npos (find "quantized" _));
    simpl; rewrite ?Nat.eqb_refl; simpl;
    intuition (try discriminate; try reflexivity; eauto).
Qed.

Lemma release_previous_idem w : release_previous (release_previous w) = release_previous w.
Proof.
  destruct w as [st hp].
  destruct st as [m c sm v gen gid sid b bi bs cs nt mg]. destruct bi; reflexivity.
Qed.

Lemma loadModel_release_first dev mb modelPath nCtx nThreads nGpuLayers w :
  loadModel dev mb modelPath nCtx nThreads nGpuLayers w
  = loadModel dev mb modelPath nCtx nThreads nGpuLayers (release_previous w).
Proof. unfold loadModel. now rewrite release_previous_idem. Qed.

(** C3: [loadModel] is all-or-nothing. Started from a state in which the
    library holds nothing but the current session, it returns true exactly
    when none of the five refusals applies (backend load failure, missing
    vocabulary, context creation failure, more than 7e9 parameters, no
    "q4"/"q5"/"quantized" marker in the lower-cased description); on true
    model, vocabulary, context, sampler and batch are all present,
    [isModelLoaded] is true and the library holds exactly these; on false
    every handle is absent, [isModelLoaded] is false and the library holds
    nothing. *)
Theorem loadModel_all_or_nothing dev mb modelPath nCtx nThreads nGpuLayers st hp :
  no_leak st hp ->
  let r := loadModel dev mb modelPath nCtx nThreads nGpuLayers (st, hp) in
  (fst r = true <-> load_refusal dev mb modelPath nCtx = None) /\
  (fst r = true ->
     fully_loaded (fst (snd r)) /\ isModelLoaded (fst (snd r)) = true /\
     live (snd (snd r)) = session_resources (fst (snd r))) /\
  (fst r = false ->
     fully_unloaded (fst (snd r)) /\ isModelLoaded (fst (snd r)) = false /\
     live (snd (snd r)) = []).
Proof.
  intros NL. rewrite loadModel_release_first.
  destruct (release_previous_clean st hp NL) as (U & L & _).
  destruct (release_previous (st, hp)) as [st1 hp1]. simpl in U, L.
  now apply loadModel_after_cleanup.
Qed.

Lemma loadModel_all_or_nothing_witness :
  no_leak initial_globals empty_heap /\
  fst (loadModel phone_4gb q4_model "m.gguf" 2048 4 0 (initial_globals, empty_heap)) = true /\
  fst (loadModel phone_4gb f16_model "m.gguf" 2048 4 0 (initial_globals, empty_heap)) = false /\
  fully_unloaded
    (fst (snd (loadModel phone_4gb f16_model "m.gguf" 2048 4 0
                 (initial_globals, empty_heap)))).
Proof.
  assert (NL : no_leak initial_globals empty_heap) by (intros r []).
  split; [exact NL|].
  split; [reflexivity|].
  split; [reflexivity|].
  exact (proj1 (proj2 (proj2 (loadModel_all_or_nothing phone_4gb f16_model "m.gguf"
                                 2048 4 0 initial_globals empty_heap NL))
                      eq_refl)).
Defined.

(** A successful load stores the three-way minimum of the requested context
    length, the device plan's and the model's trained length. *)
Lemma loadModel_context_size dev mb modelPath nCtx nThreads nGpuLayers w :
  fst (loadModel dev mb modelPath nCtx nThreads nGpuLayers w) = true ->
  getContextSize (fst (snd (loadModel dev mb modelPath nCtx nThreads nGpuLayers w)))
  = Z.min (Z.min nCtx (context_size (plan_of (applyDeviceConfig dev initial_globals))))
          (llama_model_n_ctx_train mb).
Proof.
  unfold loadModel. destruct (release_previous w) as [st1 hp1].
  rewrite (applyDeviceConfig_plan dev initial_globals).
  pose proof (applyDeviceConfig_plan dev st1) as P.
  destruct (applyDeviceConfig dev st1) as [m' c' sm' v' gen' gid' sid' b' bi' bs' cs' nt' mg'].
  rewrite <- P. unfold plan_of, getContextSize, alloc, llama_batch_init, alloc. simpl.
  repeat match goal with
         | |- context [if negb ?c then _ else _] => destruct c; simpl
         | |- context [if ?c then _ else _] => destruct c; simpl
         end; intros H; try discriminate H; reflexivity.
Qed.

(** C10: [unloadModel] clears the five session handles and nothing of the
    configuration: afterwards [getContextSize] still answers with the value
    the last load stored, and batch size, thread count and token cap are
    unchanged as well. *)
Theorem unloadModel_keeps_configuration st hp :
  let st' := fst (unloadModel (st, hp)) in
  fully_unloaded st' /\
  getContextSize st' = getContextSize st /\
  g_batch_size st' = g_batch_size st /\
  g_n_threads st' = g_n_threads st /\
  g_max_gen_tokens st' = g_max_gen_tokens st.
Proof.
  destruct st as [m c sm v gen gid sid b bi bs cs nt mg].
  destruct bi; repeat split; reflexivity.
Qed.

(** ** Buffer-size retries *)

Lemma tokenize_prompt_events be text add_special s :
  is_Some (g_vocab (gs_globals s)) ->
  let n0 := Z.of_nat (String.length text) + 32 in
  let r0 := fst (llama_tokenize be text n0 add_special) in
  let r1 := fst (llama_tokenize be text (- r0) add_special) in
  gs_events (snd (tokenize_prompt be text add_special s)) =
  if r0 <? 0 then EvTokenize (- r0) r1 :: EvTokenize n0 r0 :: gs_events s
  else EvTokenize n0 r0 :: gs_events s.
Proof.
  intros [v Hv]. unfold tokenize_prompt. rewrite Hv. cbv zeta.
  destruct (llama_tokenize be text (Z.of_nat (String.length text) + 32) add_special)
    as [r0 w0] eqn:E0.
  cbn [fst]. destruct (Z.ltb_spec r0 0) as [Hneg|Hpos].
  - rewrite length_resize, Z2Nat.id by lia.
    destruct (llama_tokenize be text (- r0) add_special) as [r1 w1] eqn:E1.
    cbn [fst]. destruct (r1 <? 0); reflexivity.
  - destruct (Z.ltb_spec r0 0); [lia|]. reflexivity.
Qed.

Lemma token_to_str_events be tok s :
  let n0 := fst (llama_token_to_piece be tok 127) in
  let n1 := fst (llama_token_to_piece be tok (- n0)) in
  gs_events (snd (token_to_str be tok s)) =
  if n0 <? 0 then EvTokenToPiece tok (- n0) n1 :: EvTokenToPiece tok 127 n0 :: gs_events s
  else EvTokenToPiece tok 127 n0 :: gs_events s.
Proof.
  unfold token_to_str. cbv zeta. rewrite length_replicate.
  change (Z.of_nat 128 - 1) with 127.
  destruct (llama_token_to_piece be tok 127) as [n0 w0] eqn:E0.
  cbn [fst]. destruct (Z.ltb_spec n0 0) as [Hneg|Hpos]; [|reflexivity].
  rewrite length_resize.
  replace (Z.of_nat (Z.to_nat (- n0 + 1)) - 1) with (- n0) by lia.
  destruct (llama_token_to_piece be tok (- n0)) as [n1 w1] eqn:E1.
  reflexivity.
Qed.

(** With a library that keeps its promise the buffer ends up holding the
    whole piece, whatever its length. *)
Lemma token_to_str_piece be piece tok s :
  piece_contract be piece ->
  let '(token_str, n, _) := token_to_str be tok s in
  n = Z.of_nat (length (piece tok)) /\
  resize (Z.to_nat n) NUL token_str = piece tok.
Proof.
  intros C. unfold token_to_str. cbv zeta. rewrite length_replicate.
  change (Z.of_nat 128 - 1) with 127.
  rewrite (C tok 127).
  destruct (Z.leb_spec (Z.of_nat (length (piece tok))) 127) as [Hfit|Hbig].
  - destruct (Z.ltb_spec (Z.of_nat (length (piece tok))) 0); [lia|].
    split; [reflexivity|]. rewrite Nat2Z.id. unfold overwrite.
    now apply resize_app.
  - destruct (Z.ltb_spec (- Z.of_nat (length (piece tok))) 0); [|lia].
    rewrite length_resize.
    replace (Z.of_nat (Z.to_nat (- - Z.of_nat (length (piece tok)) + 1)) - 1)
      with (Z.of_nat (length (piece tok))) by lia.
    rewrite (C tok (Z.of_nat (length (piece tok)))).
    rewrite Z.leb_refl. split; [reflexivity|].
    rewrite Nat2Z.id. unfold overwrite. now apply resize_app.
Qed.

Lemma tokenize_prompt_gives_up be text add_special s :
  let n0 := Z.of_nat (String.length text) + 32 in
  let r0 := fst (llama_tokenize be text n0 add_special) in
  let r1 := fst (llama_tokenize be text (- r0) add_special) in
  r0 < 0 -> r1 < 0 -> fst (tokenize_prompt be text add_special s) = [].
Proof.
  cbv zeta. intros H0 H1. unfold tokenize_prompt.
  destruct (g_vocab (gs_globals s)); [|reflexivity]. cbv zeta.
  destruct (llama_tokenize be text (Z.of_nat (String.length text) + 32) add_special)
    as [r0 w0] eqn:E0.
  cbn [fst] in *. destruct (Z.ltb_spec r0 0) as [_|]; [|lia].
  rewrite length_resize, Z2Nat.id by lia.
  destruct (llama_tokenize be text (- r0) add_special) as [r1 w1] eqn:E1.
  cbn [fst] in *. destruct (Z.ltb_spec r1 0); [reflexivity|lia].
Qed.

Lemma token_to_str_gives_up be tok response s :
  let n0 := fst (llama_token_to_piece be tok 127) in
  let n1 := fst (llama_token_to_piece be tok (- n0)) in
  n0 < 0 -> n1 <= 0 ->
  let '(token_str, n, s1) := token_to_str be tok s in
  deliver_token token_str n response s1 = (response, s1).
Proof.
  cbv zeta. intros H0 H1. unfold token_to_str. cbv zeta. rewrite length_replicate.
  change (Z.of_nat 128 - 1) with 127.
  destruct (llama_token_to_piece be tok 127) as [n0 w0] eqn:E0.
  cbn [fst] in *. destruct (Z.ltb_spec n0 0) as [_|]; [|lia].
  rewrite length_resize.
  replace (Z.of_nat (Z.to_nat (- n0 + 1)) - 1) with (- n0) by lia.
  destruct (llama_token_to_piece be tok (- n0)) as [n1 w1] eqn:E1.
  cbn [fst] in *. unfold deliver_token.
  destruct (Z.ltb_spec 0 n1); [lia|reflexivity].
Qed.

(** C8: a negative return value of the tokenizer or of the token-to-text
    conversion leads to exactly one further call, made with the buffer
    resized to the size the library asked for, and to no call after that,
    whatever the library answers: a second negative answer ends the
    tokenization with no tokens and leaves the token without a fragment.
    (The first answer is taken above [INT_MIN], resp. [INT_MIN + 1], so that
    the new size [- n], resp. [- n + 1], is an [int].) When the library
    answers as promised, the fragment appended to the response is the whole
    piece, for pieces of any length an [int] can report; the callback
    receives the piece as a C string, which is the whole piece when it holds
    no NUL byte. *)
Theorem one_resize_one_retry be text add_special tok response s :
  (is_Some (g_vocab (gs_globals s)) ->
   let n0 := Z.of_nat (String.length text) + 32 in
   let r0 := fst (llama_tokenize be text n0 add_special) in
   let r1 := fst (llama_tokenize be text (- r0) add_special) in
   n0 <= INT_MAX -> INT_MIN < r0 ->
   gs_events (snd (tokenize_prompt be text add_special s)) =
   (if r0 <? 0 then EvTokenize (- r0) r1 :: EvTokenize n0 r0 :: gs_events s
    else EvTokenize n0 r0 :: gs_events s) /\
   (r0 < 0 -> r1 < 0 -> fst (tokenize_prompt be text add_special s) = [])) /\
  (let n0 := fst (llama_token_to_piece be tok 127) in
   let n1 := fst (llama_token_to_piece be tok (- n0)) in
   INT_MIN + 1 < n0 ->
   gs_events (snd (token_to_str be tok s)) =
   (if n0 <? 0 then EvTokenToPiece tok (- n0) n1 :: EvTokenToPiece tok 127 n0 :: gs_events s
    else EvTokenToPiece tok 127 n0 :: gs_events s) /\
   (n0 < 0 -> n1 <= 0 ->
    let '(token_str, n, s1) := token_to_str be tok s in
    deliver_token token_str n response s1 = (response, s1))) /\
  (forall piece,
   piece_contract be piece ->
   Z.of_nat (length (piece tok)) < INT_MAX ->
   let '(token_str, n, s1) := token_to_str be tok s in
   let (response', s2) := deliver_token token_str n response s1 in
   response' = response ++ piece tok /\
   callbacks (gs_events s2) =
   callbacks (gs_events s) ++ (if decide (piece tok = []) then [] else [c_str (piece tok)]) /\
   (~ In NUL (piece tok) -> c_str (piece tok) = piece tok)).
Proof.
  split.
  { intros Hv. cbv zeta. intros _ _.
    split; [exact (tokenize_prompt_events be text add_special s Hv)|].
    exact (tokenize_prompt_gives_up be text add_special s). }
  split.
  { cbv zeta. intros _.
    split; [exact (token_to_str_events be tok s)|].
    exact (token_to_str_gives_up be tok response s). }
  intros piece C _.
  pose proof (token_to_str_piece be piece tok s C) as P.
  pose proof (token_to_str_events be tok s) as E. cbv zeta in E.
  destruct (token_to_str be tok s) as [[token_str n] s1]. destruct P as [Hn Hp].
  cbn [snd] in E. unfold deliver_token.
  assert (Hcb : callbacks (gs_events s1) = callbacks (gs_events s)).
  { rewrite E. destruct (_ <? 0); reflexivity. }
  assert (Hclean : ~ In NUL (piece tok) -> c_str (piece tok) = piece tok).
  { generalize (piece tok). intros l. induction l as [|c l IH]; simpl; [reflexivity|].
    intros H. destruct (Ascii.eqb_spec c NUL) as [->|_]; [destruct H; now left|].
    f_equal. apply IH. intros Hin. apply H. now right. }
  destruct (Z.ltb_spec 0 n) as [Hpos|Hzero].
  - rewrite Hp. split; [reflexivity|]. split; [|exact Hclean]. cbn. rewrite Hcb.
    destruct (decide (piece tok = [])) as [Hnil|]; [|reflexivity].
    rewrite Hnil in Hn. simpl in Hn. lia.
  - assert (Hnil : piece tok = []).
    { destruct (piece tok); [reflexivity|]. simpl in Hn. lia. }
    rewrite Hnil, app_nil_r, Hcb. split; [reflexivity|]. split; [|rewrite <- Hnil; exact Hclean].
    destruct (decide _); [now rewrite app_nil_r|congruence].
Qed.

(** ** Reading events: algebra *)

Lemma decoded_app a b : decoded (a ++ b) = decoded b ++ decoded a.
Proof.
  induction a as [|e a IH]; simpl; [now rewrite app_nil_r|].
  destruct e; rewrite ?IH, ?app_assoc; reflexivity.
Qed.

Lemma sampled_app a b : sampled (a ++ b) = sampled b ++ sampled a.
Proof.
  induction a as [|e a IH]; simpl; [now rewrite app_nil_r|].
  destruct e; rewrite ?IH, ?app_assoc; reflexivity.
Qed.

Lemma callbacks_app a b : callbacks (a ++ b) = callbacks b ++ callbacks a.
Proof.
  induction a as [|e a IH]; simpl; [now rewrite app_nil_r|].
  destruct e; rewrite ?IH, ?app_assoc; reflexivity.
Qed.

Lemma split_reset_app_none a b :
  split_reset a = None -> split_reset b = None -> split_reset (a ++ b) = None.
Proof.
  intros Ha Hb. induction a as [|e a IH]; simpl in *; [assumption|].
  destruct e; try discriminate;
    (destruct (split_reset a) as [[? ?]|]; [discriminate|]; now rewrite IH).
Qed.

Lemma split_reset_app_reset a old :
  split_reset a = None -> split_reset (a ++ EvSamplerReset :: old) = Some (a, old).
Proof.
  intros Ha. induction a as [|e a IH]; simpl in *; [reflexivity|].
  destruct e; try discriminate;
    (destruct (split_reset a) as [[? ?]|]; [discriminate|]; now rewrite IH).
Qed.

Lemma split_reset_app_older a b newer older :
  split_reset a = None -> split_reset b = Some (newer, older) ->
  split_reset (a ++ b) = Some (a ++ newer, older).
Proof.
  intros Ha Hb. induction a as [|e a IH]; simpl in *; [assumption|].
  destruct e; try discriminate;
    (destruct (split_reset a) as [[? ?]|]; [discriminate|]; now rewrite IH).
Qed.

Lemma adds_are_quiet new :
  Forall is_add new ->
  decoded new = [] /\ sampled new = [] /\ callbacks new = [] /\ split_reset new = None.
Proof.
  induction 1 as [|e new He _ IH]; simpl; [auto|].
  destruct e; try (now destruct He). destruct IH as (-> & -> & -> & ->). auto.
Qed.

(** ** The loops of a call

    The lemmas of this section share the inference library, the stores of
    the other threads and the batch capacity [B], which is at least one. *)

Section Loops.

Context (be : inference_backend) (others : nat -> option Z).
Variable B : Z.
Hypothesis HB : 1 <= B.

(** *** The batch helpers *)

Lemma batch_clear_synced s :
  batch_discipline B (gs_events s) ->
  synced B (batch_clear s) [] /\
  gs_events (batch_clear s) = EvBatchClear :: gs_events s /\
  loop_frame (gs_globals (batch_clear s)) = loop_frame (gs_globals s) /\
  g_stop_generation_id (gs_globals (batch_clear s)) = g_stop_generation_id (gs_globals s) /\
  gs_decodes (batch_clear s) = gs_decodes s /\
  gs_samples (batch_clear s) = gs_samples s /\
  gs_loads (batch_clear s) = gs_loads s.
Proof.
  intros D. unfold synced, batch_clear, loop_frame, batch_view, batch_capacity. simpl.
  repeat split; auto.
Qed.

Lemma batch_add_synced s l tok pos lg :
  synced B s l ->
  batch_capacity (g_batch (gs_globals s)) = B ->
  Z.of_nat (length l) < B ->
  exists s',
    batch_add tok pos lg s = Done s' /\
    gs_events s' = EvBatchAdd (Z.of_nat (length l)) (mkSlot tok pos 1 0 lg) :: gs_events s /\
    synced B s' (l ++ [mkSlot tok pos 1 0 lg]) /\
    loop_frame (gs_globals s') = loop_frame (gs_globals s) /\
    g_stop_generation_id (gs_globals s') = g_stop_generation_id (gs_globals s) /\
    gs_decodes s' = gs_decodes s /\ gs_samples s' = gs_samples s /\
    gs_loads s' = gs_loads s.
Proof.
  intros (Hp & Hn & Hv & Hd) Hcap Hlt.
  unfold batch_add. rewrite Hn.
  unfold batch_capacity in *.
  destruct (Z.leb_spec 0 (Z.of_nat (length l))); [|lia].
  destruct (Z.ltb_spec (Z.of_nat (length l)) (Z.of_nat (length (b_slots (g_batch (gs_globals s))))));
    [|lia].
  simpl. eexists. split; [reflexivity|].
  unfold synced, loop_frame, batch_view, batch_capacity. simpl.
  rewrite Hp, Nat2Z.id, length_insert, length_app. simpl.
  repeat split; auto; try lia.
  - replace (Z.to_nat (Z.of_nat (length l) + 1)) with (S (length l)) by lia.
    rewrite (take_S_r _ _ (mkSlot tok pos 1 0 lg)).
    + rewrite take_insert_ge by lia.
      unfold batch_view in Hv. rewrite Hn, Nat2Z.id in Hv. now rewrite Hv.
    + apply list_lookup_insert_eq. lia.
  - exists l. auto.
Qed.

Lemma fill_batch_synced tokens (n : nat) count :
  forall (i : nat) s l,
    synced B s l ->
    batch_capacity (g_batch (gs_globals s)) = B ->
    length l = i ->
    Z.of_nat (i + count) <= B ->
    (n + i + count <= length tokens)%nat ->
    exists s' new,
      fill_batch tokens (Z.of_nat (length tokens)) (Z.of_nat n) count (Z.of_nat i) s = Done s' /\
      gs_events s' = new ++ gs_events s /\ Forall is_add new /\
      synced B s' (l ++ map (prompt_entry tokens) (seq (n + i) count)) /\
      loop_frame (gs_globals s') = loop_frame (gs_globals s) /\
      g_stop_generation_id (gs_globals s') = g_stop_generation_id (gs_globals s) /\
      gs_decodes s' = gs_decodes s /\ gs_samples s' = gs_samples s /\
      gs_loads s' = gs_loads s.
Proof.
  induction count as [|count IH]; intros i s l Hs Hcap Hl Hfit Hlen.
  - exists s, []. simpl. rewrite app_nil_r.
    split; [reflexivity|]. split; [reflexivity|]. split; [constructor|].
    split; [exact Hs|]. repeat split; reflexivity.
  - simpl fill_batch.
    replace (Z.of_nat n + Z.of_nat i) with (Z.of_nat (n + i)) by lia.
    destruct (Z.leb_spec 0 (Z.of_nat (n + i))); [|lia].
    rewrite Nat2Z.id.
    destruct (lookup_lt_is_Some_2 tokens (n + i)) as [tok Htok]; [lia|].
    rewrite Htok.
    destruct (batch_add_synced s l tok (Z.of_nat (n + i))
                (Z.of_nat (n + i) =? Z.of_nat (length tokens) - 1) Hs Hcap)
      as (s1 & E1 & Ev1 & Hs1 & F1 & St1 & D1 & Sa1 & L1); [lia|].
    rewrite E1. cbn [mbind outcome_bind].
    assert (Hentry : mkSlot tok (Z.of_nat (n + i)) 1 0
                       (Z.of_nat (n + i) =? Z.of_nat (length tokens) - 1)
                     = prompt_entry tokens (n + i)).
    { unfold prompt_entry. f_equal. symmetry. exact (nth_lookup_Some _ _ _ _ Htok). }
    rewrite Hentry in Hs1.
    replace (Z.of_nat i + 1) with (Z.of_nat (S i)) by lia.
    destruct (IH (S i) s1 (l ++ [prompt_entry tokens (n + i)])) as
      (s2 & new & E2 & Ev2 & Hadd & Hs2 & F2 & St2 & D2 & Sa2 & L2).
    + assumption.
    + unfold loop_frame in F1. congruence.
    + rewrite length_app. simpl. lia.
    + lia.
    + lia.
    + exists s2, (new ++ [EvBatchAdd (Z.of_nat (length l))
                            (mkSlot tok (Z.of_nat (n + i)) 1 0
                               (Z.of_nat (n + i) =? Z.of_nat (length tokens) - 1))]).
      split; [exact E2|].
      split; [rewrite Ev2, Ev1, <- app_assoc; reflexivity|].
      split; [apply Forall_app; split; [assumption|repeat constructor]|].
      split.
      { rewrite <- app_assoc in Hs2. simpl in Hs2.
        replace (n + S i)%nat with (S (n + i)) in Hs2 by lia. exact Hs2. }
      repeat split; congruence.
Qed.

(** *** The primitive steps of a call *)

Lemma load_stop_spec s :
  let v := fst (load_stop_generation_id others s) in
  let s' := snd (load_stop_generation_id others s) in
  gs_events s' = EvStopLoad v :: gs_events s /\
  v = g_stop_generation_id (gs_globals s') /\
  loop_frame (gs_globals s') = loop_frame (gs_globals s) /\
  g_batch (gs_globals s') = g_batch (gs_globals s) /\
  gs_decodes s' = gs_decodes s /\ gs_samples s' = gs_samples s.
Proof.
  unfold load_stop_generation_id. destruct (others (gs_loads s)); simpl;
    repeat split; auto.
Qed.

Lemma decode_spec s :
  let r := fst (decode be s) in
  let s' := snd (decode be s) in
  gs_events s' = EvDecode (batch_view (g_batch (gs_globals s))) r :: gs_events s /\
  gs_globals s' = gs_globals s /\ gs_samples s' = gs_samples s.
Proof. unfold decode. simpl. auto. Qed.

Lemma sample_spec s :
  let tok := fst (sample be s) in
  let s' := snd (sample be s) in
  gs_events s' = EvSample tok :: gs_events s /\
  gs_globals s' = gs_globals s /\ gs_samples s' = S (gs_samples s).
Proof. unfold sample. simpl. auto. Qed.

Lemma token_to_str_frame tok s :
  let s' := snd (token_to_str be tok s) in
  gs_globals s' = gs_globals s /\ gs_samples s' = gs_samples s /\
  exists new, gs_events s' = new ++ gs_events s /\
    decoded new = [] /\ sampled new = [] /\ callbacks new = [] /\
    split_reset new = None /\ pending (gs_events s') = pending (gs_events s) /\
    forall C, batch_discipline C (gs_events s) -> batch_discipline C (gs_events s').
Proof.
  unfold token_to_str. cbv zeta.
  destruct (llama_token_to_piece be tok _) as [n0 w0].
  destruct (n0 <? 0).
  - destruct (llama_token_to_piece be tok _) as [n1 w1]. simpl.
    split; [reflexivity|]. split; [reflexivity|].
    eexists [_; _]. simpl. repeat split; auto.
  - simpl. split; [reflexivity|]. split; [reflexivity|].
    eexists [_]. simpl. repeat split; auto.
Qed.

Lemma deliver_token_frame token_str n response s :
  let s' := snd (deliver_token token_str n response s) in
  gs_globals s' = gs_globals s /\ gs_samples s' = gs_samples s /\
  exists new, gs_events s' = new ++ gs_events s /\
    decoded new = [] /\ sampled new = [] /\ (length (callbacks new) <= 1)%nat /\
    split_reset new = None /\ pending (gs_events s') = pending (gs_events s) /\
    forall C, batch_discipline C (gs_events s) -> batch_discipline C (gs_events s').
Proof.
  unfold deliver_token. destruct (0 <? n); simpl.
  - split; [reflexivity|]. split; [reflexivity|].
    eexists [_]. simpl. repeat split; auto.
  - split; [reflexivity|]. split; [reflexivity|].
    exists []. simpl. repeat split; auto.
Qed.

(** *** The prompt loop *)

Lemma prefill_loop_spec tokens local_id fuel :
  forall (n : nat) s,
    (n <= length tokens)%nat ->
    (length tokens - n < fuel)%nat ->
    g_batch_size (gs_globals s) = B ->
    batch_capacity (g_batch (gs_globals s)) = B ->
    batch_discipline B (gs_events s) ->
    exists r s' new (n' : nat),
      prefill_loop be others fuel tokens (Z.of_nat (length tokens)) local_id (Z.of_nat n) s
      = Done (r, s') /\
      gs_events s' = new ++ gs_events s /\
      loop_frame (gs_globals s') = loop_frame (gs_globals s) /\
      batch_discipline B (gs_events s') /\
      sampled new = [] /\ callbacks new = [] /\ split_reset new = None /\
      (n <= n' <= length tokens)%nat /\
      concat (decoded new) = map (prompt_entry tokens) (seq n (n' - n)) /\
      Forall (fun v => (1 <= length v)%nat /\ Z.of_nat (length v) <= B) (decoded new) /\
      gs_samples s' = gs_samples s /\
      (r <> None -> n' = length tokens \/ In (EvStopLoad local_id) new).
Proof.
  induction fuel as [|fuel IH]; intros n s Hn Hfuel Hbs Hcap Hd; [lia|].
  cbn [prefill_loop].
  destruct (Z.ltb_spec (Z.of_nat n) (Z.of_nat (length tokens))) as [Hlt|Hge].
  2:{ exists (Some (Z.of_nat n)), s, [], n. simpl.
      replace (n - n)%nat with O by lia. simpl.
      repeat split; auto; try lia. }
  pose proof (load_stop_spec s) as L. cbv zeta in L.
  destruct (load_stop_generation_id others s) as [v s1]. cbn [fst snd] in L.
  destruct L as (Ev1 & Hv & F1 & Hb1 & _ & Sa1).
  destruct (Z.eqb_spec v local_id) as [Hstop|Hgo].
  { exists (Some (Z.of_nat n)), s1, [EvStopLoad v], n. simpl.
    replace (n - n)%nat with O by lia. simpl.
    rewrite Ev1. simpl. repeat split; auto; try lia;
      try (intros _; right; left; congruence). }
  assert (Hbs1 : g_batch_size (gs_globals s1) = B)
    by (unfold loop_frame in F1; congruence).
  assert (Hcap1 : batch_capacity (g_batch (gs_globals s1)) = B) by congruence.
  assert (Hd1 : batch_discipline B (gs_events s1)) by (rewrite Ev1; simpl; auto).
  destruct (batch_clear_synced s1 Hd1) as (Hs2 & Ev2 & F2 & _ & _ & Sa2 & _).
  set (s2 := batch_clear s1) in *.
  assert (Hbs2 : g_batch_size (gs_globals s2) = B)
    by (unfold loop_frame in F2; congruence).
  assert (Hcap2 : batch_capacity (g_batch (gs_globals s2)) = B)
    by (unfold loop_frame in F2; congruence).
  rewrite Hbs2.
  set (c := Z.to_nat (Z.min B (Z.of_nat (length tokens) - Z.of_nat n))).
  assert (Hc : (1 <= c)%nat /\ Z.of_nat c <= B /\ (n + c <= length tokens)%nat)
    by (unfold c; lia).
  destruct (fill_batch_synced tokens n c 0 s2 [] Hs2 Hcap2 eq_refl)
    as (s3 & new3 & E3 & Ev3 & Hadd3 & Hs3 & F3 & _ & _ & Sa3 & _); [lia|lia|].
  change (Z.of_nat 0) with 0 in E3. rewrite E3. cbn [mbind outcome_bind].
  simpl app in Hs3. replace (n + 0)%nat with n in Hs3 by lia.
  destruct Hs3 as (Hp3 & Hn3 & Hv3 & Hd3).
  pose proof (decode_spec s3) as D. cbv zeta in D.
  destruct (decode be s3) as [r s4]. cbn [fst snd] in D.
  destruct D as (Ev4 & G4 & Sa4). rewrite Hv3 in Ev4.
  destruct (adds_are_quiet new3 Hadd3) as (Q1 & Q2 & Q3 & Q4).
  assert (Hd4 : batch_discipline B (gs_events s4)).
  { rewrite Ev4. simpl. split; [assumption|]. split; [assumption|].
    rewrite length_map, length_seq. lia. }
  assert (F4 : loop_frame (gs_globals s4) = loop_frame (gs_globals s)) by congruence.
  assert (Ev4' : gs_events s4 =
                 (EvDecode (map (prompt_entry tokens) (seq n c)) r
                    :: new3 ++ [EvBatchClear; EvStopLoad v]) ++ gs_events s).
  { rewrite Ev4, Ev3, Ev2, Ev1. simpl. now rewrite <- app_assoc. }
  assert (Hq : split_reset (new3 ++ [EvBatchClear; EvStopLoad v]) = None)
    by (apply split_reset_app_none; [assumption|reflexivity]).
  destruct (Z.eqb_spec r 0) as [Hok|Hfail]; cbn [negb].
  2:{ exists None, s4, (EvDecode (map (prompt_entry tokens) (seq n c)) r
                          :: new3 ++ [EvBatchClear; EvStopLoad v]), (n + c)%nat.
      split; [reflexivity|]. split; [exact Ev4'|]. split; [exact F4|].
      split; [exact Hd4|].
      simpl. rewrite sampled_app, callbacks_app, decoded_app, Q1, Q2, Q3, Hq. simpl.
      rewrite app_nil_r. replace (n + c - n)%nat with c by lia.
      repeat split; auto; try lia; try congruence.
      constructor; [|constructor]. rewrite length_map, length_seq. lia. }
  replace (Z.of_nat n + Z.min B (Z.of_nat (length tokens) - Z.of_nat n))
    with (Z.of_nat (n + c)) by (unfold c; lia).
  destruct (IH (n + c)%nat s4) as
    (r' & s5 & new5 & n' & E5 & Ev5 & F5 & Hd5 & S5 & C5 & R5 & Hn5 & Hcat5 & Hall5 & Sa5 & Hr5);
    [lia|lia| | |exact Hd4|].
  { unfold loop_frame in F4. congruence. }
  { unfold loop_frame in F4. congruence. }
  exists r', s5,
    (new5 ++ EvDecode (map (prompt_entry tokens) (seq n c)) r
          :: new3 ++ [EvBatchClear; EvStopLoad v]), n'.
  split; [exact E5|].
  split; [rewrite Ev5, Ev4', <- app_assoc; reflexivity|].
  split; [congruence|]. split; [exact Hd5|].
  rewrite sampled_app, callbacks_app, decoded_app. simpl.
  rewrite sampled_app, callbacks_app, decoded_app, Q1, Q2, Q3, S5, C5. simpl.
  split; [reflexivity|]. split; [reflexivity|].
  split.
  { apply split_reset_app_none; [assumption|]. simpl. now rewrite Hq. }
  split; [lia|].
  split.
  { rewrite Hcat5, <- map_app, <- seq_app. f_equal. f_equal. lia. }
  split.
  { constructor; [|assumption]. rewrite length_map, length_seq. lia. }
  split; [congruence|].
  intros Hr. destruct (Hr5 Hr) as [H|H]; [left; exact H|right].
  apply in_or_app. left. exact H.
Qed.

(** *** The token loop *)

Lemma decode_loop_spec maxTokens local_id fuel :
  forall n_cur n_gen response s,
    (Z.to_nat (maxTokens - n_gen) < fuel)%nat ->
    batch_capacity (g_batch (gs_globals s)) = B ->
    batch_discipline B (gs_events s) ->
    exists response' n_gen' s' new,
      decode_loop be others fuel maxTokens local_id n_cur n_gen response s
      = Done (response', n_gen', s') /\
      gs_events s' = new ++ gs_events s /\
      loop_frame (gs_globals s') = loop_frame (gs_globals s) /\
      batch_discipline B (gs_events s') /\
      split_reset new = None /\
      (length (sampled new) <= Z.to_nat (maxTokens - n_gen))%nat /\
      (length (callbacks new) <= length (sampled new))%nat /\
      (length (decoded new) <= length (sampled new))%nat /\
      Forall is_single (decoded new) /\
      n_gen <= n_gen' <= Z.max n_gen maxTokens.
Proof.
  induction fuel as [|fuel IH];
    intros n_cur n_gen response s Hfuel Hcap Hd; [lia|].
  cbn [decode_loop].
  destruct (Z.ltb_spec n_gen maxTokens) as [Hlt|Hge]; cbn [andb].
  2:{ exists response, n_gen, s, []. simpl. repeat split; auto; try lia. }
  destruct (n_cur <? g_context_size (gs_globals s)).
  2:{ exists response, n_gen, s, []. simpl. repeat split; auto; try lia. }
  pose proof (load_stop_spec s) as L. cbv zeta in L.
  destruct (load_stop_generation_id others s) as [v s1]. cbn [fst snd] in L.
  destruct L as (Ev1 & _ & F1 & Hb1 & _ & _).
  destruct (v =? local_id).
  { exists response, n_gen, s1, [EvStopLoad v]. rewrite Ev1. simpl.
    repeat split; auto; try lia. }
  pose proof (sample_spec s1) as Sm. cbv zeta in Sm.
  destruct (sample be s1) as [tok s2]. cbn [fst snd] in Sm.
  destruct Sm as (Ev2 & G2 & _).
  assert (Hd2 : batch_discipline B (gs_events s2))
    by (rewrite Ev2, Ev1; simpl; auto).
  destruct (llama_vocab_is_eog be tok).
  { exists response, n_gen, s2, [EvSample tok; EvStopLoad v].
    rewrite Ev2, Ev1, G2. simpl. repeat split; auto; try lia. }
  pose proof (token_to_str_frame tok s2) as T. cbv zeta in T.
  destruct (token_to_str be tok s2) as [[token_str n] s3]. cbn [snd] in T.
  destruct T as (G3 & _ & new3 & Ev3 & Q3d & Q3s & Q3c & Q3r & _ & Hd3).
  pose proof (deliver_token_frame token_str n response s3) as Dl. cbv zeta in Dl.
  destruct (deliver_token token_str n response s3) as [response1 s4]. cbn [snd] in Dl.
  destruct Dl as (G4 & _ & new4 & Ev4 & Q4d & Q4s & Q4c & Q4r & _ & Hd4).
  specialize (Hd4 B (Hd3 B Hd2)).
  destruct (batch_clear_synced s4 Hd4) as (Hs5 & Ev5 & F5 & _).
  set (s5 := batch_clear s4) in *.
  assert (F5' : loop_frame (gs_globals s5) = loop_frame (gs_globals s)) by congruence.
  assert (Hcap5 : batch_capacity (g_batch (gs_globals s5)) = B)
    by (unfold loop_frame in F5'; congruence).
  destruct (batch_add_synced s5 [] tok n_cur true Hs5 Hcap5)
    as (s6 & E6 & Ev6 & Hs6 & F6 & _); [simpl; lia|].
  rewrite E6. cbn [mbind outcome_bind].
  destruct Hs6 as (Hp6 & _ & Hv6 & Hd6). simpl app in *.
  pose proof (decode_spec s6) as D. cbv zeta in D.
  destruct (decode be s6) as [r s7]. cbn [fst snd] in D.
  destruct D as (Ev7 & G7 & _). rewrite Hv6 in Ev7.
  assert (Hd7 : batch_discipline B (gs_events s7)).
  { rewrite Ev7. simpl. split; [assumption|]. split; [assumption|]. simpl. lia. }
  assert (F7 : loop_frame (gs_globals s7) = loop_frame (gs_globals s)) by congruence.
  set (iter := EvDecode [mkSlot tok n_cur 1 0 true] r
                 :: EvBatchAdd (Z.of_nat 0) (mkSlot tok n_cur 1 0 true)
                 :: EvBatchClear :: new4 ++ new3 ++ [EvSample tok; EvStopLoad v]).
  assert (Ev7' : gs_events s7 = iter ++ gs_events s).
  { unfold iter. rewrite Ev7, Ev6, Ev5, Ev4, Ev3, Ev2, Ev1. simpl.
    now rewrite <- !app_assoc. }
  assert (Hr : split_reset iter = None).
  { unfold iter. simpl.
    rewrite (split_reset_app_none new4 (new3 ++ [EvSample tok; EvStopLoad v])); auto.
    apply split_reset_app_none; auto. }
  assert (Hsm : sampled iter = [tok]).
  { unfold iter. simpl. now rewrite !sampled_app, Q4s, Q3s. }
  assert (Hcb : (length (callbacks iter) <= 1)%nat).
  { unfold iter. simpl. rewrite !callbacks_app, Q3c. simpl. exact Q4c. }
  assert (Hdc : decoded iter = [[mkSlot tok n_cur 1 0 true]]).
  { unfold iter. simpl. now rewrite !decoded_app, Q4d, Q3d. }
  destruct (r =? 0); cbn [negb].
  2:{ exists response1, n_gen, s7, iter.
      split; [reflexivity|]. split; [exact Ev7'|]. split; [exact F7|].
      split; [exact Hd7|]. split; [exact Hr|]. rewrite Hsm, Hdc. simpl.
      split; [lia|]. split; [exact Hcb|]. split; [lia|].
      split; [constructor; [now exists tok, n_cur|constructor]|lia]. }
  destruct (IH (n_cur + 1) (n_gen + 1) response1 s7) as
    (response' & n_gen' & s8 & new8 & E8 & Ev8 & F8 & Hd8 & R8 & S8 & C8 & D8 & Sg8 & N8);
    [lia| |exact Hd7|].
  { unfold loop_frame in F7, F5'. congruence. }
  exists response', n_gen', s8, (new8 ++ iter).
  split; [exact E8|].
  split; [rewrite Ev8, Ev7', <- app_assoc; reflexivity|].
  split; [congruence|]. split; [exact Hd8|].
  split; [now apply split_reset_app_none|].
  rewrite sampled_app, callbacks_app, decoded_app, Hsm, Hdc, !length_app.
  cbn [length app Nat.add].
  split; [lia|]. split; [lia|]. split; [lia|].
  split; [constructor; [now exists tok, n_cur|assumption]|]. lia.
Qed.

End Loops.

(** ** The whole call *)

Lemma tokenize_prompt_frame be text add_special s :
  let s' := snd (tokenize_prompt be text add_special s) in
  gs_globals s' = gs_globals s /\
  exists new, gs_events s' = new ++ gs_events s /\
    decoded new = [] /\ sampled new = [] /\ callbacks new = [] /\
    split_reset new = None /\
    forall B, batch_discipline B (gs_events s) -> batch_discipline B (gs_events s').
Proof.
  unfold tokenize_prompt. destruct (g_vocab (gs_globals s)).
  2:{ simpl. split; [reflexivity|]. exists []. simpl. repeat split; auto. }
  cbv zeta. destruct (llama_tokenize be text _ add_special) as [r0 w0].
  destruct (r0 <? 0).
  - destruct (llama_tokenize be text _ add_special) as [r1 w1].
    destruct (r1 <? 0); simpl; (split; [reflexivity|]);
      eexists [_; _]; simpl; repeat split; auto.
  - destruct (r0 <? 0); simpl; (split; [reflexivity|]);
      eexists [_]; simpl; repeat split; auto.
Qed.

Lemma tokenize_prompt_tokens be text add_special s1 s2 :
  g_vocab (gs_globals s1) = g_vocab (gs_globals s2) ->
  fst (tokenize_prompt be text add_special s1) = fst (tokenize_prompt be text add_special s2).
Proof.
  intros H. unfold tokenize_prompt. rewrite H. destruct (g_vocab (gs_globals s2)); [|reflexivity].
  cbv zeta. destruct (llama_tokenize be text _ add_special) as [r0 w0].
  destruct (r0 <? 0).
  - destruct (llama_tokenize be text _ add_special) as [r1 w1].
    destruct (r1 <? 0); reflexivity.
  - destruct (r0 <? 0); reflexivity.
Qed.

Lemma generate_post_prompt_only be st prompt maxTokens r s n :
  split_reset (gs_events s) = None ->
  batch_discipline (g_batch_size st) (gs_events s) ->
  sampled (gs_events s) = [] -> callbacks (gs_events s) = [] ->
  (n <= length (evaluated_prompt be st prompt maxTokens))%nat ->
  concat (decoded (gs_events s)) = prompt_entries (evaluated_prompt be st prompt maxTokens) n ->
  Forall (fun v => (1 <= length v)%nat /\ Z.of_nat (length v) <= g_batch_size st)
         (decoded (gs_events s)) ->
  loop_frame (gs_globals s) =
  loop_frame (match r with
              | ErrModelNotLoaded | ErrAlreadyGenerating => st
              | _ => set_generation_id (uint64_wrap (g_generation_id st + 1)) st
              end) ->
  generate_post be st prompt maxTokens r s.
Proof.
  intros Hr Hd Hs Hc Hn Hcat Hall Hf. unfold generate_post, prompt_phase, token_phase.
  rewrite Hr, Hs, Hc. simpl.
  split; [assumption|]. split; [lia|]. split; [lia|]. split; [reflexivity|].
  split; [exists n; split; [assumption|]; split; [assumption|congruence]|].
  split; [assumption|]. split; [constructor|]. split; [lia|assumption].
Qed.

Lemma evaluated_prompt_entry be st prompt maxTokens s :
  g_vocab (gs_globals s) = g_vocab st ->
  g_context_size (gs_globals s) = g_context_size st ->
  g_max_gen_tokens (gs_globals s) = g_max_gen_tokens st ->
  truncate_prompt (g_context_size (gs_globals s))
    (clamp_max_tokens (gs_globals s) maxTokens)
    (fst (tokenize_prompt be prompt true s))
  = evaluated_prompt be st prompt maxTokens.
Proof.
  intros Hv Hc Hm. unfold evaluated_prompt, clamp_max_tokens. rewrite Hc, Hm.
  f_equal. now apply tokenize_prompt_tokens.
Qed.

(** Every run of [generate] on a configured session returns, given enough
    fuel, and satisfies [generate_post]. *)
Lemma generate_returns be others fuel prompt maxTokens onToken_found st :
  configured st ->
  (fuel_needed be st prompt maxTokens <= fuel)%nat ->
  exists r s,
    generate be others fuel prompt maxTokens onToken_found st = Done (r, s) /\
    generate_post be st prompt maxTokens r s.
Proof.
  intros (HB & HM & Hcap) Hfuel. unfold generate.
  destruct (session_ready st) eqn:Hready; cbn [negb].
  2:{ eexists _, _. split; [reflexivity|].
      apply generate_post_prompt_only with (n := O); simpl; auto; lia. }
  destruct (g_is_generating st) eqn:Hgen.
  { eexists _, _. split; [reflexivity|].
    apply generate_post_prompt_only with (n := O); simpl; auto; lia. }
  assert (Hbi : g_batch_initialized st = true).
  { unfold session_ready in Hready.
    destruct (g_model st), (g_ctx st), (g_vocab st); try discriminate. assumption. }
  specialize (Hcap Hbi).
  set (id := uint64_wrap (g_generation_id st + 1)).
  set (s0 := with_globals (set_stop_generation_id 0)
               (with_globals (set_generation_id id)
                  (with_globals (set_is_generating true) (mkGenState st [] O O O)))).
  destruct onToken_found; cbn [negb].
  2:{ eexists _, _. split; [reflexivity|].
      apply generate_post_prompt_only with (n := O); simpl; auto; lia. }
  pose proof (tokenize_prompt_frame be prompt true s0) as T. cbv zeta in T.
  pose proof (evaluated_prompt_entry be st prompt maxTokens s0 eq_refl eq_refl eq_refl) as HE.
  change (clamp_max_tokens (gs_globals s0) maxTokens)
    with (clamp_max_tokens st maxTokens) in HE.
  change (g_context_size (gs_globals s0)) with (g_context_size st) in HE.
  repeat match goal with
         | |- context [tokenize_prompt be prompt true ?x] =>
           progress change x with s0
         | |- context [clamp_max_tokens ?g maxTokens] =>
           progress change (clamp_max_tokens g maxTokens)
             with (clamp_max_tokens st maxTokens)
         | |- context [uint64_wrap ?g] => progress change (uint64_wrap g) with id
         end.
  destruct (tokenize_prompt be prompt true s0) as [tokens s1]. cbn [fst snd] in T, HE.
  destruct T as (G1 & new1 & Ev1 & Q1d & Q1s & Q1c & Q1r & Hd1).
  change (gs_events s0) with (@nil event) in Ev1, Hd1. rewrite app_nil_r in Ev1.
  specialize (Hd1 (g_batch_size st) I). rewrite Ev1 in Hd1.
  destruct tokens as [|t0 tokens0].
  { eexists _, _. split; [reflexivity|].
    apply generate_post_prompt_only with (n := O); cbn [gs_events with_globals gs_globals];
      rewrite ?Ev1, ?G1, ?Q1d, ?Q1s, ?Q1c; simpl; auto; try lia. }
  set (tokens := t0 :: tokens0) in *.
  set (s2 := if llama_get_memory be then emit EvMemoryClear s1 else s1).
  assert (G2 : gs_globals s2 = gs_globals s0)
    by (unfold s2; destruct (llama_get_memory be); simpl; assumption).
  assert (Ev2 : exists new2, gs_events s2 = new2 /\ decoded new2 = [] /\ sampled new2 = []
                  /\ callbacks new2 = [] /\ split_reset new2 = None
                  /\ batch_discipline (g_batch_size st) new2).
  { unfold s2. destruct (llama_get_memory be); simpl; rewrite Ev1;
      eexists; (split; [reflexivity|]); simpl; rewrite ?Q1r, ?Q1d, ?Q1s, ?Q1c;
      repeat split; auto. }
  destruct Ev2 as (new2 & Ev2 & Q2d & Q2s & Q2c & Q2r & Hd2).
  rewrite G2. change (g_context_size (gs_globals s0)) with (g_context_size st).
  rewrite HE.
  set (toks := evaluated_prompt be st prompt maxTokens) in *.
  assert (Hf1 : (length toks < fuel)%nat /\
                (Z.to_nat (clamp_max_tokens st maxTokens) < fuel)%nat)
    by (unfold fuel_needed in Hfuel; fold toks in Hfuel; lia).
  destruct (prefill_loop_spec be others (g_batch_size st) HB toks id fuel O s2)
    as (r & s3 & new3 & n' & E3 & Ev3 & F3 & Hd3 & Q3s & Q3c & Q3r & Hn3 & Hcat3 & Hall3
        & _ & Hr3); [lia|lia|now rewrite G2|now rewrite G2|now rewrite Ev2|].
  change (Z.of_nat 0) with 0 in E3. rewrite E3. cbn [mbind outcome_bind].
  rewrite Nat.sub_0_r in Hcat3. rewrite Ev2 in Ev3. rewrite Ev3 in Hd3.
  fold (prompt_entries toks n') in Hcat3.
  assert (F3' : loop_frame (gs_globals s3) = loop_frame (set_generation_id id st))
    by (rewrite F3, G2; reflexivity).
  destruct r as [np|].
  2:{ eexists _, _. split; [reflexivity|].
      apply generate_post_prompt_only with (n := n');
        cbn [gs_events with_globals gs_globals]; fold toks; rewrite ?Ev3;
        rewrite ?sampled_app, ?callbacks_app, ?decoded_app, ?Q2d, ?Q2s, ?Q2c, ?Q3s, ?Q3c;
        simpl; auto; try lia.
      now apply split_reset_app_none. }
  pose proof (load_stop_spec others s3) as L. cbv zeta in L.
  destruct (load_stop_generation_id others s3) as [v s4]. cbn [fst snd] in L.
  destruct L as (Ev4 & _ & F4 & Hb4 & _ & _).
  rewrite Ev3 in Ev4.
  assert (Hq4 : split_reset (EvStopLoad v :: new3 ++ new2) = None).
  { simpl. now rewrite (split_reset_app_none new3 new2). }
  destruct (Z.eqb_spec v id) as [Hstop|Hgo].
  { eexists _, _. split; [reflexivity|].
    apply generate_post_prompt_only with (n := n');
      cbn [gs_events with_globals gs_globals]; fold toks; rewrite ?Ev4; auto;
      cbn [sampled callbacks decoded];
      rewrite ?sampled_app, ?callbacks_app, ?decoded_app, ?Q2d, ?Q2s, ?Q2c, ?Q3s, ?Q3c;
      simpl; auto; try lia.
    change (loop_frame (gs_globals s4) = loop_frame (set_generation_id id st)).
    now rewrite F4. }
  assert (Hfull : ~ In (EvStopLoad id) (EvStopLoad v :: new3 ++ new2) -> n' = length toks).
  { intros Hno. destruct Hr3 as [H|H]; [discriminate|exact H|].
    exfalso. apply Hno. right. apply in_or_app. left. exact H. }
  set (s5 := emit EvSamplerReset s4).
  assert (Hd5 : batch_discipline (g_batch_size st) (gs_events s5)).
  { unfold s5. simpl. rewrite Ev4. simpl. auto. }
  destruct (decode_loop_spec be others (g_batch_size st) HB (clamp_max_tokens st maxTokens)
              id fuel (Z.of_nat (length toks)) 0 [] s5)
    as (resp & ng & s6 & new6 & E6 & Ev6 & F6 & Hd6 & Q6r & Q6s & Q6c & Q6d & Q6g & _);
    [rewrite Z.sub_0_r; lia| |exact Hd5|].
  { unfold s5. simpl. unfold loop_frame in F4, F3'. simpl in F3'. congruence. }
  rewrite E6. cbn [mbind outcome_bind].
  eexists _, _. split; [reflexivity|].
  assert (Ev6' : gs_events s6 = new6 ++ EvSamplerReset :: EvStopLoad v :: new3 ++ new2).
  { rewrite Ev6. unfold s5. simpl. now rewrite Ev4. }
  assert (Hsplit : split_reset (gs_events s6)
                   = Some (new6, EvStopLoad v :: new3 ++ new2))
    by (rewrite Ev6'; now apply split_reset_app_reset).
  unfold generate_post, prompt_phase, token_phase.
  cbn [gs_events with_globals gs_globals]. rewrite Hsplit. fold toks.
  split; [exact Hd6|].
  rewrite Ev6', ?sampled_app, ?callbacks_app. cbn [sampled callbacks decoded].
  rewrite ?sampled_app, ?callbacks_app, ?decoded_app, Q2d, Q2s, Q2c, Q3s, Q3c.
  cbn [app length]. rewrite Z.sub_0_r in Q6s.
  split; [lia|]. split; [lia|]. split; [reflexivity|].
  split; [exists n'; split; [lia|]; split; [assumption|intros _; exact Hfull]|].
  split; [assumption|]. split; [assumption|]. split; [lia|].
  change (loop_frame (gs_globals s6) = loop_frame (set_generation_id id st)).
  rewrite F6. unfold s5. cbn [emit gs_globals]. now rewrite F4.
Qed.

(** ** Token budget *)

Lemma clamp_max_tokens_range st maxTokens :
  1 <= g_max_gen_tokens st ->
  1 <= clamp_max_tokens st maxTokens <= g_max_gen_tokens st.
Proof.
  intros H. unfold clamp_max_tokens.
  destruct (Z.ltb_spec (g_max_gen_tokens st) maxTokens);
    match goal with |- context [?a <? 1] => destruct (Z.ltb_spec a 1) end; lia.
Qed.

Lemma clamp_max_tokens_max_min st maxTokens :
  1 <= g_max_gen_tokens st ->
  clamp_max_tokens st maxTokens = Z.max 1 (Z.min maxTokens (g_max_gen_tokens st)).
Proof.
  intros H. unfold clamp_max_tokens.
  destruct (Z.ltb_spec (g_max_gen_tokens st) maxTokens);
    match goal with |- context [?a <? 1] => destruct (Z.ltb_spec a 1) end; lia.
Qed.

(** C5: in every generate call the requested [maxTokens] is clamped into
    [1, g_max_gen_tokens] before use: the value used is
    [max 1 (min maxTokens g_max_gen_tokens)], so a request inside the range
    is kept, one below 1 becomes 1 and one above the cap becomes the cap
    (1000 on a plan capped at 256 gives 256); and the call samples, streams
    and decodes no more tokens than the clamped value. *)
Theorem generate_respects_token_cap be others fuel prompt maxTokens onToken_found st :
  configured st ->
  (fuel_needed be st prompt maxTokens <= fuel)%nat ->
  clamp_max_tokens st maxTokens = Z.max 1 (Z.min maxTokens (g_max_gen_tokens st)) /\
  (1 <= maxTokens <= g_max_gen_tokens st -> clamp_max_tokens st maxTokens = maxTokens) /\
  (maxTokens < 1 -> clamp_max_tokens st maxTokens = 1) /\
  1 <= clamp_max_tokens st maxTokens <= g_max_gen_tokens st /\
  (g_max_gen_tokens st <= maxTokens -> clamp_max_tokens st maxTokens = g_max_gen_tokens st) /\
  exists r s,
    generate be others fuel prompt maxTokens onToken_found st = Done (r, s) /\
    Z.of_nat (length (sampled (gs_events s))) <= clamp_max_tokens st maxTokens /\
    Z.of_nat (length (callbacks (gs_events s))) <= clamp_max_tokens st maxTokens /\
    Z.of_nat (length (decoded (token_phase (gs_events s)))) <= clamp_max_tokens st maxTokens /\
    Z.of_nat (length (sampled (gs_events s))) <= g_max_gen_tokens st.
Proof.
  intros C Hfuel. pose proof C as (_ & HM & _).
  pose proof (clamp_max_tokens_range st maxTokens HM) as R.
  pose proof (clamp_max_tokens_max_min st maxTokens HM) as M.
  split; [exact M|].
  split; [intros H; rewrite M; lia|].
  split; [intros H; rewrite M; lia|].
  split; [exact R|].
  split; [intros H; rewrite M; lia|].
  destruct (generate_returns be others fuel prompt maxTokens onToken_found st C Hfuel)
    as (r & s & E & P).
  exists r, s. split; [exact E|].
  destruct P as (_ & Hs & Hc & _ & _ & _ & _ & Hdec & _). lia.
Qed.

Lemma generate_respects_token_cap_witness :
  configured loaded_phone /\
  (fuel_needed toy_backend loaded_phone "Hello" 1000 <= 300)%nat /\
  clamp_max_tokens loaded_phone 1000 = 256 /\
  exists r s,
    generate toy_backend nobody 300 "Hello" 1000 true loaded_phone = Done (r, s) /\
    Z.of_nat (length (sampled (gs_events s))) <= 256.
Proof.
  assert (C : configured loaded_phone).
  { split; [vm_compute; discriminate|].
    split; [vm_compute; discriminate|]. intros _. vm_compute. reflexivity. }
  assert (F : (fuel_needed toy_backend loaded_phone "Hello" 1000 <= 300)%nat).
  { vm_compute. repeat constructor. }
  split; [exact C|]. split; [exact F|].
  destruct (generate_respects_token_cap toy_backend nobody 300 "Hello" 1000 true
              loaded_phone C F) as (M & _ & _ & _ & _ & r & s & E & _ & _ & _ & H).
  split; [exact M|].
  exists r, s. split; [exact E|exact H].
Defined.

(** Requests of 5, 0 and -7 tokens on the plan capped at 256: the first is
    kept, the others become 1. *)
Example clamp_keeps_a_request_in_range :
  clamp_max_tokens loaded_phone 5 = 5 /\
  clamp_max_tokens loaded_phone 0 = 1 /\
  clamp_max_tokens loaded_phone (-7) = 1 /\
  clamp_max_tokens loaded_phone 256 = 256 /\
  clamp_max_tokens loaded_phone 257 = 256.
Proof. vm_compute. repeat split. Qed.

(** ** Prompt truncation *)

Lemma int_wrap_id z : in_int z -> int_wrap z = z.
Proof.
  unfold in_int, int_wrap, INT_MIN, INT_MAX. intros H.
  rewrite Z.mod_small by lia. lia.
Qed.

Lemma int_wrap_range z : in_int (int_wrap z).
Proof.
  unfold in_int, int_wrap, INT_MIN, INT_MAX.
  pose proof (Z.mod_pos_bound (z + 2 ^ 31) (2 ^ 32) ltac:(lia)). lia.
Qed.

Lemma truncate_prompt_trailing context_size maxTokens (tokens : list llama_token) :
  let bound := context_size - maxTokens - 16 in
  in_int bound ->
  (bound < Z.of_nat (length tokens) ->
   truncate_prompt context_size maxTokens tokens = trailing (Z.to_nat bound) tokens) /\
  (Z.of_nat (length tokens) <= bound ->
   truncate_prompt context_size maxTokens tokens = tokens).
Proof.
  cbv zeta. intros R. unfold truncate_prompt, trailing.
  rewrite (int_wrap_id _ R).
  set (bound := context_size - maxTokens - 16).
  split; intros H.
  - destruct (Z.ltb_spec (Z.max 0 bound) (Z.of_nat (length tokens))) as [Hlt|Hge].
    + f_equal. lia.
    + assert (length tokens = O) by lia.
      destruct tokens; [reflexivity|discriminate].
  - destruct (Z.ltb_spec (Z.max 0 bound) (Z.of_nat (length tokens))); [lia|reflexivity].
Qed.

Lemma truncate_prompt_nil context_size maxTokens : truncate_prompt context_size maxTokens [] = [].
Proof.
  unfold truncate_prompt.
  destruct (Z.max 0 (int_wrap (context_size - maxTokens - 16)) <? Z.of_nat (length (@nil llama_token)));
    [apply drop_nil|reflexivity].
Qed.

Lemma prompt_entries_tokens (toks : list llama_token) n :
  (n <= length toks)%nat -> map s_token (prompt_entries toks n) = take n toks.
Proof.
  intros Hn. unfold prompt_entries. rewrite map_map. simpl.
  apply list_eq. intros i.
  destruct (Nat.lt_ge_cases i n) as [Hi|Hi].
  - rewrite lookup_take_lt by assumption.
    rewrite list_lookup_fmap, lookup_seq_lt by assumption. simpl.
    destruct (lookup_lt_is_Some_2 toks i) as [x Hx]; [lia|].
    rewrite Hx. f_equal. exact (nth_lookup_Some _ _ _ _ Hx).
  - rewrite lookup_take_ge by assumption.
    rewrite list_lookup_fmap, lookup_seq_ge by assumption. reflexivity.
Qed.

Lemma prompt_entries_positions (toks : list llama_token) n :
  map s_pos (prompt_entries toks n) = map Z.of_nat (seq O n).
Proof. unfold prompt_entries. now rewrite map_map. Qed.

Lemma prompt_entries_logits (toks : list llama_token) n e :
  In e (prompt_entries toks n) ->
  s_logits e = (s_pos e =? Z.of_nat (length toks) - 1).
Proof.
  unfold prompt_entries. rewrite in_map_iff. intros (pos & <- & _). reflexivity.
Qed.


(** Twelve prompt tokens against a budget of 20 - 2 - 16 = 2: the last two
    are evaluated. *)
Example truncation_keeps_last_two :
  evaluated_prompt toy_backend (set_context_size 20 loaded_phone) "Hello world" 2
  = [108; 100].
Proof. vm_compute. reflexivity. Qed.

(** A budget below zero leaves nothing of the prompt. *)
Example truncation_with_negative_budget :
  evaluated_prompt toy_backend (set_context_size 10 loaded_phone) "Hello world" 2 = [].
Proof. vm_compute. reflexivity. Qed.

(** ** Prompt evaluation in chunks *)

(** ** Batch writes stay in bounds *)

Lemma batch_discipline_index B evs idx e :
  batch_discipline B evs -> In (EvBatchAdd idx e) evs -> 0 <= idx < B.
Proof.
  induction evs as [|x evs IH]; simpl; [intros _ []|].
  intros [Hd Hx] [->|Hin]; [|now apply IH].
  destruct Hx as (l & _ & -> & Hlt). lia.
Qed.

(** C9: with the batch allocated at [g_batch_size] slots, a generate call
    never writes outside it: the call returns (no out-of-range access), every
    [batch_add] writes at the index that counts the entries since the last
    [batch_clear], that index is below [g_batch_size], a prompt chunk has at
    most [g_batch_size] entries, a token-loop batch has exactly one, and the
    allocation itself is left as it was. *)
Theorem batch_add_within_capacity be others fuel prompt maxTokens onToken_found st :
  configured st ->
  (fuel_needed be st prompt maxTokens <= fuel)%nat ->
  exists r s,
    generate be others fuel prompt maxTokens onToken_found st = Done (r, s) /\
    batch_discipline (g_batch_size st) (gs_events s) /\
    (forall idx e, In (EvBatchAdd idx e) (gs_events s) -> 0 <= idx < g_batch_size st) /\
    Forall (fun v => Z.of_nat (length v) <= g_batch_size st)
           (decoded (prompt_phase (gs_events s))) /\
    Forall is_single (decoded (token_phase (gs_events s))) /\
    batch_capacity (g_batch (gs_globals s)) = batch_capacity (g_batch st) /\
    g_batch_size (gs_globals s) = g_batch_size st.
Proof.
  intros C Hfuel.
  destruct (generate_returns be others fuel prompt maxTokens onToken_found st C Hfuel)
    as (r & s & E & P).
  exists r, s. split; [exact E|].
  destruct P as (Hd & _ & _ & _ & _ & Hall & Hsingle & _ & Hframe).
  split; [exact Hd|].
  split; [intros idx e; now apply batch_discipline_index|].
  split; [eapply Forall_impl; [exact Hall|]; simpl; intros v [_ H]; exact H|].
  split; [exact Hsingle|].
  unfold loop_frame in Hframe. destruct r; simpl in Hframe; split; congruence.
Qed.

Lemma batch_add_within_capacity_witness :
  configured loaded_phone /\
  (fuel_needed toy_backend loaded_phone "Hello" 1000 <= 300)%nat /\
  exists r s,
    generate toy_backend nobody 300 "Hello" 1000 true loaded_phone = Done (r, s) /\
    (forall idx e, In (EvBatchAdd idx e) (gs_events s) -> 0 <= idx < 128).
Proof.
  assert (C : configured loaded_phone).
  { split; [vm_compute; discriminate|].
    split; [vm_compute; discriminate|]. intros _. vm_compute. reflexivity. }
  assert (F : (fuel_needed toy_backend loaded_phone "Hello" 1000 <= 300)%nat).
  { vm_compute. repeat constructor. }
  split; [exact C|]. split; [exact F|].
  destruct (batch_add_within_capacity toy_backend nobody 300 "Hello" 1000 true
              loaded_phone C F) as (r & s & E & _ & H & _).
  exists r, s. split; [exact E|exact H].
Defined.

Lemma toy_backend_contract : piece_contract toy_backend toy_piece.
Proof. intros tok len. reflexivity. Qed.

Lemma one_resize_one_retry_witness :
  piece_contract toy_backend toy_piece /\
  Z.of_nat (length (toy_piece 200)) < INT_MAX /\
  (let '(token_str, n, s1) :=
     token_to_str toy_backend 200 (mkGenState loaded_phone [] O O O) in
   let (response', s2) := deliver_token token_str n [] s1 in
   response' = [] ++ toy_piece 200 /\
   callbacks (gs_events s2) =
   callbacks [] ++ (if decide (toy_piece 200 = []) then [] else [c_str (toy_piece 200)]) /\
   (~ In NUL (toy_piece 200) -> c_str (toy_piece 200) = toy_piece 200)).
Proof.
  assert (L : Z.of_nat (length (toy_piece 200)) < INT_MAX) by (vm_compute; reflexivity).
  split; [exact toy_backend_contract|]. split; [exact L|].
  exact (proj2 (proj2 (one_resize_one_retry toy_backend "Hello" true 200 []
                         (mkGenState loaded_phone [] O O O)))
           toy_piece toy_backend_contract L).
Defined.

(** The piece of token 200 is 200 bytes long: the first conversion call is
    answered with -200 and the second, at that size, delivers all of it. *)
Example long_piece_is_delivered_whole :
  let '(token_str, n, s1) :=
    token_to_str toy_backend 200 (mkGenState loaded_phone [] O O O) in
  deliver_token token_str n [] s1
  = (toy_piece 200,
     mkGenState loaded_phone
       [EvCallback (toy_piece 200); EvTokenToPiece 200 200 200;
        EvTokenToPiece 200 127 (-200)] O O O).
Proof. vm_compute. reflexivity. Qed.

(** A library that answers every call with a negative value is called twice
    by each helper and no more: the tokenization ends with no tokens, the
    token gets no fragment. *)
Example stubborn_library_is_asked_twice :
  tokenize_prompt stubborn_backend "Hello" true (mkGenState loaded_phone [] O O O)
  = ([], mkGenState loaded_phone [EvTokenize 40 (-40); EvTokenize 37 (-40)] O O O) /\
  (let '(token_str, n, s1) :=
     token_to_str stubborn_backend 7 (mkGenState loaded_phone [] O O O) in
   gs_events s1 = [EvTokenToPiece 7 300 (-300); EvTokenToPiece 7 127 (-300)] /\
   deliver_token token_str n [] s1 = ([], s1)).
Proof. vm_compute. repeat split. Qed.

(** The library of [nul_backend] answers as promised and the piece of a token
    is three bytes with a NUL in the middle: the response receives all
    three, the callback receives the first one only, although the buffer of
    128 bytes was never too small. *)
Lemma callback_fragment_is_cut_at_nul :
  piece_contract nul_backend nul_piece /\
  (let '(token_str, n, s1) :=
     token_to_str nul_backend 7 (mkGenState loaded_phone [] O O O) in
   let (response', s2) := deliver_token token_str n [] s1 in
   gs_events s1 = [EvTokenToPiece 7 127 3] /\
   response' = nul_piece 7 /\
   callbacks (gs_events s2) = [["a"%char]] /\
   callbacks (gs_events s2) <> [nul_piece 7]).
Proof.
  split; [intros tok len; reflexivity|].
  vm_compute. repeat split. discriminate.
Qed.

(** ** Cancellation seen from inside a call *)

(** A stop request for generation 1 landing before the third load of the
    stop counter (the first check of the token loop) ends the call before any
    token is sampled. *)
Example stop_before_first_token :
  exists s,
    generate toy_backend (fun k => if Nat.eqb k 2 then Some 1 else None)
             300 "Hi" 5 true loaded_phone
    = Done (Response [], s) /\
    sampled (gs_events s) = [] /\ g_is_generating (gs_globals s) = false /\
    g_stop_generation_id (gs_globals s) = g_generation_id (gs_globals s).
Proof. eexists. split; [vm_compute; reflexivity|]. repeat split; reflexivity. Qed.

(** ** Threads and whole calls

    Run without interruption, the steps of a [stopGeneration] or
    [unloadModel] thread add up to the whole call. *)

Lemma stop_thread_is_stopGeneration c i :
  c_threads c !! i = Some (TStop StopLoad) ->
  exec [i; i] c
  = Some (mkConfig (stopGeneration (c_globals c)) (c_heap c)
                   (<[i := TStop StopRet]> (c_threads c))).
Proof.
  intros Hi. simpl. unfold step at 1. rewrite Hi. simpl.
  unfold step. simpl.
  rewrite list_lookup_insert_eq by (eapply lookup_lt_Some; eassumption). simpl.
  now rewrite list_insert_insert_eq.
Qed.

Lemma unload_thread_is_unloadModel c i :
  c_threads c !! i = Some (TUnload UnloadLoad) ->
  exec [i; i; i] c
  = Some (mkConfig (fst (unloadModel (c_globals c, c_heap c)))
                   (snd (unloadModel (c_globals c, c_heap c)))
                   (<[i := TUnload UnloadRet]> (c_threads c))).
Proof.
  intros Hi. simpl. unfold step at 1. rewrite Hi. simpl.
  unfold step at 1. simpl.
  rewrite list_lookup_insert_eq by (eapply lookup_lt_Some; eassumption). simpl.
  unfold step. simpl.
  rewrite list_lookup_insert_eq
    by (rewrite length_insert; eapply lookup_lt_Some; eassumption).
  simpl. rewrite !list_insert_insert_eq.
  destruct (g_batch_initialized (c_globals c)); reflexivity.
Qed.

(** ** Concurrent calls: one generation at a time *)

Lemma generating_count_insert ts i t t' :
  ts !! i = Some t ->
  (generating_count (<[i := t']> ts) + (if generating t then 1 else 0)
   = generating_count ts + (if generating t' then 1 else 0))%nat.
Proof.
  unfold generating_count. revert i.
  induction ts as [|x ts IH]; intros i Hi; [discriminate|].
  destruct i as [|i]; simpl in *.
  - inversion Hi; subst. destruct (generating t), (generating t'); simpl; lia.
  - specialize (IH i Hi). destruct (generating x); simpl; lia.
Qed.

Lemma generating_count_pos ts i t :
  ts !! i = Some t -> generating t = true -> (1 <= generating_count ts)%nat.
Proof.
  unfold generating_count. revert i.
  induction ts as [|x ts IH]; intros i Hi Hg; [discriminate|].
  destruct i as [|i]; simpl in *.
  - inversion Hi; subst. rewrite Hg. simpl. lia.
  - specialize (IH i Hi Hg). destruct (generating x); simpl; lia.
Qed.

Lemma generating_count_two ts i k ti tk :
  ts !! i = Some ti -> ts !! k = Some tk -> i <> k ->
  generating ti = true -> generating tk = true ->
  (2 <= generating_count ts)%nat.
Proof.
  unfold generating_count. revert i k.
  induction ts as [|x ts IH]; intros i k Hi Hk Hne Gi Gk; [discriminate|].
  destruct i as [|i], k as [|k]; simpl in *; try congruence.
  - inversion Hi; subst. rewrite Gi. simpl.
    pose proof (generating_count_pos ts k tk Hk Gk) as H.
    unfold generating_count in H. lia.
  - inversion Hk; subst. rewrite Gk. simpl.
    pose proof (generating_count_pos ts i ti Hi Gi) as H.
    unfold generating_count in H. lia.
  - assert (i <> k) by congruence.
    specialize (IH i k Hi Hk H Gi Gk). destruct (generating x); simpl; lia.
Qed.

Lemma generating_count_none ts :
  Forall (fun t => generating t = false) ts -> generating_count ts = O.
Proof.
  unfold generating_count. induction 1 as [|x ts Hx _ IH]; simpl; [reflexivity|].
  now rewrite Hx.
Qed.

Lemma unload_teardown_flag w :
  g_is_generating (fst (unload_teardown w)) = g_is_generating (fst w) /\
  g_generation_id (fst (unload_teardown w)) = g_generation_id (fst w) /\
  g_stop_generation_id (fst (unload_teardown w)) = g_stop_generation_id (fst w).
Proof.
  destruct w as [st hp]. unfold unload_teardown.
  destruct st as [m c sm v gen gid sid b bi bs cs nt mg]. destruct bi; simpl; auto.
Qed.

Lemma set_is_generating_same st :
  g_is_generating st = true -> set_is_generating true st = st.
Proof. destruct st; simpl; intros ->; reflexivity. Qed.

(** What one step of a generate call does to the flag, by program counter. *)
Lemma step_generate_flag j pc l st pc' l' st' :
  step_generate j pc l st = Some (pc', l', st') ->
  (pc = L370 /\ g_is_generating st = false /\ pc' = L374 /\ g_is_generating st' = true) \/
  (pc = L370 /\ g_is_generating st = true /\ pc' = LRet RetAlreadyGenerating /\ st' = st) \/
  ((exists r, pc = LExit r /\ pc' = LRet r) /\ g_is_generating st' = false) \/
  (generating (TGenerate j pc l) = generating (TGenerate j pc' l') /\
   g_is_generating st' = g_is_generating st).
Proof.
  destruct pc; unfold step_generate; intros H;
    repeat match type of H with
           | context [if ?c then _ else _] => destruct c eqn:?
           | context [match ?c with Some _ => _ | None => _ end] => destruct c eqn:?
           end;
    inversion H; subst; clear H;
    try (right; right; right; split; reflexivity).
  - left. auto.
  - right. right. left. eauto.
Qed.

Lemma step_inv i c c' :
  step i c = Some c' ->
  exists t t' st' hp',
    c_threads c !! i = Some t /\
    step_thread t (c_globals c, c_heap c) = Some (t', (st', hp')) /\
    c' = mkConfig st' hp' (<[i := t']> (c_threads c)).
Proof.
  unfold step. destruct (c_threads c !! i) as [t|]; [|discriminate].
  destruct (step_thread t (c_globals c, c_heap c)) as [[t' [st' hp']]|] eqn:E;
    [|discriminate].
  intros H. inversion H. exists t, t', st', hp'. auto.
Qed.

Lemma step_thread_flag t w t' w' :
  step_thread t w = Some (t', w') ->
  (generating t = false /\ generating t' = true /\
   g_is_generating (fst w) = false /\ g_is_generating (fst w') = true) \/
  (generating t = true /\ generating t' = false /\ g_is_generating (fst w') = false) \/
  (generating t = generating t' /\ g_is_generating (fst w') = g_is_generating (fst w)).
Proof.
  destruct w as [st hp]. destruct t as [j pc l|pc|pc]; simpl.
  - destruct (step_generate j pc l st) as [[[pc' l'] st']|] eqn:E; [|discriminate].
    intros H. inversion H; subst; clear H. simpl.
    destruct (step_generate_flag _ _ _ _ _ _ _ E)
      as [(-> & Hf & -> & Hf')|[(-> & Hf & -> & ->)|[((r & -> & ->) & Hf')|[Hg Hf']]]];
      simpl; auto.
  - destruct pc; intros H; inversion H; subst; simpl; auto.
  - destruct pc; intros H; inversion H; subst; simpl; auto.
    right. right. split; [reflexivity|].
    destruct (g_batch_initialized st); reflexivity.
Qed.

Lemma step_preserves_flag_tracking c i c' :
  flag_tracks_generation c -> step i c = Some c' -> flag_tracks_generation c'.
Proof.
  unfold flag_tracks_generation. intros Inv Hstep.
  destruct (step_inv _ _ _ Hstep) as (t & t' & st' & hp' & Hi & Hs & ->). simpl.
  pose proof (generating_count_insert _ _ _ t' Hi) as Hc.
  destruct (step_thread_flag _ _ _ _ Hs)
    as [(G & G' & F & F')|[(G & G' & F')|(G & F')]]; simpl in *.
  - rewrite G, G' in Hc. rewrite F in Inv. rewrite F'. lia.
  - rewrite G, G' in Hc. rewrite F'. destruct (g_is_generating (c_globals c)); lia.
  - rewrite G in Hc. rewrite F'. lia.
Qed.

Lemma reachable_flag_tracking c0 c :
  initial c0 -> reachable c0 c -> flag_tracks_generation c.
Proof.
  intros [Hf Hall]. induction 1 as [|c i c' _ IH Hstep].
  - unfold flag_tracks_generation. rewrite Hf. now apply generating_count_none.
  - eapply step_preserves_flag_tracking; eassumption.
Qed.

(** C1, as stated, fails while an unload is in flight: the first call is
    still generating, the session handles are already cleared, and the second
    call is turned away by the loaded check, not by the exchange. *)
Lemma second_call_meets_unloaded_session :
  exists c t0 l2,
    exec [0; 0; 0; 0; 0; 0; 1; 1; 1; 2]%nat generate_unload_generate = Some c /\
    c_threads c !! 0%nat = Some t0 /\ generating t0 = true /\
    g_is_generating (c_globals c) = true /\
    c_threads c !! 2%nat = Some (TGenerate short_job (LRet RetModelNotLoaded) l2) /\
    RetModelNotLoaded <> RetAlreadyGenerating.
Proof.
  eexists _, _, _. split; [vm_compute; reflexivity|].
  split; [reflexivity|]. split; [reflexivity|]. split; [reflexivity|].
  split; [reflexivity|discriminate].
Qed.

Lemma generating_count_witness ts :
  (1 <= generating_count ts)%nat ->
  exists i t, ts !! i = Some t /\ generating t = true.
Proof.
  unfold generating_count. induction ts as [|x ts IH]; simpl; [lia|].
  destruct (generating x) eqn:G.
  - intros _. exists O, x. auto.
  - intros H. destruct (IH H) as (i & t & Hi & Ht). exists (S i), t. auto.
Qed.

Lemma exec_reachable schedule c0 c :
  exec schedule c0 = Some c -> reachable c0 c.
Proof.
  assert (G : forall c1, reachable c0 c1 -> exec schedule c1 = Some c -> reachable c0 c).
  { induction schedule as [|i rest IH]; simpl; intros c1 R H.
    - inversion H; subst. exact R.
    - destruct (step i c1) as [c2|] eqn:E; [|discriminate].
      apply (IH c2); [|exact H]. eapply reachable_step; eassumption. }
  apply G. constructor.
Qed.

(** C1 (amended): in every reachable state at most one generate call is in
    the generating state, and the flag is set exactly while one is; a further
    call that arrives at the exchange while the flag is set returns the
    already-generating error in that very step, and a call at the loaded
    check moves on to the exchange or, when the session is not loaded,
    returns the not-loaded error; neither step changes the globals, the heap
    or any other thread. Seen as one whole call on a state whose flag is set,
    [generate] returns one of these two errors and leaves the globals as they
    were. *)
Theorem at_most_one_generation c0 c :
  initial c0 -> reachable c0 c ->
  (forall i k ti tk,
     c_threads c !! i = Some ti -> c_threads c !! k = Some tk ->
     generating ti = true -> generating tk = true -> i = k) /\
  (g_is_generating (c_globals c) = true <->
   exists i ti, c_threads c !! i = Some ti /\ generating ti = true) /\
  (forall k j l,
     g_is_generating (c_globals c) = true ->
     c_threads c !! k = Some (TGenerate j L370 l) ->
     step k c = Some (mkConfig (c_globals c) (c_heap c)
                        (<[k := TGenerate j (LRet RetAlreadyGenerating) l]> (c_threads c)))) /\
  (forall k j l,
     c_threads c !! k = Some (TGenerate j L366 l) ->
     step k c = Some (mkConfig (c_globals c) (c_heap c)
                        (<[k := TGenerate j (if session_ready (c_globals c) then L370
                                             else LRet RetModelNotLoaded) l]>
                           (c_threads c)))) /\
  (forall be others fuel prompt maxTokens onToken_found,
     g_is_generating (c_globals c) = true ->
     generate be others fuel prompt maxTokens onToken_found (c_globals c)
     = Done (if session_ready (c_globals c) then ErrAlreadyGenerating
             else ErrModelNotLoaded,
             mkGenState (c_globals c) [] O O O)).
Proof.
  intros Hinit Hreach.
  pose proof (reachable_flag_tracking c0 c Hinit Hreach) as Inv.
  unfold flag_tracks_generation in Inv.
  split.
  { intros i k ti tk Hi Hk Gi Gk.
    destruct (Nat.eq_dec i k) as [|Hne]; [assumption|].
    pose proof (generating_count_two _ _ _ _ _ Hi Hk Hne Gi Gk).
    destruct (g_is_generating (c_globals c)); lia. }
  split.
  { split.
    - intros Hf. rewrite Hf in Inv. apply generating_count_witness. lia.
    - intros (i & ti & Hi & Gi).
      pose proof (generating_count_pos _ _ _ Hi Gi).
      destruct (g_is_generating (c_globals c)); [reflexivity|lia]. }
  split.
  { intros k j l Hf Hk. unfold step. rewrite Hk. simpl. rewrite Hf.
    now rewrite set_is_generating_same. }
  split.
  { intros k j l Hk. unfold step. rewrite Hk. simpl.
    destruct (session_ready (c_globals c)); reflexivity. }
  intros be others fuel prompt maxTokens onToken_found Hf.
  unfold generate. rewrite Hf.
  destruct (session_ready (c_globals c)); reflexivity.
Qed.

Lemma at_most_one_generation_witness :
  initial generate_unload_generate /\
  exists c,
    exec [0; 0; 0; 2; 2]%nat generate_unload_generate = Some c /\
    g_is_generating (c_globals c) = true /\
    c_threads c !! 2%nat =
    Some (TGenerate short_job (LRet RetAlreadyGenerating) fresh_locals) /\
    (forall i k ti tk,
       c_threads c !! i = Some ti -> c_threads c !! k = Some tk ->
       generating ti = true -> generating tk = true -> i = k).
Proof.
  assert (I0 : initial generate_unload_generate).
  { split; [reflexivity|]. repeat constructor. }
  split; [exact I0|].
  destruct (exec [0; 0; 0; 2; 2]%nat generate_unload_generate) as [c|] eqn:E;
    [|vm_compute in E; discriminate].
  exists c. split; [reflexivity|].
  pose proof (at_most_one_generation generate_unload_generate c I0 (exec_reachable _ _ _ E))
    as (M & _).
  vm_compute in E. inversion E; subst; clear E.
  split; [reflexivity|]. split; [reflexivity|]. exact M.
Defined.

(** ** Concurrent calls: cancellation *)

(** A stop request that arrives once the call has stored the sentinel is seen
    at the next check of the prompt loop: the call returns the empty result
    without evaluating the prompt. *)
Example stop_after_entry_is_observed :
  exists c l,
    exec ([0; 0; 0; 0] ++ [1; 1] ++ [0; 0; 0; 0])%nat generate_and_stop = Some c /\
    c_threads c = [TGenerate short_job (LRet RetEmpty) l; TStop StopRet] /\
    local_id l = 1 /\ g_stop_generation_id (c_globals c) = 1 /\
    g_is_generating (c_globals c) = false.
Proof. eexists _, _. split; [vm_compute; reflexivity|]. repeat split; reflexivity. Qed.

(** C2 fails on this schedule. The generate call has passed the exchange and
    minted generation 1 (lines 370-374); [stopGeneration] then runs to
    completion and leaves [g_stop_generation_id = g_generation_id = 1] with
    the generating flag set; line 375 overwrites the request with the
    sentinel 0, and the call runs every iteration of both loops and returns
    all three tokens it was asked for. *)
Theorem stop_between_mint_and_clear_is_lost :
  exists c1 c2 l1 l2,
    exec [0; 0; 0; 1; 1]%nat generate_and_stop = Some c1 /\
    c_threads c1 = [TGenerate short_job L375 l1; TStop StopRet] /\
    local_id l1 = 1 /\
    g_is_generating (c_globals c1) = true /\
    g_generation_id (c_globals c1) = 1 /\
    g_stop_generation_id (c_globals c1) = 1 /\
    exec (replicate 14 0%nat) c1 = Some c2 /\
    c_threads c2 = [TGenerate short_job (LRet (RetResponse 3)) l2; TStop StopRet] /\
    n_processed l2 = n_prompt l2 /\ n_generated l2 = l_maxTokens l2 /\
    g_stop_generation_id (c_globals c2) = 0.
Proof.
  eexists _, _, _, _. split; [vm_compute; reflexivity|].
  split; [reflexivity|]. split; [reflexivity|]. split; [reflexivity|].
  split; [reflexivity|]. split; [reflexivity|].
  split; [vm_compute; reflexivity|]. repeat split; reflexivity.
Qed.

Lemma step_generate_in_loops j pc l st pc' l' st' :
  in_loops pc = true ->
  step_generate j pc l st = Some (pc', l', st') ->
  st' = st /\ local_id l' = local_id l /\
  (in_loops pc' = true \/ exists r, pc' = LExit r).
Proof.
  destruct pc; try discriminate; intros _; unfold step_generate; intros H;
    repeat match type of H with
           | context [if ?c then _ else _] => destruct c eqn:?
           | context [match ?c with Some _ => _ | None => _ end] => destruct c eqn:?
           end;
    inversion H; subst; clear H; simpl; eauto.
Qed.

(** Once recorded after the entry, a stop request stays recorded until the
    call leaves, whatever the other threads do. *)
Lemma cancellation_is_durable g id c i c' :
  flag_tracks_generation c ->
  cancelled_for g id c ->
  step i c = Some c' ->
  cancelled_for g id c' \/
  exists j r l, c_threads c' !! g = Some (TGenerate j (LExit r) l).
Proof.
  intros Inv ((j & pc & l & Hg & Hpc & Hid) & Hgen & Hstop & Hns) Hstep.
  destruct (step_inv _ _ _ Hstep) as (t & t' & st' & hp' & Hi & Hs & ->).
  assert (Gg : generating (TGenerate j pc l) = true) by (destruct pc; try discriminate; reflexivity).
  destruct (Nat.eq_dec i g) as [->|Hne].
  - rewrite Hg in Hi. inversion Hi; subst t; clear Hi. simpl in Hs.
    destruct (step_generate j pc l (c_globals c)) as [[[pc' l'] st1]|] eqn:E; [|discriminate].
    inversion Hs; subst; clear Hs.
    destruct (step_generate_in_loops _ _ _ _ _ _ _ Hpc E) as (-> & Hl & [Hin|(r & ->)]).
    + left. split; [|split; [assumption|split; [assumption|]]].
      * exists j, pc', l'. simpl. rewrite list_lookup_insert_eq by (eapply lookup_lt_Some; eassumption).
        auto.
      * simpl. apply Forall_insert; [assumption|exact I].
    + right. exists j, r, l'. simpl.
      now rewrite list_lookup_insert_eq by (eapply lookup_lt_Some; eassumption).
  - left.
    assert (Hflag : g_is_generating (c_globals c) = true).
    { pose proof (generating_count_pos _ _ _ Hg Gg) as H1.
      unfold flag_tracks_generation in Inv.
      destruct (g_is_generating (c_globals c)); [reflexivity|lia]. }
    assert (Hnot : generating t = false).
    { destruct (generating t) eqn:Gt; [|reflexivity].
      pose proof (generating_count_two _ _ _ _ _ Hi Hg Hne Gt Gg) as H2.
      unfold flag_tracks_generation in Inv. rewrite Hflag in Inv. lia. }
    assert (Hnst : no_stale_store id t).
    { rewrite Forall_forall in Hns. apply Hns. eapply list_elem_of_lookup_2. eassumption. }
    assert (Hkeep : g_generation_id st' = id /\ g_stop_generation_id st' = id /\
                    no_stale_store id t').
    { destruct t as [j2 pc2 l2|pc2|pc2]; simpl in Hs.
      - destruct pc2; try discriminate; simpl in Hs.
        + destruct (session_ready (c_globals c)); inversion Hs; subst; simpl; auto.
        + rewrite Hflag in Hs. inversion Hs; subst. simpl. auto.
      - destruct pc2; inversion Hs; subst; simpl in *; auto.
      - destruct pc2; inversion Hs; subst; simpl in *; auto.
        destruct (g_batch_initialized (c_globals c)); simpl; auto. }
    destruct Hkeep as (K1 & K2 & K3).
    split; [|split; [assumption|split; [assumption|]]].
    + exists j, pc, l. simpl. rewrite list_lookup_insert_ne by assumption. auto.
    + simpl. apply Forall_insert; assumption.
Qed.

(** A cancelled call does not start another loop iteration: each of its steps
    brings it closer to the exit, and none of them enters a loop body. *)
Lemma cancelled_call_leaves g id c c' j pc l :
  cancelled_for g id c ->
  c_threads c !! g = Some (TGenerate j pc l) ->
  step g c = Some c' ->
  exists pc' l',
    c_threads c' !! g = Some (TGenerate j pc' l') /\
    (steps_to_exit pc' < steps_to_exit pc)%nat /\
    pc' <> L426 /\ pc' <> L466.
Proof.
  intros ((j0 & pc0 & l0 & Hg0 & Hpc & Hid) & Hgen & Hstop & _) Hg Hstep.
  rewrite Hg in Hg0. inversion Hg0; subst j0 pc0 l0; clear Hg0.
  unfold step in Hstep. rewrite Hg in Hstep. simpl in Hstep.
  destruct (step_generate j pc l (c_globals c)) as [[[pc' l'] st1]|] eqn:E; [|discriminate].
  inversion Hstep; subst; clear Hstep. simpl.
  exists pc', l'.
  rewrite list_lookup_insert_eq by (eapply lookup_lt_Some; eassumption).
  split; [reflexivity|].
  destruct pc; try discriminate; unfold step_generate in E;
    rewrite ?Hstop, ?Hid, ?Z.eqb_refl, ?andb_false_r in E; simpl in E;
    repeat match type of E with
           | context [if ?c then _ else _] => destruct c eqn:?
           | context [match ?c with Some _ => _ | None => _ end] => destruct c eqn:?
           end;
    inversion E; subst; simpl; repeat split; try lia; discriminate.
Qed.

(** ** The configuration invariant

    [configured] and [no_leak] hold of the initial state and are kept by
    every entry point, so the hypotheses of the theorems above are met in
    every state the library can be in between calls. *)

Lemma configured_initial : configured initial_globals /\ no_leak initial_globals empty_heap.
Proof.
  split; [|intros r []].
  split; [vm_compute; discriminate|]. split; [vm_compute; discriminate|].
  intros H. discriminate H.
Qed.

Lemma tier_table_bounds m c :
  1 <= batch_size (tier_table m c) /\ 1 <= max_generated_tokens (tier_table m c).
Proof.
  unfold tier_table.
  repeat match goal with
         | |- context [?a <=? ?b] => destruct (a <=? b)
         end; simpl; lia.
Qed.

Lemma release_previous_unloaded w : fully_unloaded (fst (release_previous w)).
Proof.
  destruct w as [st hp]. destruct st as [m c sm v gen gid sid b bi bs cs nt mg].
  destruct bi; repeat split; reflexivity.
Qed.

Lemma loadModel_configured dev mb modelPath nCtx nThreads nGpuLayers w :
  configured (fst (snd (loadModel dev mb modelPath nCtx nThreads nGpuLayers w))).
Proof.
  rewrite loadModel_release_first.
  pose proof (release_previous_unloaded w) as U.
  destruct (release_previous w) as [st hp]. simpl in U.
  destruct U as (Hm & Hv & Hc & Hs & Hb).
  destruct st as [m c sm v gen gid sid b bi bs cs nt mg], hp as [nh lv].
  simpl in *. subst.
  unfold loadModel. simpl release_previous. cbv iota.
  match goal with
  | |- context [applyDeviceConfig dev ?x] =>
    pose proof (applyDeviceConfig_frame dev x) as F;
    pose proof (applyDeviceConfig_plan dev x) as P;
    destruct (applyDeviceConfig dev x) as [m' c' sm' v' gen' gid' sid' b' bi' bs' cs' nt' mg']
  end.
  cbv zeta in F. simpl in F. destruct F as (-> & -> & -> & -> & _ & _ & _ & _ & ->).
  pose proof (tier_table_bounds (getTotalMemoryMB dev) (Z.max 1 (hardware_concurrency dev)))
    as [B1 B2].
  rewrite <- P in B1, B2. unfold plan_of in B1, B2. simpl in B1, B2. clear P.
  unfold configured, alloc, llama_batch_init, alloc, release, batch_capacity.
  repeat match goal with
         | |- context [if negb ?c then _ else _] => destruct c; simpl
         | |- context [if ?c then _ else _] => destruct c; simpl
         end;
    repeat split; try assumption; try discriminate;
    intros _; rewrite length_replicate; lia.
Qed.

Lemma unloadModel_configured st hp :
  configured st -> configured (fst (unloadModel (st, hp))).
Proof.
  intros (H1 & H2 & _).
  destruct st as [m c sm v gen gid sid b bi bs cs nt mg].
  destruct bi; simpl in *; repeat split; try assumption; discriminate.
Qed.

Lemma unloadModel_releases_everything st hp :
  no_leak st hp ->
  live (snd (unloadModel (st, hp))) = [] /\
  no_leak (fst (unloadModel (st, hp))) (snd (unloadModel (st, hp))).
Proof.
  intros NL.
  assert (L : live (snd (unloadModel (st, hp))) = []).
  { unfold no_leak, session_resources in NL.
    destruct st as [m c sm v gen gid sid b bi bs cs nt mg]; simpl in NL.
    apply nil_of_no_elements. intros r Hr.
    destruct bi, sm as [sm|], c as [c|], m as [m|];
      cbn [unloadModel unload_teardown fst snd free_handle g_model g_ctx g_sampler g_batch
           g_batch_initialized set_batch_initialized set_sampler set_ctx set_model
           set_vocab set_stop_generation_id llama_batch_free] in Hr;
      repeat (apply in_live_release in Hr; destruct Hr as [Hr ?]);
      apply NL in Hr; simpl in Hr; intuition congruence. }
  split; [exact L|]. intros r Hr. rewrite L in Hr. destruct Hr.
Qed.

Lemma generate_configured be others fuel prompt maxTokens onToken_found st r s :
  configured st ->
  (fuel_needed be st prompt maxTokens <= fuel)%nat ->
  generate be others fuel prompt maxTokens onToken_found st = Done (r, s) ->
  configured (gs_globals s).
Proof.
  intros C Hfuel E.
  destruct (generate_returns be others fuel prompt maxTokens onToken_found st C Hfuel)
    as (r' & s' & E' & P).
  rewrite E in E'. inversion E'; subst r' s'; clear E'.
  destruct P as (_ & _ & _ & _ & _ & _ & _ & _ & F).
  destruct C as (C1 & C2 & C3).
  unfold loop_frame in F.
  assert (G : g_batch_size (gs_globals s) = g_batch_size st /\
              batch_capacity (g_batch (gs_globals s)) = batch_capacity (g_batch st) /\
              g_max_gen_tokens (gs_globals s) = g_max_gen_tokens st /\
              g_batch_initialized (gs_globals s) = g_batch_initialized st).
  { destruct r; simpl in F; inversion F; auto. }
  destruct G as (G1 & G2 & G3 & G4).
  unfold configured. rewrite G1, G2, G3, G4. auto.
Qed.

(** * Further properties

    What the code guarantees beyond the statements above: the plan across
    devices, the session between calls, and what a call has done when it
    returns. *)

(** ** The plan across devices *)

(** X1: the resource plan never shrinks with the device. Of two devices the
    one with at least as much memory and at least as many cores gets a
    context size, batch size, thread count and token cap that are each at
    least as large. *)
Theorem plan_grows_with_memory dev1 dev2 st1 st2 :
  getTotalMemoryMB dev1 <= getTotalMemoryMB dev2 ->
  hardware_concurrency dev1 <= hardware_concurrency dev2 ->
  let p1 := plan_of (applyDeviceConfig dev1 st1) in
  let p2 := plan_of (applyDeviceConfig dev2 st2) in
  context_size p1 <= context_size p2 /\ batch_size p1 <= batch_size p2 /\
  thread_count p1 <= thread_count p2 /\
  max_generated_tokens p1 <= max_generated_tokens p2.
Proof.
  intros Hm Hc. cbv zeta. rewrite !applyDeviceConfig_plan. unfold tier_table.
  repeat match goal with
         | |- context [?a <=? ?b] => destruct (Z.leb_spec a b)
         end; simpl; lia.
Qed.

Lemma plan_grows_with_memory_witness :
  getTotalMemoryMB phone_3gb <= getTotalMemoryMB phone_4gb /\
  context_size (plan_of (applyDeviceConfig phone_3gb initial_globals))
  <= context_size (plan_of (applyDeviceConfig phone_4gb initial_globals)).
Proof.
  assert (Hm : getTotalMemoryMB phone_3gb <= getTotalMemoryMB phone_4gb)
    by (vm_compute; discriminate).
  assert (Hc : hardware_concurrency phone_3gb <= hardware_concurrency phone_4gb)
    by (vm_compute; discriminate).
  split; [exact Hm|].
  exact (proj1 (plan_grows_with_memory phone_3gb phone_4gb initial_globals initial_globals
                  Hm Hc)).
Defined.

(** X2: whatever the operating system reports, the plan stays within fixed
    ranges: context 512 to 2048, batch 128 to 256, token cap 256 to 768 and
    between 1 and 8 threads, never more than the cores reported (one when
    none is reported) and at most 4 on a device of 3072 MB or less; when
    [sysinfo] fails the device is treated as one of 4096 MB and gets
    1024/256/384. *)
Theorem plan_ranges dev st :
  let p := plan_of (applyDeviceConfig dev st) in
  512 <= context_size p <= 2048 /\
  128 <= batch_size p <= 256 /\
  256 <= max_generated_tokens p <= 768 /\
  1 <= thread_count p <= 8 /\
  thread_count p <= Z.max 1 (hardware_concurrency dev) /\
  (getTotalMemoryMB dev <= 3072 -> thread_count p <= 4) /\
  (sysinfo dev = None ->
   context_size p = 1024 /\ batch_size p = 256 /\ max_generated_tokens p = 384).
Proof.
  cbv zeta. rewrite !applyDeviceConfig_plan.
  assert (Hs : sysinfo dev = None -> getTotalMemoryMB dev = 4096)
    by (unfold getTotalMemoryMB; intros ->; reflexivity).
  unfold tier_table.
  repeat match goal with
         | |- context [?a <=? ?b] => destruct (Z.leb_spec a b)
         end; simpl; repeat split; try lia;
    match goal with Hn : sysinfo dev = None |- _ => apply Hs in Hn; lia end.
Qed.

(** ** The quantization marker *)

Lemma lowercase_app a b : lowercase (a ++ b) = (lowercase a ++ lowercase b)%string.
Proof. induction a as [|c a IH]; simpl; [reflexivity|]. now rewrite IH. Qed.

Lemma prefix_app n b : String.prefix n (n ++ b) = true.
Proof.
  induction n as [|c n IH]; simpl; [destruct b; reflexivity|].
  destruct (ascii_dec c c); [exact IH|congruence].
Qed.

Lemma find_prefix needle hay :
  String.prefix needle hay = true -> find needle hay = Some O.
Proof. intros H. destruct hay; cbn [find]; now rewrite H. Qed.

Lemma find_app needle a b : npos (find needle (a ++ needle ++ b)) = false.
Proof.
  induction a as [|c a IH]; cbn [String.append find].
  - now rewrite (find_prefix _ _ (prefix_app needle b)).
  - destruct (String.prefix needle (String c (a ++ needle ++ b))); [reflexivity|].
    destruct (find needle (a ++ needle ++ b)); [reflexivity|discriminate].
Qed.

Lemma prefix_lowercase_split n : forall d,
  String.prefix n (lowercase d) = true ->
  exists m post, d = (m ++ post)%string /\ lowercase m = n.
Proof.
  induction n as [|c n IH]; intros d H.
  - exists EmptyString, d. auto.
  - destruct d as [|x d]; [discriminate|]. simpl in H.
    destruct (ascii_dec c (tolower x)) as [->|]; [|discriminate].
    destruct (IH d H) as (m & post & -> & <-).
    exists (String x m), post. auto.
Qed.

Lemma find_lowercase_split needle : forall d,
  npos (find needle (lowercase d)) = false ->
  exists pre m post, d = (pre ++ m ++ post)%string /\ lowercase m = needle.
Proof.
  induction d as [|c d IH]; intros H.
  - cbn [lowercase find] in H.
    destruct (String.prefix needle EmptyString) eqn:P; [|discriminate].
    destruct (prefix_lowercase_split needle EmptyString P) as (m & post & E & L).
    exists EmptyString, m, post. auto.
  - cbn [lowercase find] in H.
    destruct (String.prefix needle (String (tolower c) (lowercase d))) eqn:P.
    + destruct (prefix_lowercase_split needle (String c d) P) as (m & post & E & L).
      exists EmptyString, m, post. auto.
    + destruct (find needle (lowercase d)) eqn:F; [|discriminate].
      destruct IH as (pre & m & post & -> & L); [reflexivity|].
      exists (String c pre), m, post. auto.
Qed.

(** X3: the quantization check of lines 263-277 looks for the markers
    anywhere in the description and without regard to letter case: a
    description passes exactly when some part of it reads q4, q5 or
    quantized once lower-cased. *)
Theorem quantization_marker_anywhere desc :
  has_quantization_marker desc = true <->
  exists pre m post,
    desc = (pre ++ m ++ post)%string /\
    (lowercase m = "q4"%string \/ lowercase m = "q5"%string
     \/ lowercase m = "quantized"%string).
Proof.
  unfold has_quantization_marker. split.
  - intros H.
    destruct (npos (find "q4" (lowercase desc))) eqn:E4.
    + destruct (npos (find "q5" (lowercase desc))) eqn:E5.
      * destruct (npos (find "quantized" (lowercase desc))) eqn:Eq; [discriminate|].
        destruct (find_lowercase_split _ _ Eq) as (pre & m & post & E & L).
        exists pre, m, post. auto.
      * destruct (find_lowercase_split _ _ E5) as (pre & m & post & E & L).
        exists pre, m, post. auto.
    + destruct (find_lowercase_split _ _ E4) as (pre & m & post & E & L).
      exists pre, m, post. auto.
  - intros (pre & m & post & -> & L).
    rewrite !lowercase_app.
    destruct L as [->|[->| ->]]; rewrite find_app; simpl;
      rewrite ?orb_true_r; reflexivity.
Qed.

(** ** Unloading *)

Lemma loaded_phone_no_leak : no_leak loaded_phone loaded_heap.
Proof. intros r Hr. exact Hr. Qed.

(** X4: [unloadModel] gives back to the library every object the session
    held: started from a state in which the library holds nothing but the
    session, nothing is live afterwards. *)
Theorem unloadModel_releases_session st hp :
  no_leak st hp ->
  live (snd (unloadModel (st, hp))) = [] /\
  fully_unloaded (fst (unloadModel (st, hp))) /\
  session_resources (fst (unloadModel (st, hp))) = [].
Proof.
  intros NL.
  split.
  { unfold no_leak, session_resources in NL.
    destruct st as [m c sm v gen gid sid b bi bs cs nt mg]; simpl in NL.
    apply nil_of_no_elements. intros r Hr.
    destruct bi, sm as [sm|], c as [c|], m as [m|];
      cbn [unloadModel unload_teardown fst snd free_handle g_model g_ctx g_sampler g_batch
           g_batch_initialized set_batch_initialized set_sampler set_ctx set_model
           set_vocab set_stop_generation_id llama_batch_free] in Hr;
      repeat (apply in_live_release in Hr; destruct Hr as [Hr ?]);
      apply NL in Hr; simpl in Hr; intuition congruence. }
  destruct st as [m c sm v gen gid sid b bi bs cs nt mg].
  destruct bi; split; repeat split; reflexivity.
Qed.

Lemma unloadModel_releases_session_witness :
  no_leak loaded_phone loaded_heap /\
  live loaded_heap <> [] /\
  live (snd (unloadModel (loaded_phone, loaded_heap))) = [].
Proof.
  split; [exact loaded_phone_no_leak|]. split; [discriminate|].
  exact (proj1 (unloadModel_releases_session loaded_phone loaded_heap loaded_phone_no_leak)).
Defined.

(** X5: unloading twice is unloading once, and on a session that is not
    loaded [unloadModel] does what [stopGeneration] does and frees nothing. *)
Theorem unloadModel_idempotent w :
  unloadModel (unloadModel w) = unloadModel w /\
  (fully_unloaded (fst w) -> unloadModel w = (stopGeneration (fst w), snd w)).
Proof.
  destruct w as [st hp]. destruct st as [m c sm v gen gid sid b bi bs cs nt mg].
  split.
  - unfold unloadModel, unload_teardown.
    cbn [g_batch_initialized g_sampler g_ctx g_model g_batch g_generation_id
         set_vocab set_sampler set_ctx set_model set_stop_generation_id].
    destruct bi; reflexivity.
  - unfold fully_unloaded. simpl. intros (-> & -> & -> & -> & ->). reflexivity.
Qed.

Lemma unloadModel_globals st hp :
  fst (unloadModel (st, hp))
  = mkGlobals None None None None (g_is_generating st) (g_generation_id st)
              (g_generation_id st) (g_batch st) false (g_batch_size st)
              (g_context_size st) (g_n_threads st) (g_max_gen_tokens st).
Proof.
  destruct st as [m c sm v gen gid sid b bi bs cs nt mg].
  unfold unloadModel, unload_teardown.
  cbn [g_batch_initialized g_sampler g_ctx g_model g_batch g_generation_id
       set_vocab set_sampler set_ctx set_model set_stop_generation_id].
  destruct bi; reflexivity.
Qed.

(** X6: after [unloadModel], whatever the state before, the session answers
    as not loaded: [isModelLoaded] is false, [getModelInfo] is the empty
    object, and a [generate] call returns the not-loaded error at once, with
    no library call and no change to the globals; a generation flag that was
    set stays set for the call that owns it, and that call's generation is
    marked as cancelled. *)
Theorem unloaded_session_answers mb n_vocab st hp :
  let st' := fst (unloadModel (st, hp)) in
  isModelLoaded st' = false /\
  getModelInfo mb n_vocab st' = "{}"%string /\
  isGenerating st' = isGenerating st /\
  g_stop_generation_id st' = g_generation_id st /\
  forall be others fuel prompt maxTokens onToken_found,
    generate be others fuel prompt maxTokens onToken_found st'
    = Done (ErrModelNotLoaded, mkGenState st' [] O O O).
Proof.
  cbv zeta. rewrite unloadModel_globals.
  repeat split; reflexivity.
Qed.

(** ** Loading *)

Lemma loadModel_handles dev mb modelPath nCtx nThreads nGpuLayers w :
  let r := loadModel dev mb modelPath nCtx nThreads nGpuLayers w in
  (fst r = true -> fully_loaded (fst (snd r))) /\
  (fst r = false -> fully_unloaded (fst (snd r))).
Proof.
  cbv zeta. rewrite loadModel_release_first.
  pose proof (release_previous_unloaded w) as U.
  destruct (release_previous w) as [st hp]. simpl in U.
  destruct U as (Hm & Hv & Hc & Hs & Hb).
  destruct st as [m c sm v gen gid sid b bi bs cs nt mg], hp as [nh lv].
  simpl in *. subst.
  unfold loadModel. simpl release_previous. cbv iota.
  match goal with
  | |- context [applyDeviceConfig dev ?x] =>
    pose proof (applyDeviceConfig_frame dev x) as F;
    destruct (applyDeviceConfig dev x) as [m' c' sm' v' gen' gid' sid' b' bi' bs' cs' nt' mg']
  end.
  cbv zeta in F. simpl in F. destruct F as (-> & -> & -> & -> & _ & _ & _ & _ & ->).
  unfold fully_loaded, fully_unloaded, is_Some, alloc, llama_batch_init, alloc, release.
  repeat match goal with
         | |- context [if negb ?c then _ else _] => destruct c; simpl
         | |- context [if ?c then _ else _] => destruct c; simpl
         end;
    split; intros H; try discriminate H; repeat split; eauto.
Qed.

(** X7: [getModelInfo] answers with the empty object exactly when the model
    or the vocabulary handle is absent; right after a [loadModel] call that is
    exactly when the load was refused. *)
Theorem getModelInfo_reports_session mb n_vocab st :
  (getModelInfo mb n_vocab st = "{}"%string <-> g_model st = None \/ g_vocab st = None) /\
  forall dev modelPath nCtx nThreads nGpuLayers hp,
    let r := loadModel dev mb modelPath nCtx nThreads nGpuLayers (st, hp) in
    getModelInfo mb n_vocab (fst (snd r)) = "{}"%string <-> fst r = false.
Proof.
  assert (G : forall x, getModelInfo mb n_vocab x = "{}"%string
                        <-> g_model x = None \/ g_vocab x = None).
  { intros x. unfold getModelInfo.
    destruct (g_model x), (g_vocab x); simpl; split; intros H;
      try reflexivity; try discriminate H; auto;
      destruct H; discriminate. }
  split; [apply G|].
  intros dev modelPath nCtx nThreads nGpuLayers hp. cbv zeta.
  rewrite G.
  destruct (loadModel_handles dev mb modelPath nCtx nThreads nGpuLayers (st, hp)) as [T F].
  destruct (fst (loadModel dev mb modelPath nCtx nThreads nGpuLayers (st, hp))).
  - destruct (T eq_refl) as ([m Hm] & [v Hv] & _).
    rewrite Hm, Hv. split; [intros [H|H]; discriminate|discriminate].
  - destruct (F eq_refl) as (Hm & _). rewrite Hm. split; auto.
Qed.

(** X8: a successful load stores the three-way minimum of the requested
    context length, the device plan's and the model's trained length, and
    [getContextSize] answers with that value. *)
Theorem loadModel_stores_min_context dev mb modelPath nCtx nThreads nGpuLayers w :
  fst (loadModel dev mb modelPath nCtx nThreads nGpuLayers w) = true ->
  let c := getContextSize (fst (snd (loadModel dev mb modelPath nCtx nThreads nGpuLayers w))) in
  c = Z.min (Z.min nCtx (context_size (plan_of (applyDeviceConfig dev initial_globals))))
            (llama_model_n_ctx_train mb) /\
  c <= nCtx /\ c <= 2048 /\ c <= llama_model_n_ctx_train mb.
Proof.
  intros H. cbv zeta.
  rewrite (loadModel_context_size _ _ _ _ _ _ _ H).
  rewrite (applyDeviceConfig_plan dev initial_globals).
  unfold tier_table.
  repeat match goal with
         | |- context [?a <=? ?b] => destruct (Z.leb_spec a b)
         end; simpl; lia.
Qed.

Lemma loadModel_stores_min_context_witness :
  fst (loadModel phone_3gb q4_model "m.gguf" 2048 4 0 (initial_globals, empty_heap)) = true /\
  getContextSize loaded_phone = 512.
Proof.
  assert (H : fst (loadModel phone_3gb q4_model "m.gguf" 2048 4 0
                     (initial_globals, empty_heap)) = true) by reflexivity.
  split; [exact H|].
  exact (proj1 (loadModel_stores_min_context phone_3gb q4_model "m.gguf" 2048 4 0
                  (initial_globals, empty_heap) H)).
Defined.

(** ** The tokenizer's buffer *)

Lemma toy_backend_tokenizer : tokenizer_contract toy_backend toy_tokens.
Proof. intros text n add_special. reflexivity. Qed.

(** X9: with a tokenizer that answers as its interface promises,
    [tokenize_prompt] returns the tokens of the text, all of them and nothing
    else, for a text of any length: when the first buffer of
    [length + 32] entries is too small the retry at the size asked for
    succeeds. Without a vocabulary it returns the empty list and makes no
    library call. *)
Theorem tokenize_prompt_exact be tokens text add_special s :
  tokenizer_contract be tokens ->
  (is_Some (g_vocab (gs_globals s)) ->
   fst (tokenize_prompt be text add_special s) = tokens text add_special) /\
  (g_vocab (gs_globals s) = None -> tokenize_prompt be text add_special s = ([], s)).
Proof.
  intros C. split.
  2:{ intros Hv. unfold tokenize_prompt. now rewrite Hv. }
  intros [v Hv]. unfold tokenize_prompt. rewrite Hv. cbv zeta.
  set (t := tokens text add_special).
  rewrite (C text (Z.of_nat (String.length text) + 32) add_special). fold t.
  destruct (Z.leb_spec (Z.of_nat (length t)) (Z.of_nat (String.length text) + 32)) as [Hfit|Hbig].
  - destruct (Z.ltb_spec (Z.of_nat (length t)) 0); [lia|].
    destruct (Z.ltb_spec (Z.of_nat (length t)) 0); [lia|]. cbn [fst].
    rewrite Nat2Z.id. unfold overwrite. now apply resize_app.
  - destruct (Z.ltb_spec (- Z.of_nat (length t)) 0); [|lia].
    rewrite length_resize.
    replace (Z.of_nat (Z.to_nat (- - Z.of_nat (length t)))) with (Z.of_nat (length t)) by lia.
    rewrite (C text (Z.of_nat (length t)) add_special). fold t.
    rewrite Z.leb_refl.
    destruct (Z.ltb_spec (Z.of_nat (length t)) 0); [lia|]. cbn [fst].
    rewrite Nat2Z.id. unfold overwrite. now apply resize_app.
Qed.

Lemma tokenize_prompt_exact_witness :
  tokenizer_contract toy_backend toy_tokens /\
  fst (tokenize_prompt toy_backend "Hello" true (mkGenState loaded_phone [] O O O))
  = [1; 72; 101; 108; 108; 111].
Proof.
  split; [exact toy_backend_tokenizer|].
  exact (proj1 (tokenize_prompt_exact toy_backend toy_tokens "Hello" true
                  (mkGenState loaded_phone [] O O O) toy_backend_tokenizer)
               (ex_intro _ _ eq_refl)).
Defined.

(** ** A call's trace

    What a returning call has done, read off its events; nothing is assumed
    about the batch allocation here. *)

Lemma call_frame_plan a b :
  call_frame a = call_frame b ->
  g_context_size a = g_context_size b /\ g_batch_size a = g_batch_size b /\
  g_max_gen_tokens a = g_max_gen_tokens b.
Proof. unfold call_frame, plan_of. intros H. inversion H. auto. Qed.

Lemma adds_hold_no_load new v : Forall is_add new -> ~ In (EvStopLoad v) new.
Proof.
  induction 1 as [|e new He _ IH]; [intros []|].
  intros [->|H]; [exact He|exact (IH H)].
Qed.

Lemma adds_end_nothing be new :
  Forall is_add new -> Forall (fun e => ends_call be e = false) new.
Proof.
  induction 1 as [|e new He _ IH]; constructor; [|exact IH].
  destruct e; try (now destruct He); reflexivity.
Qed.

Lemma ends_call_in be new e :
  Forall (fun e => ends_call be e = false) new -> In e new -> ends_call be e = true -> False.
Proof.
  intros Hall Hin He. rewrite List.Forall_forall in Hall.
  rewrite (Hall e Hin) in He. discriminate.
Qed.

Lemma continuing_app be a b :
  continuing be (a ++ b) = continuing be a ++ continuing be b.
Proof. unfold continuing. apply List.filter_app. Qed.

Section Traces.

Context (be : inference_backend) (others : nat -> option Z).

Lemma load_stop_trace s :
  let v := fst (load_stop_generation_id others s) in
  let s' := snd (load_stop_generation_id others s) in
  gs_events s' = EvStopLoad v :: gs_events s /\
  call_frame (gs_globals s') = call_frame (gs_globals s) /\
  g_stop_generation_id (gs_globals s') = v /\
  (v = g_stop_generation_id (gs_globals s) \/ exists k, others k = Some v).
Proof.
  unfold load_stop_generation_id. destruct (others (gs_loads s)) eqn:E; simpl;
    repeat split; eauto.
Qed.

Lemma batch_clear_trace s :
  gs_events (batch_clear s) = EvBatchClear :: gs_events s /\
  call_frame (gs_globals (batch_clear s)) = call_frame (gs_globals s) /\
  g_stop_generation_id (gs_globals (batch_clear s)) = g_stop_generation_id (gs_globals s) /\
  n_tokens (g_batch (gs_globals (batch_clear s))) = 0.
Proof. unfold batch_clear, call_frame, batch_capacity. simpl. auto. Qed.

Lemma batch_add_trace tok pos lg s s' :
  batch_add tok pos lg s = Done s' ->
  (exists idx, gs_events s' = EvBatchAdd idx (mkSlot tok pos 1 0 lg) :: gs_events s) /\
  call_frame (gs_globals s') = call_frame (gs_globals s) /\
  g_stop_generation_id (gs_globals s') = g_stop_generation_id (gs_globals s) /\
  (n_tokens (g_batch (gs_globals s)) = 0 ->
   batch_view (g_batch (gs_globals s')) = [mkSlot tok pos 1 0 lg]).
Proof.
  unfold batch_add.
  destruct ((0 <=? n_tokens (g_batch (gs_globals s)))
            && (n_tokens (g_batch (gs_globals s)) <? batch_capacity (g_batch (gs_globals s))))
    eqn:E; [|discriminate].
  intros H. inversion H; subst; clear H.
  unfold call_frame, batch_capacity, batch_view. simpl. rewrite length_insert.
  split; [eauto|]. split; [reflexivity|]. split; [reflexivity|].
  intros Hz. rewrite Hz in *. unfold batch_capacity in E.
  destruct (b_slots (g_batch (gs_globals s))); [discriminate E|reflexivity].
Qed.

Lemma fill_batch_trace tokens n_prompt n_processed count :
  forall i s s',
    fill_batch tokens n_prompt n_processed count i s = Done s' ->
    exists new,
      gs_events s' = new ++ gs_events s /\ Forall is_add new /\
      call_frame (gs_globals s') = call_frame (gs_globals s) /\
      g_stop_generation_id (gs_globals s') = g_stop_generation_id (gs_globals s).
Proof.
  induction count as [|count IH]; intros i s s' H; simpl in H.
  - inversion H; subst. exists []. repeat split; auto.
  - destruct (if 0 <=? n_processed + i then tokens !! Z.to_nat (n_processed + i) else None)
      as [tok|]; [|discriminate].
    destruct (batch_add tok (n_processed + i) (n_processed + i =? n_prompt - 1) s)
      as [s1| |] eqn:E1; cbn [mbind outcome_bind] in H; try discriminate.
    destruct (batch_add_trace _ _ _ _ _ E1) as ((idx & Ev1) & F1 & St1 & _).
    destruct (IH _ _ _ H) as (new & Ev & Hadd & F & St).
    exists (new ++ [EvBatchAdd idx (mkSlot tok (n_processed + i) 1 0
                                          (n_processed + i =? n_prompt - 1))]).
    split; [rewrite Ev, Ev1, <- app_assoc; reflexivity|].
    split; [apply Forall_app; split; [assumption|repeat constructor]|].
    split; congruence.
Qed.

(** The conversion and the delivery of one sampled token. *)
Lemma deliver_trace tok response s :
  let '(token_str, n, s3) := token_to_str be tok s in
  let (response1, s4) := deliver_token token_str n response s3 in
  gs_globals s4 = gs_globals s /\
  exists new,
    gs_events s4 = new ++ gs_events s /\
    decoded new = [] /\ sampled new = [] /\ split_reset new = None /\
    (forall v, ~ In (EvStopLoad v) new) /\
    Forall (fun e => ends_call be e = false) new /\
    forall piece, piece_contract be piece ->
      response1 = response ++ piece tok /\
      callbacks new = if nonempty (piece tok) then [c_str (piece tok)] else [].
Proof.
  pose proof (token_to_str_events be tok s) as E. cbv zeta in E.
  pose proof (token_to_str_frame be tok s) as (G & _). cbv zeta in G.
  assert (P := fun piece C => token_to_str_piece be piece tok s C).
  destruct (token_to_str be tok s) as [[token_str n] s3]. cbn [snd] in E, G.
  unfold deliver_token.
  set (new3 := if fst (llama_token_to_piece be tok 127) <? 0
               then [EvTokenToPiece tok (- fst (llama_token_to_piece be tok 127))
                       (fst (llama_token_to_piece be tok
                               (- fst (llama_token_to_piece be tok 127))));
                     EvTokenToPiece tok 127 (fst (llama_token_to_piece be tok 127))]
               else [EvTokenToPiece tok 127 (fst (llama_token_to_piece be tok 127))]).
  assert (E3 : gs_events s3 = new3 ++ gs_events s).
  { rewrite E. unfold new3. destruct (_ <? 0); reflexivity. }
  assert (Q3 : decoded new3 = [] /\ sampled new3 = [] /\ callbacks new3 = [] /\
               split_reset new3 = None /\ (forall v, ~ In (EvStopLoad v) new3) /\
               Forall (fun e => ends_call be e = false) new3).
  { unfold new3. destruct (_ <? 0); simpl;
      (split; [reflexivity|]); (split; [reflexivity|]); (split; [reflexivity|]);
      (split; [reflexivity|]);
      (split; [intros v Hin; simpl in Hin; intuition discriminate|repeat constructor]). }
  destruct Q3 as (Q3d & Q3s & Q3c & Q3r & Q3l & Q3e).
  destruct (Z.ltb_spec 0 n) as [Hpos|Hzero].
  - cbn [gs_globals emit gs_events]. split; [exact G|].
    exists (EvCallback (c_str (resize (Z.to_nat n) NUL token_str)) :: new3).
    rewrite E3. simpl. rewrite Q3d, Q3s, Q3r.
    split; [reflexivity|]. split; [reflexivity|]. split; [reflexivity|].
    split; [reflexivity|].
    split; [intros v [Hin|Hin]; [discriminate|exact (Q3l v Hin)]|].
    split; [constructor; [reflexivity|exact Q3e]|].
    intros piece C. destruct (P piece C) as [Hn Hp]. rewrite Hp, Q3c.
    split; [reflexivity|].
    destruct (piece tok); [simpl in Hn; lia|reflexivity].
  - split; [exact G|]. exists new3. rewrite E3.
    split; [reflexivity|]. split; [exact Q3d|]. split; [exact Q3s|].
    split; [exact Q3r|]. split; [exact Q3l|]. split; [exact Q3e|].
    intros piece C. destruct (P piece C) as [Hn Hp].
    assert (Hnil : piece tok = [])
      by (destruct (piece tok); [reflexivity|simpl in Hn; lia]).
    rewrite Hnil. simpl. split; [now rewrite app_nil_r|exact Q3c].
Qed.

Lemma prefill_loop_trace tokens n_prompt id fuel :
  forall n s r s',
    prefill_loop be others fuel tokens n_prompt id n s = Done (r, s') ->
    exists new,
      gs_events s' = new ++ gs_events s /\
      call_frame (gs_globals s') = call_frame (gs_globals s) /\
      sampled new = [] /\ callbacks new = [] /\ split_reset new = None /\
      (quiet others id -> g_stop_generation_id (gs_globals s) <> id ->
       g_stop_generation_id (gs_globals s') <> id /\ ~ In (EvStopLoad id) new) /\
      (In (EvStopLoad id) new -> r <> None /\ exists older, new = EvStopLoad id :: older) /\
      (forall e, In e new -> ends_call be e = true ->
         r = None /\ exists older, new = e :: older) /\
      (r = None -> exists view ret older, new = EvDecode view ret :: older /\ ret <> 0).
Proof.
  induction fuel as [|fuel IH]; intros n s r s' H; [discriminate|].
  cbn [prefill_loop] in H.
  destruct (n <? n_prompt).
  2:{ inversion H; subst. exists [].
      split; [reflexivity|]. split; [reflexivity|]. split; [reflexivity|].
      split; [reflexivity|]. split; [reflexivity|]. split; [auto|].
      split; [intros []|]. split; [intros e []|discriminate]. }
  pose proof (load_stop_trace s) as L. cbv zeta in L.
  destruct (load_stop_generation_id others s) as [v s1]. cbn [fst snd] in L.
  destruct L as (Ev1 & F1 & St1 & Hv).
  destruct (Z.eqb_spec v id) as [Hstop|Hgo].
  { inversion H; subst r s'. exists [EvStopLoad v]. rewrite Ev1.
    split; [reflexivity|]. split; [exact F1|]. split; [reflexivity|].
    split; [reflexivity|]. split; [reflexivity|].
    split.
    { intros Hq Hs. exfalso.
      destruct Hv as [Hv|[k Hk]]; [congruence|]. apply (Hq k). congruence. }
    split; [intros _; split; [discriminate|]; exists []; congruence|].
    split; [|discriminate].
    intros e [<-|[]] He. discriminate He. }
  destruct (batch_clear_trace s1) as (Ev2 & F2 & St2 & _).
  set (s2 := batch_clear s1) in *.
  destruct (fill_batch tokens n_prompt n _ 0 s2) as [s3| |] eqn:E3;
    cbn [mbind outcome_bind] in H; try discriminate.
  destruct (fill_batch_trace _ _ _ _ _ _ _ E3) as (new3 & Ev3 & Hadd3 & F3 & St3).
  pose proof (decode_spec be s3) as D. cbv zeta in D.
  destruct (decode be s3) as [ret s4]. cbn [fst snd] in D.
  destruct D as (Ev4 & G4 & _).
  destruct (adds_are_quiet new3 Hadd3) as (Q1 & Q2 & Q3 & Q4).
  set (iter := EvDecode (batch_view (g_batch (gs_globals s3))) ret
                 :: new3 ++ [EvBatchClear; EvStopLoad v]).
  assert (Ev4' : gs_events s4 = iter ++ gs_events s).
  { unfold iter. rewrite Ev4, Ev3, Ev2, Ev1. simpl. now rewrite <- app_assoc. }
  assert (F4 : call_frame (gs_globals s4) = call_frame (gs_globals s)) by congruence.
  assert (St4 : g_stop_generation_id (gs_globals s4) = v) by congruence.
  assert (Qi : sampled iter = [] /\ callbacks iter = [] /\ split_reset iter = None /\
               ~ In (EvStopLoad id) iter).
  { unfold iter. simpl. rewrite sampled_app, callbacks_app, Q2, Q3.
    rewrite (split_reset_app_none new3 [EvBatchClear; EvStopLoad v] Q4 eq_refl).
    repeat split; auto.
    intros [Hin|Hin]; [discriminate|]. apply in_app_or in Hin.
    destruct Hin as [Hin|Hin]; [exact (adds_hold_no_load _ _ Hadd3 Hin)|].
    simpl in Hin. destruct Hin as [Hin|[Hin|[]]]; [discriminate|congruence]. }
  destruct Qi as (Qs & Qc & Qr & Ql).
  assert (Qe : Forall (fun e => ends_call be e = false)
                      (new3 ++ [EvBatchClear; EvStopLoad v])).
  { apply Forall_app. split; [now apply adds_end_nothing|repeat constructor]. }
  destruct (Z.eqb_spec ret 0) as [Hok|Hfail]; cbn [negb] in H.
  2:{ inversion H; subst r s'. exists iter.
      split; [exact Ev4'|]. split; [exact F4|]. split; [exact Qs|]. split; [exact Qc|].
      split; [exact Qr|]. split; [intros _ _; split; [congruence|exact Ql]|].
      split; [intros Hin; destruct (Ql Hin)|].
      split.
      - intros e [<-|Hin] He; [split; [reflexivity|]; eexists; reflexivity|].
        destruct (ends_call_in _ _ _ Qe Hin He).
      - intros _. eexists _, _, _. split; [reflexivity|exact Hfail]. }
  destruct (IH _ _ _ _ H) as (new5 & Ev5 & F5 & S5 & C5 & R5 & Hq5 & Hl5 & He5 & Hnone5).
  exists (new5 ++ iter).
  split; [rewrite Ev5, Ev4', <- app_assoc; reflexivity|].
  split; [congruence|].
  rewrite sampled_app, callbacks_app, Qs, Qc, S5, C5.
  split; [reflexivity|]. split; [reflexivity|].
  split; [now apply split_reset_app_none|].
  split.
  { intros Hq _. destruct (Hq5 Hq) as [St5 Hn5]; [congruence|].
    split; [exact St5|]. intros Hin. apply in_app_or in Hin. tauto. }
  split.
  { intros Hin. apply in_app_or in Hin. destruct Hin as [Hin|Hin]; [|destruct (Ql Hin)].
    destruct (Hl5 Hin) as (Hr & older & ->). split; [exact Hr|]. eexists. reflexivity. }
  split.
  { intros e Hin He. apply in_app_or in Hin. destruct Hin as [Hin|Hin].
    - destruct (He5 e Hin He) as (Hr & older & ->). split; [exact Hr|]. eexists. reflexivity.
    - exfalso. destruct Hin as [<-|Hin].
      + simpl in He. subst ret. discriminate He.
      + exact (ends_call_in _ _ _ Qe Hin He). }
  intros Hr. destruct (Hnone5 Hr) as (view & ret' & older & -> & Hret).
  eexists _, _, _. split; [reflexivity|exact Hret].
Qed.

Lemma feedback_entries_cons n tok toks :
  feedback_entries n (tok :: toks) = [mkSlot tok n 1 0 true] :: feedback_entries (n + 1) toks.
Proof.
  unfold feedback_entries. rewrite imap_cons. simpl. rewrite Z.add_0_r. f_equal.
  apply imap_ext. intros i x _. simpl. do 2 f_equal. lia.
Qed.

Lemma decode_loop_trace maxTokens id fuel :
  forall n_cur n_gen response s response' n_gen' s',
    decode_loop be others fuel maxTokens id n_cur n_gen response s
    = Done (response', n_gen', s') ->
    exists new,
      gs_events s' = new ++ gs_events s /\
      call_frame (gs_globals s') = call_frame (gs_globals s) /\
      split_reset new = None /\
      decoded new = feedback_entries n_cur (continuing be (sampled new)) /\
      n_cur + Z.of_nat (length (decoded new))
      <= Z.max n_cur (g_context_size (gs_globals s)) /\
      (In (EvStopLoad id) new -> exists older, new = EvStopLoad id :: older) /\
      (quiet others id -> g_stop_generation_id (gs_globals s) <> id ->
       ~ In (EvStopLoad id) new) /\
      (forall e, In e new -> ends_call be e = true -> exists older, new = e :: older) /\
      forall piece, piece_contract be piece ->
        response' = response ++ concat (map piece (continuing be (sampled new))) /\
        callbacks new
        = map c_str (List.filter nonempty (map piece (continuing be (sampled new)))).
Proof.
  induction fuel as [|fuel IH];
    intros n_cur n_gen response s response' n_gen' s' H; [discriminate|].
  cbn [decode_loop] in H.
  assert (Hnone : forall x : gen_state, x = s -> response' = response ->
            exists new,
              gs_events x = new ++ gs_events s /\
              call_frame (gs_globals x) = call_frame (gs_globals s) /\
              split_reset new = None /\
              decoded new = feedback_entries n_cur (continuing be (sampled new)) /\
              n_cur + Z.of_nat (length (decoded new))
              <= Z.max n_cur (g_context_size (gs_globals s)) /\
              (In (EvStopLoad id) new -> exists older, new = EvStopLoad id :: older) /\
              (quiet others id -> g_stop_generation_id (gs_globals s) <> id ->
               ~ In (EvStopLoad id) new) /\
              (forall e, In e new -> ends_call be e = true ->
                 exists older, new = e :: older) /\
              forall piece, piece_contract be piece ->
                response' = response ++ concat (map piece (continuing be (sampled new))) /\
                callbacks new
                = map c_str (List.filter nonempty (map piece (continuing be (sampled new))))).
  { intros x -> ->. exists []. simpl.
    split; [reflexivity|]. split; [reflexivity|]. split; [reflexivity|].
    split; [reflexivity|]. split; [lia|]. split; [intros []|].
    split; [intros _ _ []|]. split; [intros e []|].
    intros piece _. split; [now rewrite app_nil_r|reflexivity]. }
  destruct (n_gen <? maxTokens); cbn [andb] in H.
  2:{ inversion H; subst. now apply Hnone. }
  destruct (Z.ltb_spec n_cur (g_context_size (gs_globals s))) as [Hctx|Hctx].
  2:{ inversion H; subst. now apply Hnone. }
  clear Hnone.
  pose proof (load_stop_trace s) as L. cbv zeta in L.
  destruct (load_stop_generation_id others s) as [v s1]. cbn [fst snd] in L.
  destruct L as (Ev1 & F1 & St1 & Hv).
  destruct (Z.eqb_spec v id) as [Hstop|Hgo].
  { inversion H; subst response' n_gen' s'. exists [EvStopLoad v]. rewrite Ev1. simpl.
    split; [reflexivity|]. split; [exact F1|]. split; [reflexivity|].
    split; [reflexivity|]. split; [lia|].
    split; [intros _; exists []; congruence|].
    split.
    { intros Hq Hs _. destruct Hv as [Hv|[k Hk]]; [congruence|].
      apply (Hq k). congruence. }
    split; [intros e [<-|[]] He; discriminate He|].
    intros piece _. split; [now rewrite app_nil_r|reflexivity]. }
  pose proof (sample_spec be s1) as Sm. cbv zeta in Sm.
  destruct (sample be s1) as [tok s2]. cbn [fst snd] in Sm.
  destruct Sm as (Ev2 & G2 & _).
  destruct (llama_vocab_is_eog be tok) eqn:Heog.
  { inversion H; subst response' n_gen' s'. exists [EvSample tok; EvStopLoad v].
    rewrite Ev2, Ev1, G2. unfold continuing. simpl. rewrite Heog. simpl.
    split; [reflexivity|]. split; [exact F1|]. split; [reflexivity|].
    split; [reflexivity|]. split; [lia|].
    split; [intros [Hin|[Hin|[]]]; [discriminate|congruence]|].
    split; [intros _ _ [Hin|[Hin|[]]]; [discriminate|congruence]|].
    split.
    { intros e [<-|[<-|[]]] He; [eexists; reflexivity|discriminate He]. }
    intros piece _. split; [now rewrite app_nil_r|reflexivity]. }
  pose proof (deliver_trace tok response s2) as T.
  destruct (token_to_str be tok s2) as [[token_str n] s3].
  destruct (deliver_token token_str n response s3) as [response1 s4].
  destruct T as (G4 & new4 & Ev4 & Q4d & Q4s & Q4r & Q4l & Q4e & Q4p).
  destruct (batch_clear_trace s4) as (Ev5 & F5 & St5 & N5).
  set (s5 := batch_clear s4) in *.
  destruct (batch_add tok n_cur true s5) as [s6| |] eqn:E6;
    cbn [mbind outcome_bind] in H; try discriminate.
  destruct (batch_add_trace _ _ _ _ _ E6) as ((idx & Ev6) & F6 & St6 & V6).
  specialize (V6 N5).
  pose proof (decode_spec be s6) as D. cbv zeta in D.
  destruct (decode be s6) as [ret s7]. cbn [fst snd] in D.
  destruct D as (Ev7 & G7 & _). rewrite V6 in Ev7.
  set (iter := EvDecode [mkSlot tok n_cur 1 0 true] ret
                 :: EvBatchAdd idx (mkSlot tok n_cur 1 0 true)
                 :: EvBatchClear :: new4 ++ [EvSample tok; EvStopLoad v]).
  assert (Ev7' : gs_events s7 = iter ++ gs_events s).
  { unfold iter. rewrite Ev7, Ev6, Ev5, Ev4, Ev2, Ev1. simpl. now rewrite <- !app_assoc. }
  assert (F7 : call_frame (gs_globals s7) = call_frame (gs_globals s)).
  { rewrite G7, F6, F5, G4, G2. exact F1. }
  assert (St7 : g_stop_generation_id (gs_globals s7) = v).
  { rewrite G7, St6, St5, G4, G2. exact St1. }
  assert (Hr : split_reset iter = None).
  { unfold iter. simpl.
    now rewrite (split_reset_app_none new4 [EvSample tok; EvStopLoad v] Q4r eq_refl). }
  assert (Hsm : sampled iter = [tok]).
  { unfold iter. simpl. now rewrite sampled_app, Q4s. }
  assert (Hdc : decoded iter = [[mkSlot tok n_cur 1 0 true]]).
  { unfold iter. simpl. now rewrite decoded_app, Q4d. }
  assert (Hcb : callbacks iter = callbacks new4).
  { unfold iter. simpl. rewrite callbacks_app. reflexivity. }
  assert (Hl : ~ In (EvStopLoad id) iter).
  { unfold iter. intros [Hin|[Hin|[Hin|Hin]]]; try discriminate.
    apply in_app_or in Hin. destruct Hin as [Hin|Hin]; [exact (Q4l _ Hin)|].
    destruct Hin as [Hin|[Hin|[]]]; [discriminate|congruence]. }
  assert (Hcont : continuing be [tok] = [tok])
    by (unfold continuing; simpl; now rewrite Heog).
  assert (Qe : Forall (fun e => ends_call be e = false)
                      (EvBatchAdd idx (mkSlot tok n_cur 1 0 true)
                         :: EvBatchClear :: new4 ++ [EvSample tok; EvStopLoad v])).
  { constructor; [reflexivity|]. constructor; [reflexivity|].
    apply Forall_app. split; [exact Q4e|].
    constructor; [exact Heog|]. constructor; [reflexivity|constructor]. }
  destruct (Z.eqb_spec ret 0) as [Hok|Hfail]; cbn [negb] in H.
  2:{ inversion H; subst response' n_gen' s'. exists iter.
    split; [exact Ev7'|]. split; [exact F7|]. split; [exact Hr|].
    rewrite Hsm, Hdc, Hcont, feedback_entries_cons. cbn [length].
    split; [reflexivity|]. split; [lia|].
    split; [intros Hin; destruct (Hl Hin)|].
    split; [intros _ _ Hin; exact (Hl Hin)|].
    split.
    { unfold iter. intros e [<-|Hin] He; [eexists; reflexivity|].
      destruct (ends_call_in _ _ _ Qe Hin He). }
    intros piece C. destruct (Q4p piece C) as [R1 C1].
    rewrite Hcb, C1, R1. cbn [map concat List.filter]. rewrite app_nil_r.
    split; [reflexivity|]. destruct (nonempty (piece tok)); reflexivity. }
  destruct (IH _ _ _ _ _ _ _ H) as (new8 & Ev8 & F8 & R8 & D8 & P8 & L8 & Q8 & E8 & C8).
  exists (new8 ++ iter).
  split; [rewrite Ev8, Ev7', <- app_assoc; reflexivity|].
  split; [congruence|].
  split; [now apply split_reset_app_none|].
  rewrite sampled_app, decoded_app, callbacks_app, Hsm, Hdc, Hcb.
  rewrite continuing_app, Hcont. cbn [app].
  rewrite feedback_entries_cons.
  split; [now rewrite D8|].
  split.
  { destruct (call_frame_plan _ _ F7) as (Hc & _). rewrite Hc in P8.
    cbn [length]. lia. }
  split.
  { intros Hin. apply in_app_or in Hin. destruct Hin as [Hin|Hin]; [|tauto].
    destruct (L8 Hin) as (older & ->). eexists. reflexivity. }
  split.
  { intros Hq _ Hin. apply in_app_or in Hin. destruct Hin as [Hin|Hin]; [|tauto].
    apply (Q8 Hq); [congruence|exact Hin]. }
  split.
  { intros e Hin He. apply in_app_or in Hin. destruct Hin as [Hin|Hin].
    - destruct (E8 e Hin He) as (older & ->). eexists. reflexivity.
    - exfalso. unfold iter in Hin. destruct Hin as [<-|Hin].
      + simpl in He. subst ret. discriminate He.
      + exact (ends_call_in _ _ _ Qe Hin He). }
  intros piece C. destruct (Q4p piece C) as [R1 C1]. destruct (C8 piece C) as [R2 C2].
  split.
  { rewrite R2, R1. simpl. now rewrite <- app_assoc. }
  rewrite C1, C2. simpl. destruct (nonempty (piece tok)); reflexivity.
Qed.

End Traces.

Lemma tokenize_prompt_trace be text add_special s :
  let s' := snd (tokenize_prompt be text add_special s) in
  gs_globals s' = gs_globals s /\
  exists new, gs_events s' = new ++ gs_events s /\
    decoded new = [] /\ sampled new = [] /\ callbacks new = [] /\
    split_reset new = None /\ (forall v, ~ In (EvStopLoad v) new) /\
    Forall (fun e => ends_call be e = false) new.
Proof.
  unfold tokenize_prompt. destruct (g_vocab (gs_globals s)).
  2:{ simpl. split; [reflexivity|]. exists []. simpl. repeat split; auto. }
  cbv zeta. destruct (llama_tokenize be text _ add_special) as [r0 w0].
  destruct (r0 <? 0).
  - destruct (llama_tokenize be text _ add_special) as [r1 w1].
    destruct (r1 <? 0); simpl; (split; [reflexivity|]);
      eexists [_; _]; simpl;
      (split; [reflexivity|]); (split; [reflexivity|]); (split; [reflexivity|]);
      (split; [reflexivity|]); (split; [reflexivity|]);
      (split; [intros v Hin; intuition discriminate|repeat constructor]).
  - destruct (r0 <? 0); simpl; (split; [reflexivity|]);
      eexists [_]; simpl;
      (split; [reflexivity|]); (split; [reflexivity|]); (split; [reflexivity|]);
      (split; [reflexivity|]); (split; [reflexivity|]);
      (split; [intros v Hin; intuition discriminate|repeat constructor]).
Qed.

Lemma call_summary_prompt_only be others st prompt maxTokens r s :
  call_frame (gs_globals s)
  = call_frame (if entered r
                then set_generation_id (uint64_wrap (g_generation_id st + 1)) st
                else st) ->
  entered r = session_ready st && negb (g_is_generating st) ->
  split_reset (gs_events s) = None ->
  sampled (gs_events s) = [] -> callbacks (gs_events s) = [] ->
  (is_response r = true ->
   r = Response [] /\
   exists older, gs_events s = EvStopLoad (uint64_wrap (g_generation_id st + 1)) :: older) ->
  (quiet others (uint64_wrap (g_generation_id st + 1)) ->
   uint64_wrap (g_generation_id st + 1) <> 0 ->
   ~ In (EvStopLoad (uint64_wrap (g_generation_id st + 1))) (gs_events s)) ->
  (In (EvStopLoad (uint64_wrap (g_generation_id st + 1))) (gs_events s) ->
   exists older,
     gs_events s = EvStopLoad (uint64_wrap (g_generation_id st + 1)) :: older) ->
  (llama_get_memory be = true -> decoded (gs_events s) <> [] ->
   exists newer older,
     gs_events s = newer ++ EvMemoryClear :: older /\ decoded older = []) ->
  (forall e, In e (gs_events s) -> ends_call be e = true ->
     exists older, gs_events s = e :: older) ->
  (r = ErrPromptEvalFailed <->
   exists view ret older, gs_events s = EvDecode view ret :: older /\ ret <> 0) ->
  call_summary be others st prompt maxTokens r s.
Proof.
  intros F E R S C Hresp Hq Hp Hmem Hends Hfail.
  unfold call_summary, prompt_phase, token_phase.
  rewrite R, S, C. simpl.
  split; [exact F|]. split; [exact E|]. split; [auto|].
  split; [intros Hr _; exact (Hresp Hr)|].
  split; [reflexivity|]. split; [reflexivity|]. split; [lia|].
  split; [intros []|].
  split; [intros Hin; destruct (Hp Hin) as (older & Ho); exists older; now left|].
  split; [exact Hq|]. split; [exact Hmem|]. split; [exact Hends|].
  split; [rewrite Hfail; tauto|].
  intros piece _. split; [reflexivity|].
  intros text ->. destruct (Hresp eq_refl) as [Ht _]. now inversion Ht.
Qed.

Lemma c_str_nil : c_str [] = [].
Proof. reflexivity. Qed.

(** Goals about a call that left no event. *)
Ltac no_events :=
  match goal with
  | |- _ <-> _ => split; [discriminate|intros (? & ? & ? & Hev & _); discriminate Hev]
  | |- forall e, _ -> ends_call _ e = true -> _ => intros e []
  | |- _ = true -> _ <> _ -> _ => intros _ Hd; now destruct Hd
  | |- _ -> _ => intros []
  end.

(** Every returning call satisfies [call_summary]. *)
Lemma generate_trace be others fuel prompt maxTokens onToken_found st r s :
  generate be others fuel prompt maxTokens onToken_found st = Done (r, s) ->
  call_summary be others st prompt maxTokens r s.
Proof.
  unfold generate. intros H.
  destruct (session_ready st) eqn:Hready; cbn [negb] in H.
  2:{ inversion H; subst r s.
      apply call_summary_prompt_only; simpl; auto; try discriminate; try no_events.
      now rewrite Hready. }
  destruct (g_is_generating st) eqn:Hgen.
  { inversion H; subst r s.
    apply call_summary_prompt_only; simpl; auto; try discriminate; try no_events.
    now rewrite Hready, Hgen. }
  set (id := uint64_wrap (g_generation_id st + 1)) in *.
  set (s0 := with_globals (set_stop_generation_id 0)
               (with_globals (set_generation_id id)
                  (with_globals (set_is_generating true) (mkGenState st [] O O O)))) in *.
  assert (Hexit : forall x : gen_state,
            call_frame (gs_globals x) = call_frame (gs_globals s0) ->
            call_frame (gs_globals (with_globals (set_is_generating false) x))
            = call_frame (set_generation_id id st)).
  { intros x Hx. unfold call_frame, plan_of, batch_capacity in *. simpl in *.
    inversion Hx. rewrite Hgen. reflexivity. }
  assert (Hent : true = session_ready st && negb (g_is_generating st))
    by (now rewrite Hready, Hgen).
  destruct onToken_found; cbn [negb] in H.
  2:{ inversion H; subst r s.
      apply call_summary_prompt_only; cbn [entered is_response]; fold id;
        auto; try discriminate; try no_events. }
  pose proof (tokenize_prompt_trace be prompt true s0) as T. cbv zeta in T.
  pose proof (evaluated_prompt_entry be st prompt maxTokens s0 eq_refl eq_refl eq_refl) as HE.
  change (clamp_max_tokens (gs_globals s0) maxTokens)
    with (clamp_max_tokens st maxTokens) in HE.
  change (g_context_size (gs_globals s0)) with (g_context_size st) in HE.
  repeat match type of H with
         | context [tokenize_prompt be prompt true ?x] =>
           progress change x with s0 in H
         | context [clamp_max_tokens ?g maxTokens] =>
           progress change (clamp_max_tokens g maxTokens)
             with (clamp_max_tokens st maxTokens) in H
         | context [uint64_wrap ?g] => progress change (uint64_wrap g) with id in H
         end.
  destruct (tokenize_prompt be prompt true s0) as [tokens s1]. cbn [fst snd] in T, HE.
  destruct T as (G1 & new1 & Ev1 & Q1d & Q1s & Q1c & Q1r & Q1l & Q1e).
  change (gs_events s0) with (@nil event) in Ev1. rewrite app_nil_r in Ev1.
  destruct tokens as [|t0 tokens0].
  { inversion H; subst r s.
    apply call_summary_prompt_only; cbn [entered is_response gs_events with_globals];
      fold id; rewrite ?Ev1; auto; try discriminate.
    all: match goal with
         | |- call_frame _ = _ => apply Hexit; now rewrite G1
         | |- quiet _ _ -> _ => intros _ _; apply Q1l
         | |- In _ _ -> _ => intros Hin; destruct (Q1l _ Hin)
         | |- _ = true -> _ => intros _ Hd; destruct Hd; exact Q1d
         | |- forall e, _ => intros e Hin He; destruct (ends_call_in _ _ _ Q1e Hin He)
         | |- _ <-> _ =>
           split; [discriminate|intros (view & ret & older & Hev & Hret)];
           exfalso; apply (ends_call_in be new1 (EvDecode view ret) Q1e);
           [rewrite Hev; now left|simpl; now destruct (Z.eqb_spec ret 0)]
         end. }
  set (tokens := t0 :: tokens0) in *.
  set (s2 := if llama_get_memory be then emit EvMemoryClear s1 else s1) in *.
  assert (G2 : gs_globals s2 = gs_globals s0)
    by (unfold s2; destruct (llama_get_memory be); simpl; assumption).
  assert (Ev2 : exists new2, gs_events s2 = new2 /\ sampled new2 = []
                  /\ callbacks new2 = [] /\ split_reset new2 = None
                  /\ (forall v, ~ In (EvStopLoad v) new2)
                  /\ (llama_get_memory be = true -> new2 = EvMemoryClear :: new1)
                  /\ Forall (fun e => ends_call be e = false) new2).
  { unfold s2. destruct (llama_get_memory be); simpl; rewrite Ev1;
      eexists; (split; [reflexivity|]); simpl; rewrite ?Q1r, ?Q1s, ?Q1c;
      (split; [reflexivity|]); (split; [reflexivity|]); (split; [reflexivity|]);
      (split; [|split; [auto; discriminate|auto]]); auto.
    intros v [Hin|Hin]; [discriminate|exact (Q1l v Hin)]. }
  destruct Ev2 as (new2 & Ev2 & Q2s & Q2c & Q2r & Q2l & Q2m & Q2e).
  assert (Hmem : forall newer,
            llama_get_memory be = true ->
            exists a b, newer ++ new2 = a ++ EvMemoryClear :: b /\ decoded b = []).
  { intros newer Hm. exists newer, new1. now rewrite (Q2m Hm). }
  rewrite G2 in H. change (g_context_size (gs_globals s0)) with (g_context_size st) in H.
  rewrite HE in H.
  set (toks := evaluated_prompt be st prompt maxTokens) in *.
  destruct (prefill_loop be others fuel toks (Z.of_nat (length toks)) id 0 s2)
    as [[rp s3]| |] eqn:E3; cbn [mbind outcome_bind] in H; try discriminate.
  destruct (prefill_loop_trace be others _ _ _ _ _ _ _ _ E3)
    as (new3 & Ev3 & F3 & Q3s & Q3c & Q3r & Q3q & Q3l & Q3e & Q3n).
  assert (Hends3 : forall newer e,
            Forall (fun x => ends_call be x = false) newer ->
            rp <> None ->
            In e (newer ++ new3 ++ new2) -> ends_call be e = true -> False).
  { intros newer e Hn Hrp Hin He.
    apply in_app_or in Hin. destruct Hin as [Hin|Hin];
      [exact (ends_call_in _ _ _ Hn Hin He)|].
    apply in_app_or in Hin. destruct Hin as [Hin|Hin];
      [|exact (ends_call_in _ _ _ Q2e Hin He)].
    destruct (Q3e e Hin He) as (Hnone & _). exact (Hrp Hnone). }
  rewrite Ev2 in Ev3. rewrite G2 in F3, Q3q.
  change (g_stop_generation_id (gs_globals s0)) with 0 in Q3q.
  assert (Q32 : split_reset (new3 ++ new2) = None) by (now apply split_reset_app_none).
  destruct rp as [np|].
  2:{ inversion H; subst r s.
      apply call_summary_prompt_only; cbn [entered is_response gs_events with_globals];
        fold id; rewrite ?Ev3, ?sampled_app, ?callbacks_app, ?Q2s, ?Q2c, ?Q3s, ?Q3c;
        auto; try discriminate.
      all: match goal with
           | |- call_frame _ = _ => apply Hexit; congruence
           | |- quiet _ _ -> _ =>
             intros Hq Hid Hin; apply in_app_or in Hin; destruct Hin as [Hin|Hin];
             [destruct Q3q as [_ Hn]; auto|exact (Q2l _ Hin)]
           | |- In _ _ -> _ =>
             intros Hin; apply in_app_or in Hin; destruct Hin as [Hin|Hin];
             [destruct (Q3l Hin) as [Hnone _]; now destruct Hnone
             |destruct (Q2l _ Hin)]
           | |- _ = true -> _ => intros Hm _; exact (Hmem new3 Hm)
           | |- forall e, _ =>
             intros e Hin He; apply in_app_or in Hin; destruct Hin as [Hin|Hin];
             [destruct (Q3e e Hin He) as (_ & older & ->); eexists; reflexivity
             |destruct (ends_call_in _ _ _ Q2e Hin He)]
           | |- _ <-> _ =>
             split; [intros _|reflexivity];
             destruct (Q3n eq_refl) as (view & ret & older & -> & Hret);
             eexists _, _, _; split; [reflexivity|exact Hret]
           end. }
  pose proof (load_stop_trace others s3) as L. cbv zeta in L.
  destruct (load_stop_generation_id others s3) as [v s4]. cbn [fst snd] in L.
  destruct L as (Ev4 & F4 & St4 & Hv).
  rewrite Ev3 in Ev4.
  assert (Hq4 : split_reset (EvStopLoad v :: new3 ++ new2) = None).
  { simpl. now rewrite Q32. }
  destruct (Z.eqb_spec v id) as [Hstop|Hgo].
  { inversion H; subst r s.
    apply call_summary_prompt_only; cbn [entered is_response gs_events with_globals];
      fold id; rewrite ?Ev4; auto.
    all: match goal with
         | |- call_frame _ = _ => apply Hexit; congruence
         | |- sampled _ = _ => cbn [sampled]; now rewrite sampled_app, Q2s, Q3s
         | |- callbacks _ = _ => cbn [callbacks]; now rewrite callbacks_app, Q2c, Q3c
         | |- _ = true -> _ =>
           intros _; split; [reflexivity|]; exists (new3 ++ new2); congruence
         | |- quiet _ _ -> _ =>
           intros Hq Hid _; destruct Q3q as [Hs3 _]; auto;
           destruct Hv as [Hv|[k Hk]]; [congruence|]; apply (Hq k); congruence
         | |- In _ _ -> _ => intros _; exists (new3 ++ new2); congruence
         | |- _ = true -> _ <> _ -> _ =>
           intros Hm _; exact (Hmem (EvStopLoad v :: new3) Hm)
         | |- forall e, _ =>
           intros e Hin He; exfalso;
           apply (Hends3 [EvStopLoad v] e); [repeat constructor|discriminate|exact Hin|exact He]
         | |- _ <-> _ =>
           split; [discriminate|intros (? & ? & ? & Hev & _); discriminate Hev]
         end. }
  set (s5 := emit EvSamplerReset s4) in *.
  destruct (decode_loop be others fuel (clamp_max_tokens st maxTokens) id
              (Z.of_nat (length toks)) 0 [] s5) as [[[resp ng] s6]| |] eqn:E6;
    cbn [mbind outcome_bind] in H; try discriminate.
  inversion H; subst r s. clear H.
  destruct (decode_loop_trace be others _ _ _ _ _ _ _ _ _ _ E6)
    as (new6 & Ev6 & F6 & R6 & D6 & P6 & L6 & Q6 & E6' & C6).
  assert (Ev6' : gs_events s6 = new6 ++ EvSamplerReset :: EvStopLoad v :: new3 ++ new2).
  { rewrite Ev6. unfold s5. simpl. now rewrite Ev4. }
  assert (Hsplit : split_reset (gs_events s6)
                   = Some (new6, EvStopLoad v :: new3 ++ new2))
    by (rewrite Ev6'; now apply split_reset_app_reset).
  assert (Hsam : sampled (gs_events s6) = sampled new6).
  { rewrite Ev6', sampled_app. cbn [sampled]. now rewrite sampled_app, Q2s, Q3s. }
  assert (Hcbs : callbacks (gs_events s6) = callbacks new6).
  { rewrite Ev6', callbacks_app. cbn [callbacks]. now rewrite callbacks_app, Q2c, Q3c. }
  unfold call_summary, prompt_phase, token_phase.
  cbn [gs_events with_globals gs_globals entered is_response]. fold id. fold toks.
  rewrite Hsplit, Hsam, Hcbs.
  split.
  { apply Hexit. rewrite F6. unfold s5. cbn [emit gs_globals]. congruence. }
  split; [exact Hent|]. split; [discriminate|]. split; [discriminate|].
  split; [cbn [sampled]; now rewrite sampled_app, Q2s, Q3s|].
  split; [exact D6|].
  split.
  { assert (Hc : g_context_size (gs_globals s5) = g_context_size st).
    { unfold s5. cbn [emit gs_globals].
      destruct (call_frame_plan _ _ F4) as (-> & _).
      destruct (call_frame_plan _ _ F3) as (-> & _). reflexivity. }
    now rewrite <- Hc. }
  split; [exact L6|].
  split.
  { intros [Hin|Hin]; [congruence|].
    apply in_app_or in Hin. destruct Hin as [Hin|Hin]; [|destruct (Q2l _ Hin)].
    destruct (Q3l Hin) as (_ & older & ->).
    exists (older ++ new2). right. exists v. reflexivity. }
  split.
  { intros Hq Hid Hin. rewrite Ev6' in Hin.
    destruct Q3q as [Hs3 Hn3]; auto.
    assert (Hv' : v <> id) by exact Hgo.
    apply in_app_or in Hin. destruct Hin as [Hin|[Hin|[Hin|Hin]]].
    - apply (Q6 Hq); [|exact Hin]. unfold s5. cbn [emit gs_globals]. congruence.
    - discriminate.
    - congruence.
    - apply in_app_or in Hin. destruct Hin as [Hin|Hin]; [tauto|exact (Q2l _ Hin)]. }
  split.
  { intros Hm _. rewrite Ev6'.
    destruct (Hmem (new6 ++ EvSamplerReset :: EvStopLoad v :: new3) Hm) as (a & b & Hab & Hb).
    exists a, b. split; [|exact Hb]. rewrite <- Hab, <- !app_assoc. reflexivity. }
  split.
  { intros e Hin He. rewrite Ev6' in *.
    apply in_app_or in Hin. destruct Hin as [Hin|Hin].
    - destruct (E6' e Hin He) as (older & ->). eexists. reflexivity.
    - exfalso.
      apply (Hends3 [EvSamplerReset; EvStopLoad v] e);
        [repeat constructor|discriminate|exact Hin|exact He]. }
  split; [split; [discriminate|intros [Hn _]; discriminate Hn]|].
  intros piece C. destruct (C6 piece C) as [R C']. split; [exact C'|].
  intros text Ht. inversion Ht. now rewrite R.
Qed.

(** ** What every call guarantees *)

Lemma generate_returns_summary be others fuel prompt maxTokens onToken_found st :
  configured st ->
  (fuel_needed be st prompt maxTokens <= fuel)%nat ->
  exists r s,
    generate be others fuel prompt maxTokens onToken_found st = Done (r, s) /\
    generate_post be st prompt maxTokens r s /\
    call_summary be others st prompt maxTokens r s.
Proof.
  intros C Hfuel.
  destruct (generate_returns be others fuel prompt maxTokens onToken_found st C Hfuel)
    as (r & s & E & P).
  exists r, s. split; [exact E|]. split; [exact P|]. now apply generate_trace in E.
Qed.

Lemma loaded_phone_configured : configured loaded_phone.
Proof.
  split; [vm_compute; discriminate|].
  split; [vm_compute; discriminate|]. intros _. vm_compute. reflexivity.
Qed.

Lemma hello_fuel : (fuel_needed toy_backend loaded_phone "Hello" 1000 <= 300)%nat.
Proof. vm_compute. repeat constructor. Qed.

(** ** The prompt phase as a whole *)

(** Which checks the two early error results come from. *)
Lemma generate_result_cases be others fuel prompt maxTokens onToken_found st r s :
  generate be others fuel prompt maxTokens onToken_found st = Done (r, s) ->
  (r = ErrCallbackUnavailable -> onToken_found = false) /\
  (r = ErrTokenizationFailed ->
   fst (tokenize_prompt be prompt true (mkGenState st [] O O O)) = []).
Proof.
  unfold generate. intros H.
  destruct (session_ready st); cbn [negb] in H;
    [|inversion H; split; discriminate].
  destruct (g_is_generating st); [inversion H; split; discriminate|].
  destruct onToken_found; cbn [negb] in H;
    [|inversion H; split; [reflexivity|discriminate]].
  match type of H with
  | context [tokenize_prompt be prompt true ?s0] =>
    pose proof (tokenize_prompt_tokens be prompt true s0 (mkGenState st [] O O O) eq_refl)
      as Ht;
    destruct (tokenize_prompt be prompt true s0) as [tokens s1]
  end.
  cbn [fst] in Ht.
  destruct tokens as [|t tokens].
  { inversion H. split; [discriminate|]. intros _. symmetry. exact Ht. }
  match type of H with
  | context [prefill_loop ?a ?b ?c ?d ?e ?f ?g ?h] =>
    destruct (prefill_loop a b c d e f g h) as [[[n0|] s2]| |]
  end; cbn [mbind outcome_bind] in H; try discriminate H.
  2:{ inversion H. split; discriminate. }
  match type of H with
  | context [load_stop_generation_id ?a ?b] =>
    destruct (load_stop_generation_id a b) as [v s3]
  end.
  match type of H with
  | context [if ?c then _ else _] => destruct c
  end; [inversion H; split; discriminate|].
  match type of H with
  | context [decode_loop ?a ?b ?c ?d ?e ?f ?g ?h ?i] =>
    destruct (decode_loop a b c d e f g h i) as [[[resp ng] s4]| |]
  end; cbn [mbind outcome_bind] in H; try discriminate H.
  inversion H. split; discriminate.
Qed.

(** A call that was let in, found its callback, saw every decode of the
    prompt phase succeed and read no stop request for itself there has
    submitted the whole prompt. *)
Lemma prompt_fully_evaluated be others fuel prompt maxTokens onToken_found st r s :
  generate be others fuel prompt maxTokens onToken_found st = Done (r, s) ->
  generate_post be st prompt maxTokens r s ->
  session_ready st = true -> g_is_generating st = false -> onToken_found = true ->
  (forall view ret, In (EvDecode view ret) (prompt_phase (gs_events s)) -> ret = 0) ->
  ~ In (EvStopLoad (uint64_wrap (g_generation_id st + 1))) (prompt_phase (gs_events s)) ->
  concat (decoded (prompt_phase (gs_events s)))
  = prompt_entries (evaluated_prompt be st prompt maxTokens)
                   (length (evaluated_prompt be st prompt maxTokens)).
Proof.
  intros E P Hready Hidle Hfound Hok Hstop.
  pose proof (generate_trace _ _ _ _ _ _ _ _ _ E) as S.
  destruct (generate_result_cases _ _ _ _ _ _ _ _ _ E) as [Hcb Htok].
  destruct S as (_ & Hent & _ & Hresp & _ & _ & _ & _ & _ & _ & _ & _ & Hfail & _).
  destruct P as (_ & _ & _ & _ & (n & Hn & Hcat & Hfull) & _).
  rewrite Hready, Hidle in Hent. simpl in Hent.
  destruct r; try discriminate Hent.
  - specialize (Hcb eq_refl). congruence.
  - specialize (Htok eq_refl).
    assert (Hnil : evaluated_prompt be st prompt maxTokens = []).
    { unfold evaluated_prompt. rewrite Htok. apply truncate_prompt_nil. }
    rewrite Hcat. rewrite Hnil in *. simpl in Hn.
    replace n with O by lia. reflexivity.
  - destruct (proj1 Hfail eq_refl) as (Hsplit & view & ret & older & Hev & Hret).
    exfalso. apply Hret. apply (Hok view). unfold prompt_phase. rewrite Hsplit, Hev.
    now left.
  - rewrite Hcat. f_equal. apply Hfull; [|exact Hstop].
    intros Hsplit. destruct (Hresp eq_refl Hsplit) as (_ & older & Hev).
    apply Hstop. unfold prompt_phase. rewrite Hsplit, Hev. now left.
Qed.

(** The logits flags of a whole prompt: off everywhere but at the last
    token. *)
Lemma prompt_entries_logits_all (toks : list llama_token) :
  map s_logits (prompt_entries toks (length toks))
  = replicate (length toks - 1) false ++ (if decide (toks = []) then [] else [true]).
Proof.
  unfold prompt_entries. rewrite map_map. simpl.
  destruct (decide (toks = [])) as [->|Hne]; [reflexivity|].
  assert (Hlen : length toks = S (length toks - 1)).
  { destruct toks; [congruence|simpl; lia]. }
  set (m := (length toks - 1)%nat) in *.
  rewrite Hlen at 1. rewrite seq_S, map_app. simpl.
  f_equal.
  - assert (G : forall a k, (a + k <= m)%nat ->
                map (fun x => Z.of_nat x =? Z.of_nat (length toks) - 1) (seq a k)
                = replicate k false).
    { intros a k. revert a. induction k as [|k IH]; intros a Ha; [reflexivity|].
      simpl. f_equal; [apply Z.eqb_neq; lia|]. apply IH. lia. }
    apply G. lia.
  - f_equal. apply Z.eqb_eq. lia.
Qed.

Lemma decodes_succeed_spec evs :
  decodes_succeed evs = true -> forall view ret, In (EvDecode view ret) evs -> ret = 0.
Proof.
  unfold decodes_succeed. rewrite forallb_forall. intros H view ret Hin.
  apply H in Hin. now apply Z.eqb_eq.
Qed.

Lemma never_reads_spec id evs : never_reads id evs = true -> ~ In (EvStopLoad id) evs.
Proof.
  unfold never_reads. rewrite forallb_forall. intros H Hin.
  apply H in Hin. rewrite Z.eqb_refl in Hin. discriminate.
Qed.

(** C7: during prompt evaluation every batch handed to the decoder holds at
    least one and at most [g_batch_size] entries and is exactly what was
    written since the batch was last cleared; the batches together are, in
    order, entries of the (truncated) prompt at positions 0, 1, ...; an
    entry asks for logits exactly when its position is [n_prompt - 1]. And
    the prompt is indeed submitted: in a call that was let in and found its
    callback, in which every decode of the prompt phase succeeded and no
    stop request for the call was read there, the batches together are all
    the entries of the prompt, with logits off for every token but the
    last. *)
Theorem prompt_evaluated_in_chunks be others fuel prompt maxTokens onToken_found st :
  configured st ->
  (fuel_needed be st prompt maxTokens <= fuel)%nat ->
  exists r s,
    generate be others fuel prompt maxTokens onToken_found st = Done (r, s) /\
    let evs := gs_events s in
    let toks := evaluated_prompt be st prompt maxTokens in
    let n_prompt := Z.of_nat (length toks) in
    Forall (fun v => (1 <= length v)%nat /\ Z.of_nat (length v) <= g_batch_size st)
           (decoded (prompt_phase evs)) /\
    batch_discipline (g_batch_size st) evs /\
    (exists n, (n <= length toks)%nat /\
       concat (decoded (prompt_phase evs)) = prompt_entries toks n) /\
    (forall v e, In v (decoded (prompt_phase evs)) -> In e v ->
       (s_logits e = true <-> s_pos e = n_prompt - 1)) /\
    (session_ready st = true -> g_is_generating st = false -> onToken_found = true ->
     (forall view ret, In (EvDecode view ret) (prompt_phase evs) -> ret = 0) ->
     ~ In (EvStopLoad (uint64_wrap (g_generation_id st + 1))) (prompt_phase evs) ->
     concat (decoded (prompt_phase evs)) = prompt_entries toks (length toks) /\
     map s_token (concat (decoded (prompt_phase evs))) = toks /\
     map s_pos (concat (decoded (prompt_phase evs))) = map Z.of_nat (seq O (length toks)) /\
     map s_logits (concat (decoded (prompt_phase evs)))
     = replicate (length toks - 1) false ++ (if decide (toks = []) then [] else [true])).
Proof.
  intros C Hfuel.
  destruct (generate_returns be others fuel prompt maxTokens onToken_found st C Hfuel)
    as (r & s & E & P).
  exists r, s. split; [exact E|]. cbv zeta.
  pose proof (prompt_fully_evaluated be others fuel prompt maxTokens onToken_found st r s E P)
    as Hfull.
  destruct P as (Hd & _ & _ & _ & (n & Hn & Hcat & _) & Hall & _).
  split; [exact Hall|]. split; [exact Hd|].
  split; [exists n; split; assumption|].
  split.
  { intros v e Hv He.
    assert (Hin : In e (prompt_entries (evaluated_prompt be st prompt maxTokens) n)).
    { rewrite <- Hcat. apply in_concat. exists v. split; assumption. }
    rewrite (prompt_entries_logits _ _ _ Hin). apply Z.eqb_eq. }
  intros Hready Hidle Hfound Hok Hstop.
  rewrite (Hfull Hready Hidle Hfound Hok Hstop).
  split; [reflexivity|].
  split; [rewrite prompt_entries_tokens by lia; apply firstn_all|].
  split; [apply prompt_entries_positions|apply prompt_entries_logits_all].
Qed.

Lemma prompt_evaluated_in_chunks_witness :
  configured loaded_phone /\
  (fuel_needed toy_backend loaded_phone long_prompt 2 <= 300)%nat /\
  exists r s,
    generate toy_backend nobody 300 long_prompt 2 true loaded_phone = Done (r, s) /\
    Forall (fun v => (1 <= length v)%nat /\ Z.of_nat (length v) <= 128)
           (decoded (prompt_phase (gs_events s))) /\
    map s_token (concat (decoded (prompt_phase (gs_events s))))
    = evaluated_prompt toy_backend loaded_phone long_prompt 2 /\
    map s_logits (concat (decoded (prompt_phase (gs_events s))))
    = replicate 130 false ++ [true].
Proof.
  assert (F : (fuel_needed toy_backend loaded_phone long_prompt 2 <= 300)%nat).
  { vm_compute. repeat constructor. }
  split; [exact loaded_phone_configured|]. split; [exact F|].
  destruct (prompt_evaluated_in_chunks toy_backend nobody 300 long_prompt 2 true
              loaded_phone loaded_phone_configured F) as (r & s & E & H & _ & _ & _ & Hfull).
  exists r, s. split; [exact E|]. split; [exact H|].
  assert (E' := E). vm_compute in E'. injection E' as Hr Hs.
  destruct Hfull as (_ & Ht & _ & Hl).
  - reflexivity.
  - reflexivity.
  - reflexivity.
  - apply decodes_succeed_spec. rewrite <- Hs. vm_compute. reflexivity.
  - apply never_reads_spec. rewrite <- Hs. vm_compute. reflexivity.
  - split; [exact Ht|]. rewrite Hl. vm_compute. reflexivity.
Defined.

(** The 131 tokens of [long_prompt] go to the decoder as a batch of 128 and
    a batch of 3. *)
Example long_prompt_takes_two_chunks :
  match generate toy_backend nobody 300 long_prompt 2 true loaded_phone with
  | Done (_, s) => map (fun v => length v) (decoded (prompt_phase (gs_events s)))
  | _ => []
  end = [128; 3]%nat.
Proof. vm_compute. reflexivity. Qed.

(** X23: as long as the budget [g_context_size - maxTokens - 16] (with
    [maxTokens] clamped) is a value of type [int], a tokenized prompt longer
    than the budget is cut to its trailing [budget] tokens (none when the
    budget is negative) and a shorter one is kept as it is; the tokens
    submitted while the prompt is evaluated are leading tokens of that list
    at positions 0, 1, ..., and they are all of them in a call that was let
    in and found its callback, in which every decode of the prompt phase
    succeeded and no stop request for the call was read there. *)
Theorem prompt_truncation_in_range be others fuel prompt maxTokens onToken_found st :
  configured st ->
  (fuel_needed be st prompt maxTokens <= fuel)%nat ->
  in_int (g_context_size st - clamp_max_tokens st maxTokens - 16) ->
  let tokens := fst (tokenize_prompt be prompt true (mkGenState st [] O O O)) in
  let bound := g_context_size st - clamp_max_tokens st maxTokens - 16 in
  let toks := evaluated_prompt be st prompt maxTokens in
  (bound < Z.of_nat (length tokens) -> toks = trailing (Z.to_nat bound) tokens) /\
  (Z.of_nat (length tokens) <= bound -> toks = tokens) /\
  exists r s,
    generate be others fuel prompt maxTokens onToken_found st = Done (r, s) /\
    (exists n, (n <= length toks)%nat /\
       map s_token (concat (decoded (prompt_phase (gs_events s)))) = take n toks /\
       map s_pos (concat (decoded (prompt_phase (gs_events s)))) = map Z.of_nat (seq O n)) /\
    (session_ready st = true -> g_is_generating st = false -> onToken_found = true ->
     (forall view ret, In (EvDecode view ret) (prompt_phase (gs_events s)) -> ret = 0) ->
     ~ In (EvStopLoad (uint64_wrap (g_generation_id st + 1)))
          (prompt_phase (gs_events s)) ->
     map s_token (concat (decoded (prompt_phase (gs_events s)))) = toks /\
     map s_pos (concat (decoded (prompt_phase (gs_events s))))
     = map Z.of_nat (seq O (length toks))).
Proof.
  intros C Hfuel Hint. cbv zeta.
  destruct (truncate_prompt_trailing (g_context_size st) (clamp_max_tokens st maxTokens)
              (fst (tokenize_prompt be prompt true (mkGenState st [] O O O))) Hint)
    as [T1 T2].
  split; [exact T1|]. split; [exact T2|].
  destruct (generate_returns be others fuel prompt maxTokens onToken_found st C Hfuel)
    as (r & s & E & P).
  exists r, s. split; [exact E|].
  pose proof (prompt_fully_evaluated be others fuel prompt maxTokens onToken_found st r s E P)
    as Hfull.
  destruct P as (_ & _ & _ & _ & (n & Hn & Hcat & _) & _).
  split.
  { exists n. rewrite Hcat. split; [exact Hn|].
    split; [now apply prompt_entries_tokens|apply prompt_entries_positions]. }
  intros Hready Hidle Hfound Hok Hstop.
  rewrite (Hfull Hready Hidle Hfound Hok Hstop).
  split; [rewrite prompt_entries_tokens by lia; apply firstn_all|].
  apply prompt_entries_positions.
Qed.

Lemma prompt_truncation_in_range_witness :
  configured (set_context_size 20 loaded_phone) /\
  (fuel_needed toy_backend (set_context_size 20 loaded_phone) "Hello world" 2 <= 300)%nat /\
  in_int (g_context_size (set_context_size 20 loaded_phone)
          - clamp_max_tokens (set_context_size 20 loaded_phone) 2 - 16) /\
  evaluated_prompt toy_backend (set_context_size 20 loaded_phone) "Hello world" 2
  = trailing 2 [1; 72; 101; 108; 108; 111; 32; 119; 111; 114; 108; 100] /\
  exists r s,
    generate toy_backend nobody 300 "Hello world" 2 true (set_context_size 20 loaded_phone)
    = Done (r, s) /\
    map s_token (concat (decoded (prompt_phase (gs_events s)))) = [108; 100].
Proof.
  assert (C : configured (set_context_size 20 loaded_phone)).
  { split; [vm_compute; discriminate|].
    split; [vm_compute; discriminate|]. intros _. vm_compute. reflexivity. }
  assert (F : (fuel_needed toy_backend (set_context_size 20 loaded_phone) "Hello world" 2
               <= 300)%nat).
  { vm_compute. repeat constructor. }
  assert (R : in_int (g_context_size (set_context_size 20 loaded_phone)
                      - clamp_max_tokens (set_context_size 20 loaded_phone) 2 - 16)).
  { vm_compute. split; discriminate. }
  split; [exact C|]. split; [exact F|]. split; [exact R|].
  destruct (prompt_truncation_in_range toy_backend nobody 300 "Hello world" 2 true
              (set_context_size 20 loaded_phone) C F R) as (T & _ & r & s & E & _ & Hfull).
  split; [apply T; vm_compute; reflexivity|].
  exists r, s. split; [exact E|].
  assert (E' := E). vm_compute in E'. injection E' as Hr Hs.
  destruct Hfull as [Ht _].
  - reflexivity.
  - reflexivity.
  - reflexivity.
  - apply decodes_succeed_spec. rewrite <- Hs. vm_compute. reflexivity.
  - apply never_reads_spec. rewrite <- Hs. vm_compute. reflexivity.
  - rewrite Ht. vm_compute. reflexivity.
Defined.

Lemma split_reset_inv evs newer older :
  split_reset evs = Some (newer, older) -> evs = newer ++ EvSamplerReset :: older.
Proof.
  revert newer. induction evs as [|e evs IH]; intros newer H; [discriminate|].
  destruct e; simpl in H;
    try (destruct (split_reset evs) as [[a b]|]; [|discriminate];
         inversion H; subst; simpl; f_equal; now apply IH).
  inversion H; subst. reflexivity.
Qed.

Lemma split_reset_none evs :
  split_reset evs = None <-> ~ In EvSamplerReset evs.
Proof.
  split.
  - intros R Hin. apply in_split in Hin. destruct Hin as (a & b & Hab).
    rewrite Hab in R. clear Hab.
    induction a as [|e a IH]; simpl in R; [discriminate|].
    destruct e; try discriminate;
      (destruct (split_reset (a ++ EvSamplerReset :: b)) as [[? ?]|];
       [discriminate|now apply IH]).
  - intros Hno. destruct (split_reset evs) as [[newer older]|] eqn:E; [|reflexivity].
    destruct Hno. rewrite (split_reset_inv _ _ _ E). apply in_or_app. right. now left.
Qed.

Lemma decoded_phases evs :
  decoded evs = decoded (prompt_phase evs) ++ decoded (token_phase evs).
Proof.
  unfold prompt_phase, token_phase.
  destruct (split_reset evs) as [[newer older]|] eqn:E; [|now rewrite app_nil_r].
  rewrite (split_reset_inv _ _ _ E), decoded_app. reflexivity.
Qed.

Lemma prompt_phase_incl evs e : In e (prompt_phase evs) -> In e evs.
Proof.
  unfold prompt_phase.
  destruct (split_reset evs) as [[newer older]|] eqn:E; [|auto].
  rewrite (split_reset_inv _ _ _ E). intros H. apply in_or_app. right. now right.
Qed.

Lemma truncate_prompt_length context_size maxTokens (tokens : list llama_token) :
  in_int (context_size - maxTokens - 16) ->
  Z.of_nat (length (truncate_prompt context_size maxTokens tokens))
  <= Z.max 0 (context_size - maxTokens - 16).
Proof.
  intros R. unfold truncate_prompt. rewrite (int_wrap_id _ R).
  destruct (Z.ltb_spec (Z.max 0 (context_size - maxTokens - 16)) (Z.of_nat (length tokens)));
    [rewrite length_drop|]; lia.
Qed.

Lemma truncate_prompt_budget context_size maxTokens (tokens : list llama_token) :
  in_int (context_size - maxTokens - 16) ->
  truncate_prompt context_size maxTokens tokens
  = trailing (Z.to_nat (Z.max 0 (context_size - maxTokens - 16))) tokens.
Proof.
  intros R. unfold truncate_prompt, trailing. rewrite (int_wrap_id _ R).
  set (bound := context_size - maxTokens - 16).
  destruct (Z.ltb_spec (Z.max 0 bound) (Z.of_nat (length tokens))) as [Hlt|Hge].
  - f_equal. lia.
  - replace (length tokens - Z.to_nat (Z.max 0 bound))%nat with O by lia. reflexivity.
Qed.

Lemma c_str_clean (l : bytes) : ~ In NUL l -> c_str l = l.
Proof.
  induction l as [|c l IH]; simpl; [reflexivity|]. intros H.
  destruct (Ascii.eqb_spec c NUL) as [->|_]; [destruct H; now left|].
  f_equal. apply IH. intros Hin. apply H. now right.
Qed.

Lemma concat_nonempty (L : list bytes) : concat (List.filter nonempty L) = concat L.
Proof.
  induction L as [|x L IH]; simpl; [reflexivity|].
  destruct x; simpl; now rewrite IH.
Qed.

(** X10: a [generate] call hands the session back as it found it. Whatever the
    library and the other threads do, the call returns with the generating
    flag as it was on entry (a call that got in has cleared it again on every
    return path, a refused call has not touched it), with the session
    handles, the batch allocation and the resource plan unchanged, and with
    the generation counter advanced by exactly one, modulo 2^64, when the
    call got past the loaded check and the flag, and not at all otherwise. *)
Theorem generate_footprint be others fuel prompt maxTokens onToken_found st :
  configured st ->
  (fuel_needed be st prompt maxTokens <= fuel)%nat ->
  exists r s,
    generate be others fuel prompt maxTokens onToken_found st = Done (r, s) /\
    isGenerating (gs_globals s) = isGenerating st /\
    isModelLoaded (gs_globals s) = isModelLoaded st /\
    g_vocab (gs_globals s) = g_vocab st /\
    session_resources (gs_globals s) = session_resources st /\
    plan_of (gs_globals s) = plan_of st /\
    entered r = session_ready st && negb (g_is_generating st) /\
    g_generation_id (gs_globals s)
    = (if entered r then uint64_wrap (g_generation_id st + 1) else g_generation_id st).
Proof.
  intros C Hfuel.
  destruct (generate_returns_summary be others fuel prompt maxTokens onToken_found st C Hfuel)
    as (r & s & E & _ & (F & Hent & _)).
  exists r, s. split; [exact E|].
  unfold call_frame, plan_of, isGenerating, isModelLoaded, session_resources in *.
  destruct (entered r); simpl in F; inversion F as [[Hm Hc Hs Hv Hg Hi Hb H1 H2 H3 H4 H5 H6]];
    rewrite Hm, Hc, Hs, Hv, Hg, Hi, Hb, H1, H2, H3, H4, H5; repeat split; auto.
Qed.

Lemma generate_footprint_witness :
  configured loaded_phone /\
  (fuel_needed toy_backend loaded_phone "Hello" 1000 <= 300)%nat /\
  exists r s,
    generate toy_backend nobody 300 "Hello" 1000 true loaded_phone = Done (r, s) /\
    isGenerating (gs_globals s) = false /\
    entered r = true /\ g_generation_id (gs_globals s) = 1.
Proof.
  split; [exact loaded_phone_configured|]. split; [exact hello_fuel|].
  destruct (generate_footprint toy_backend nobody 300 "Hello" 1000 true loaded_phone
              loaded_phone_configured hello_fuel)
    as (r & s & E & Hg & _ & _ & _ & _ & He & Hi).
  exists r, s. split; [exact E|]. split; [exact Hg|]. split; [exact He|].
  rewrite Hi, He. reflexivity.
Defined.

(** X11: a call that returns one of the error messages has streamed nothing:
    no token was sampled, no fragment reached the callback and the sampler
    was never reset; and a call turned away at the loaded check or at the
    flag has done nothing at all, it made no library call and returns the
    globals as they were. *)
Theorem failed_call_streams_nothing be others fuel prompt maxTokens onToken_found st :
  configured st ->
  (fuel_needed be st prompt maxTokens <= fuel)%nat ->
  exists r s,
    generate be others fuel prompt maxTokens onToken_found st = Done (r, s) /\
    (is_response r = false ->
     sampled (gs_events s) = [] /\ callbacks (gs_events s) = [] /\
     ~ In EvSamplerReset (gs_events s) /\ decoded (token_phase (gs_events s)) = []) /\
    (entered r = false -> s = mkGenState st [] O O O) /\
    (onToken_found = false -> is_response r = false).
Proof.
  intros C Hfuel.
  destruct (generate_returns_summary be others fuel prompt maxTokens onToken_found st C Hfuel)
    as (r & s & E & _ & (_ & Hent & Herr & _)).
  exists r, s. split; [exact E|]. split; [|split].
  - intros Hr. destruct (Herr Hr) as (R & S & Cb).
    split; [exact S|]. split; [exact Cb|]. split.
    + now apply split_reset_none.
    + unfold token_phase. now rewrite R.
  - intros He. rewrite He in Hent. unfold generate in E.
    destruct (session_ready st); cbn [negb] in E; [|now inversion E].
    destruct (g_is_generating st); [now inversion E|discriminate Hent].
  - intros ->. unfold generate in E.
    destruct (session_ready st); cbn [negb] in E; [|now inversion E].
    destruct (g_is_generating st); now inversion E.
Qed.

Lemma failed_call_streams_nothing_witness :
  configured loaded_phone /\
  (fuel_needed toy_backend loaded_phone "Hello" 1000 <= 300)%nat /\
  exists r s,
    generate toy_backend nobody 300 "Hello" 1000 false loaded_phone = Done (r, s) /\
    is_response r = false /\ callbacks (gs_events s) = [].
Proof.
  split; [exact loaded_phone_configured|]. split; [exact hello_fuel|].
  destruct (failed_call_streams_nothing toy_backend nobody 300 "Hello" 1000 false loaded_phone
              loaded_phone_configured hello_fuel)
    as (r & s & E & Herr & _ & Hcb).
  exists r, s. split; [exact E|]. split; [exact (Hcb eq_refl)|].
  exact (proj1 (proj2 (Herr (Hcb eq_refl)))).
Defined.

(** X12: the token loop feeds back exactly what it sampled. Every sampled
    token that is not an end-of-generation token is decoded once, alone in
    its batch, with logits requested, and the k-th of them sits at position
    [n_prompt + k]; an end-of-generation token is never decoded. *)
Theorem sampled_tokens_are_fed_back be others fuel prompt maxTokens onToken_found st :
  configured st ->
  (fuel_needed be st prompt maxTokens <= fuel)%nat ->
  exists r s,
    generate be others fuel prompt maxTokens onToken_found st = Done (r, s) /\
    let n_prompt := Z.of_nat (length (evaluated_prompt be st prompt maxTokens)) in
    decoded (token_phase (gs_events s))
    = feedback_entries n_prompt (continuing be (sampled (gs_events s))) /\
    sampled (prompt_phase (gs_events s)) = [] /\
    Forall (fun t => llama_vocab_is_eog be t = false) (continuing be (sampled (gs_events s))).
Proof.
  intros C Hfuel.
  destruct (generate_returns_summary be others fuel prompt maxTokens onToken_found st C Hfuel)
    as (r & s & E & _ & (_ & _ & _ & _ & Hs & Hd & _)).
  exists r, s. split; [exact E|]. cbv zeta. split; [exact Hd|]. split; [exact Hs|].
  unfold continuing. apply List.Forall_forall. intros t Ht.
  apply filter_In in Ht. destruct Ht as [_ Ht]. now apply negb_true_iff in Ht.
Qed.

Lemma sampled_tokens_are_fed_back_witness :
  configured loaded_phone /\
  (fuel_needed toy_backend loaded_phone "Hello" 1000 <= 300)%nat /\
  exists r s,
    generate toy_backend nobody 300 "Hello" 1000 true loaded_phone = Done (r, s) /\
    decoded (token_phase (gs_events s))
    = feedback_entries 6 (continuing toy_backend (sampled (gs_events s))).
Proof.
  split; [exact loaded_phone_configured|]. split; [exact hello_fuel|].
  destruct (sampled_tokens_are_fed_back toy_backend nobody 300 "Hello" 1000 true loaded_phone
              loaded_phone_configured hello_fuel)
    as (r & s & E & Hd & _).
  exists r, s. split; [exact E|exact Hd].
Defined.

(** X13: as long as the budget [g_context_size - maxTokens - 16] (with
    [maxTokens] clamped) is a value of type [int], so that line 415 computes
    it without overflow, no token is submitted at a position outside the
    context window: in every batch handed to the decoder, during prompt
    evaluation and in the token loop, every entry's position is at least 0
    and below [g_context_size]; and unless that budget is negative, the
    prompt that is evaluated leaves room in the window for all [maxTokens]
    tokens and 16 more. *)
Theorem positions_within_context be others fuel prompt maxTokens onToken_found st :
  configured st ->
  (fuel_needed be st prompt maxTokens <= fuel)%nat ->
  in_int (g_context_size st - clamp_max_tokens st maxTokens - 16) ->
  exists r s,
    generate be others fuel prompt maxTokens onToken_found st = Done (r, s) /\
    (forall view e,
       In view (decoded (gs_events s)) -> In e view ->
       0 <= s_pos e < g_context_size st) /\
    (0 <= g_context_size st - clamp_max_tokens st maxTokens - 16 ->
     Z.of_nat (length (evaluated_prompt be st prompt maxTokens))
     + clamp_max_tokens st maxTokens + 16 <= g_context_size st).
Proof.
  intros C Hfuel Hint.
  destruct (generate_returns_summary be others fuel prompt maxTokens onToken_found st C Hfuel)
    as (r & s & E & P & (_ & _ & _ & _ & _ & Hd & Hb & _)).
  exists r, s. split; [exact E|].
  destruct P as (_ & _ & _ & _ & (n & Hn & Hcat & _) & _).
  destruct C as (_ & HM & _).
  pose proof (clamp_max_tokens_range st maxTokens HM) as Hclamp.
  pose proof (truncate_prompt_length (g_context_size st) (clamp_max_tokens st maxTokens)
                (fst (tokenize_prompt be prompt true (mkGenState st [] O O O))) Hint) as Hlen.
  fold (evaluated_prompt be st prompt maxTokens) in Hlen.
  set (toks := evaluated_prompt be st prompt maxTokens) in *.
  split; [|lia].
  intros view e Hview He. rewrite decoded_phases in Hview.
  apply in_app_or in Hview. destruct Hview as [Hview|Hview].
  - assert (Hin : In e (prompt_entries toks n)).
    { rewrite <- Hcat. apply in_concat. exists view. split; assumption. }
    unfold prompt_entries in Hin. apply in_map_iff in Hin.
    destruct Hin as (pos & <- & Hpos). apply in_seq in Hpos. simpl. lia.
  - rewrite Hd in Hview. unfold feedback_entries in Hview.
    apply list_elem_of_In, elem_of_lookup_imap in Hview.
    destruct Hview as (i & tok & -> & Hi).
    apply lookup_lt_Some in Hi.
    assert (Hl : length (decoded (token_phase (gs_events s)))
                 = length (continuing be (sampled (gs_events s)))).
    { rewrite Hd. unfold feedback_entries. apply length_imap. }
    destruct He as [<-|[]]. simpl. lia.
Qed.

Lemma positions_within_context_witness :
  configured loaded_phone /\
  (fuel_needed toy_backend loaded_phone "Hello" 1000 <= 300)%nat /\
  in_int (g_context_size loaded_phone - clamp_max_tokens loaded_phone 1000 - 16) /\
  exists r s,
    generate toy_backend nobody 300 "Hello" 1000 true loaded_phone = Done (r, s) /\
    forall view e,
      In view (decoded (gs_events s)) -> In e view -> 0 <= s_pos e < 512.
Proof.
  assert (R : in_int (g_context_size loaded_phone - clamp_max_tokens loaded_phone 1000 - 16)).
  { vm_compute. split; discriminate. }
  split; [exact loaded_phone_configured|]. split; [exact hello_fuel|]. split; [exact R|].
  destruct (positions_within_context toy_backend nobody 300 "Hello" 1000 true loaded_phone
              loaded_phone_configured hello_fuel R)
    as (r & s & E & H & _).
  exists r, s. split; [exact E|exact H].
Defined.

(** X14: with a library whose token-to-text conversion answers as promised,
    the text a call returns is made of the pieces of the sampled tokens, in
    order, up to the first end-of-generation token, read as a C string; the
    callback has received the non-empty ones among these pieces, each as a C
    string; and when no piece holds a NUL byte the returned text is the
    concatenation of the streamed fragments. *)
Theorem response_is_concatenated_pieces be others fuel prompt maxTokens onToken_found st piece :
  configured st ->
  (fuel_needed be st prompt maxTokens <= fuel)%nat ->
  piece_contract be piece ->
  exists r s,
    generate be others fuel prompt maxTokens onToken_found st = Done (r, s) /\
    let pieces := map piece (continuing be (sampled (gs_events s))) in
    callbacks (gs_events s) = map c_str (List.filter nonempty pieces) /\
    forall text, r = Response text ->
      text = c_str (concat pieces) /\
      ((forall tok, ~ In NUL (piece tok)) -> text = concat (callbacks (gs_events s))).
Proof.
  intros C Hfuel Hp.
  destruct (generate_returns_summary be others fuel prompt maxTokens onToken_found st C Hfuel)
    as (r & s & E & _ & S).
  exists r, s. split; [exact E|]. cbv zeta.
  destruct S as (_ & _ & _ & _ & _ & _ & _ & _ & _ & _ & _ & _ & _ & Hc).
  destruct (Hc piece Hp) as [Hcb Ht].
  split; [exact Hcb|]. intros text Hr. split; [exact (Ht text Hr)|].
  intros Hclean. rewrite (Ht text Hr), Hcb.
  set (l := continuing be (sampled (gs_events s))).
  assert (Hall : forall L : list bytes,
            (forall x, In x L -> ~ In NUL x) -> map c_str L = L).
  { induction L as [|x L IH]; intros HL; simpl; [reflexivity|].
    rewrite c_str_clean by (apply HL; now left).
    f_equal. apply IH. intros y Hy. apply HL. now right. }
  rewrite Hall.
  2:{ intros x Hx. apply filter_In in Hx. destruct Hx as [Hx _].
      apply in_map_iff in Hx. destruct Hx as (tok & <- & _). apply Hclean. }
  rewrite concat_nonempty. apply c_str_clean.
  intros Hin. apply in_concat in Hin. destruct Hin as (x & Hx & Hnul).
  apply in_map_iff in Hx. destruct Hx as (tok & <- & _). exact (Hclean tok Hnul).
Qed.

Lemma response_is_concatenated_pieces_witness :
  configured loaded_phone /\
  (fuel_needed toy_backend loaded_phone "Hello" 1000 <= 300)%nat /\
  piece_contract toy_backend toy_piece /\
  exists r s,
    generate toy_backend nobody 300 "Hello" 1000 true loaded_phone = Done (r, s) /\
    forall text, r = Response text ->
      text = c_str (concat (map toy_piece (continuing toy_backend (sampled (gs_events s))))).
Proof.
  split; [exact loaded_phone_configured|]. split; [exact hello_fuel|].
  split; [exact toy_backend_contract|].
  destruct (response_is_concatenated_pieces toy_backend nobody 300 "Hello" 1000 true
              loaded_phone toy_piece loaded_phone_configured hello_fuel toy_backend_contract)
    as (r & s & E & _ & H).
  exists r, s. split; [exact E|]. intros text Hr. exact (proj1 (H text Hr)).
Defined.

(** X15: a generation is not cancelled by accident. When no other thread
    stores this generation's id into the stop counter while the call runs,
    and the id is not the sentinel 0, no check of the counter ever reads the
    id; a call that then returns text has got past the prompt phase with the
    whole (truncated) prompt evaluated. The budget
    [g_context_size - maxTokens - 16] (with [maxTokens] clamped) is taken in
    the range of [int], where line 415 computes it without overflow and the
    truncated prompt is the trailing part the budget allows. *)
Theorem no_spurious_cancellation be others fuel prompt maxTokens onToken_found st :
  configured st ->
  (fuel_needed be st prompt maxTokens <= fuel)%nat ->
  in_int (g_context_size st - clamp_max_tokens st maxTokens - 16) ->
  quiet others (uint64_wrap (g_generation_id st + 1)) ->
  uint64_wrap (g_generation_id st + 1) <> 0 ->
  let tokens := fst (tokenize_prompt be prompt true (mkGenState st [] O O O)) in
  let budget := Z.max 0 (g_context_size st - clamp_max_tokens st maxTokens - 16) in
  evaluated_prompt be st prompt maxTokens = trailing (Z.to_nat budget) tokens /\
  exists r s,
    generate be others fuel prompt maxTokens onToken_found st = Done (r, s) /\
    ~ In (EvStopLoad (uint64_wrap (g_generation_id st + 1))) (gs_events s) /\
    (is_response r = true ->
     In EvSamplerReset (gs_events s) /\
     concat (decoded (prompt_phase (gs_events s)))
     = prompt_entries (evaluated_prompt be st prompt maxTokens)
                      (length (evaluated_prompt be st prompt maxTokens))).
Proof.
  intros C Hfuel Hint Hq Hid. cbv zeta.
  split; [apply truncate_prompt_budget; exact Hint|].
  destruct (generate_returns_summary be others fuel prompt maxTokens onToken_found st C Hfuel)
    as (r & s & E & P & S).
  exists r, s. split; [exact E|].
  destruct S as (_ & _ & _ & Hresp & _ & _ & _ & _ & _ & Hno & _).
  specialize (Hno Hq Hid). split; [exact Hno|].
  intros Hr.
  destruct (split_reset (gs_events s)) as [[newer older]|] eqn:Hsplit.
  2:{ destruct (Hresp Hr eq_refl) as (_ & older & Hev).
      destruct Hno. rewrite Hev. now left. }
  split.
  { rewrite (split_reset_inv _ _ _ Hsplit). apply in_or_app. right. now left. }
  destruct P as (_ & _ & _ & _ & (n & Hn & Hcat & Hfull) & _).
  rewrite Hcat. f_equal. apply Hfull.
  - rewrite Hsplit. discriminate.
  - intros Hin. apply Hno. now apply prompt_phase_incl.
Qed.

Lemma nobody_is_quiet id : quiet nobody id.
Proof. intros k. discriminate. Qed.

Lemma no_spurious_cancellation_witness :
  configured loaded_phone /\
  (fuel_needed toy_backend loaded_phone "Hello" 1000 <= 300)%nat /\
  in_int (g_context_size loaded_phone - clamp_max_tokens loaded_phone 1000 - 16) /\
  quiet nobody (uint64_wrap (g_generation_id loaded_phone + 1)) /\
  uint64_wrap (g_generation_id loaded_phone + 1) <> 0 /\
  exists r s,
    generate toy_backend nobody 300 "Hello" 1000 true loaded_phone = Done (r, s) /\
    ~ In (EvStopLoad 1) (gs_events s).
Proof.
  assert (Hid : uint64_wrap (g_generation_id loaded_phone + 1) <> 0)
    by (vm_compute; discriminate).
  assert (R : in_int (g_context_size loaded_phone - clamp_max_tokens loaded_phone 1000 - 16)).
  { vm_compute. split; discriminate. }
  split; [exact loaded_phone_configured|]. split; [exact hello_fuel|]. split; [exact R|].
  split; [apply nobody_is_quiet|]. split; [exact Hid|].
  destruct (no_spurious_cancellation toy_backend nobody 300 "Hello" 1000 true loaded_phone
              loaded_phone_configured hello_fuel R (nobody_is_quiet _) Hid)
    as (_ & r & s & E & H & _).
  exists r, s. split; [exact E|exact H].
Defined.

(** X16: a stop request that is read ends the work at once. When a check of
    the stop counter in the token loop reads the call's own id, that load is
    the last thing the call does: no token is sampled, converted, streamed or
    decoded after it. When the check at the head of the prompt loop reads it,
    no further chunk is decoded: the only event that can follow in the prompt
    phase is the second check of line 446. A call that returns text without
    having reached the token loop ended on such a read, with the empty
    text. *)
Theorem stop_read_ends_the_call be others fuel prompt maxTokens onToken_found st :
  configured st ->
  (fuel_needed be st prompt maxTokens <= fuel)%nat ->
  exists r s,
    generate be others fuel prompt maxTokens onToken_found st = Done (r, s) /\
    let id := uint64_wrap (g_generation_id st + 1) in
    (In (EvStopLoad id) (token_phase (gs_events s)) ->
     exists older, gs_events s = EvStopLoad id :: older) /\
    (In (EvStopLoad id) (prompt_phase (gs_events s)) ->
     exists older,
       prompt_phase (gs_events s) = EvStopLoad id :: older \/
       exists v, prompt_phase (gs_events s) = EvStopLoad v :: EvStopLoad id :: older) /\
    (is_response r = true -> ~ In EvSamplerReset (gs_events s) ->
     r = Response [] /\ exists older, gs_events s = EvStopLoad id :: older).
Proof.
  intros C Hfuel.
  destruct (generate_returns_summary be others fuel prompt maxTokens onToken_found st C Hfuel)
    as (r & s & E & _ & S).
  exists r, s. split; [exact E|]. cbv zeta.
  destruct S as (_ & _ & _ & Hresp & _ & _ & _ & Hlast & Hprompt & _).
  split; [|split; [exact Hprompt|]].
  - intros Hin. destruct (Hlast Hin) as (older & Hold).
    unfold token_phase in Hold.
    destruct (split_reset (gs_events s)) as [[newer older']|] eqn:Hsplit; [|discriminate].
    rewrite (split_reset_inv _ _ _ Hsplit), Hold. eexists. reflexivity.
  - intros Hr Hno. apply (Hresp Hr).
    destruct (split_reset (gs_events s)) as [[newer older]|] eqn:Hsplit; [|reflexivity].
    destruct Hno. rewrite (split_reset_inv _ _ _ Hsplit). apply in_or_app. right. now left.
Qed.

Lemma stop_read_ends_the_call_witness :
  configured loaded_phone /\
  (fuel_needed toy_backend loaded_phone "Hi" 5 <= 300)%nat /\
  exists r s,
    generate toy_backend (fun k => if Nat.eqb k 3 then Some 1 else None)
             300 "Hi" 5 true loaded_phone = Done (r, s) /\
    In (EvStopLoad 1) (token_phase (gs_events s)) /\
    exists older, gs_events s = EvStopLoad 1 :: older.
Proof.
  assert (F : (fuel_needed toy_backend loaded_phone "Hi" 5 <= 300)%nat)
    by (vm_compute; repeat constructor).
  split; [exact loaded_phone_configured|]. split; [exact F|].
  destruct (stop_read_ends_the_call toy_backend (fun k => if Nat.eqb k 3 then Some 1 else None)
              300 "Hi" 5 true loaded_phone loaded_phone_configured F)
    as (r & s & E & H & _).
  exists r, s. split; [exact E|].
  assert (Hin : In (EvStopLoad 1) (token_phase (gs_events s))).
  { vm_compute in E. inversion E; subst. vm_compute. now left. }
  split; [exact Hin|exact (H Hin)].
Defined.

(** X17: every generation starts on an empty memory. When the context has a
    memory ([llama_get_memory] is not null), [llama_memory_clear] is called
    before the first batch of the call is decoded, so no key/value state of
    an earlier call is there when position 0 is evaluated. *)
Theorem memory_cleared_before_decoding be others fuel prompt maxTokens onToken_found st :
  configured st ->
  (fuel_needed be st prompt maxTokens <= fuel)%nat ->
  llama_get_memory be = true ->
  exists r s,
    generate be others fuel prompt maxTokens onToken_found st = Done (r, s) /\
    (decoded (gs_events s) <> [] ->
     exists newer older,
       gs_events s = newer ++ EvMemoryClear :: older /\ decoded older = []).
Proof.
  intros C Hfuel Hm.
  destruct (generate_returns_summary be others fuel prompt maxTokens onToken_found st C Hfuel)
    as (r & s & E & _ & S).
  exists r, s. split; [exact E|].
  destruct S as (_ & _ & _ & _ & _ & _ & _ & _ & _ & _ & Hmem & _).
  exact (Hmem Hm).
Qed.

Lemma memory_cleared_before_decoding_witness :
  configured loaded_phone /\
  (fuel_needed toy_backend loaded_phone "Hello" 1000 <= 300)%nat /\
  llama_get_memory toy_backend = true /\
  exists r s,
    generate toy_backend nobody 300 "Hello" 1000 true loaded_phone = Done (r, s) /\
    (decoded (gs_events s) <> [] ->
     exists newer older,
       gs_events s = newer ++ EvMemoryClear :: older /\ decoded older = []).
Proof.
  split; [exact loaded_phone_configured|]. split; [exact hello_fuel|].
  split; [reflexivity|].
  exact (memory_cleared_before_decoding toy_backend nobody 300 "Hello" 1000 true loaded_phone
           loaded_phone_configured hello_fuel eq_refl).
Defined.

(** X18: an end-of-generation token and a failed decode each end the call on
    the spot: when the sampler draws an end-of-generation token, or
    [llama_decode] returns a value other than 0, that event is the last of
    the call. A decode failure while the prompt is evaluated is what the
    prompt-evaluation error reports, and nothing else is; a decode failure in
    the token loop is not reported as an error, the call returns the text it
    has produced so far. *)
Theorem ending_events_are_last be others fuel prompt maxTokens onToken_found st :
  configured st ->
  (fuel_needed be st prompt maxTokens <= fuel)%nat ->
  exists r s,
    generate be others fuel prompt maxTokens onToken_found st = Done (r, s) /\
    (forall tok, In (EvSample tok) (gs_events s) -> llama_vocab_is_eog be tok = true ->
       exists older, gs_events s = EvSample tok :: older) /\
    (forall view ret, In (EvDecode view ret) (gs_events s) -> ret <> 0 ->
       exists older, gs_events s = EvDecode view ret :: older) /\
    (r = ErrPromptEvalFailed <->
     ~ In EvSamplerReset (gs_events s) /\
     exists view ret older, gs_events s = EvDecode view ret :: older /\ ret <> 0) /\
    (In EvSamplerReset (gs_events s) -> is_response r = true).
Proof.
  intros C Hfuel.
  destruct (generate_returns_summary be others fuel prompt maxTokens onToken_found st C Hfuel)
    as (r & s & E & _ & S).
  exists r, s. split; [exact E|].
  destruct S as (_ & _ & Herr & _ & _ & _ & _ & _ & _ & _ & _ & Hends & Hfail & _).
  split; [intros tok Hin He; exact (Hends _ Hin He)|].
  split.
  { intros view ret Hin Hret. apply (Hends _ Hin). simpl.
    now destruct (Z.eqb_spec ret 0). }
  split; [now rewrite Hfail, split_reset_none|].
  intros Hin. destruct (is_response r) eqn:Hr; [reflexivity|].
  destruct (Herr eq_refl) as (R & _). apply split_reset_none in R. destruct (R Hin).
Qed.

Lemma ending_events_are_last_witness :
  configured loaded_phone /\
  (fuel_needed short_backend loaded_phone "Hi" 5 <= 300)%nat /\
  exists r s,
    generate short_backend nobody 300 "Hi" 5 true loaded_phone = Done (r, s) /\
    In (EvSample 2) (gs_events s) /\
    exists older, gs_events s = EvSample 2 :: older.
Proof.
  assert (F : (fuel_needed short_backend loaded_phone "Hi" 5 <= 300)%nat)
    by (vm_compute; repeat constructor).
  split; [exact loaded_phone_configured|]. split; [exact F|].
  destruct (ending_events_are_last short_backend nobody 300 "Hi" 5 true loaded_phone
              loaded_phone_configured F)
    as (r & s & E & H & _).
  exists r, s. split; [exact E|].
  assert (Hin : In (EvSample 2) (gs_events s)).
  { vm_compute in E. inversion E; subst. vm_compute. now left. }
  split; [exact Hin|exact (H 2 Hin eq_refl)].
Defined.

(** ** Calls one after another *)

Lemma loadModel_flag dev mb modelPath nCtx nThreads nGpuLayers w :
  g_is_generating (fst (snd (loadModel dev mb modelPath nCtx nThreads nGpuLayers w)))
  = g_is_generating (fst w).
Proof.
  destruct w as [st hp]. unfold loadModel.
  assert (R : g_is_generating (fst (release_previous (st, hp))) = g_is_generating st).
  { destruct st as [m c sm v gen gid sid b bi bs cs nt mg]. destruct bi; reflexivity. }
  destruct (release_previous (st, hp)) as [st1 hp1]. simpl in R.
  pose proof (applyDeviceConfig_frame dev st1) as F. cbv zeta in F.
  destruct F as (_ & _ & _ & _ & Hg & _). rewrite R in Hg.
  destruct (applyDeviceConfig dev st1) as [m' c' sm' v' gen' gid' sid' b' bi' bs' cs' nt' mg'].
  simpl in Hg. subst gen'.
  unfold alloc, llama_batch_init, alloc. simpl.
  repeat match goal with
         | |- context [if negb ?c then _ else _] => destruct c; simpl
         | |- context [if ?c then _ else _] => destruct c; simpl
         end; reflexivity.
Qed.

Lemma loaded_or_not_ready st :
  fully_loaded st \/ fully_unloaded st -> isModelLoaded st = session_ready st.
Proof.
  unfold fully_loaded, fully_unloaded, isModelLoaded, session_ready, is_Some.
  destruct (g_model st), (g_vocab st), (g_ctx st), (g_batch_initialized st);
    intros [(A & B & C & _ & D)|(A & B & C & _ & D)];
    try reflexivity; try discriminate;
    try (destruct A as [? A]; discriminate);
    try (destruct B as [? B]; discriminate);
    try (destruct C as [? C]; discriminate).
Qed.

Lemma unloaded_resources st : fully_unloaded st -> session_resources st = [].
Proof.
  unfold session_resources. intros (Hm & _ & Hc & Hs & Hb).
  now rewrite Hm, Hc, Hs, Hb.
Qed.

(** X19: between calls the session is always in one piece. In every state
    reached from start-up by [loadModel], [unloadModel], [stopGeneration] and
    returning [generate] calls made one at a time, in any order and with any
    arguments and library behaviour, the five session handles are all
    present or all absent, the library holds exactly the objects the session
    refers to, the batch (when allocated) has [g_batch_size] slots with
    [g_batch_size] and the token cap at least 1, the generating flag is
    clear, and [isModelLoaded] agrees with the check [generate] makes. *)
Theorem session_stays_consistent w :
  api_reachable w ->
  (fully_loaded (fst w) \/ fully_unloaded (fst w)) /\
  live (snd w) = session_resources (fst w) /\
  configured (fst w) /\
  isGenerating (fst w) = false /\
  isModelLoaded (fst w) = session_ready (fst w).
Proof.
  intros R.
  assert (G : (fully_loaded (fst w) \/ fully_unloaded (fst w)) /\
              live (snd w) = session_resources (fst w) /\
              configured (fst w) /\ g_is_generating (fst w) = false).
  2:{ destruct G as (A & B & C & D).
      split; [exact A|]. split; [exact B|]. split; [exact C|]. split; [exact D|].
      now apply loaded_or_not_ready. }
  induction R as [|w w' _ IH Hstep].
  - split; [right; repeat split; reflexivity|]. split; [reflexivity|].
    split; [exact (proj1 configured_initial)|reflexivity].
  - destruct IH as (Hlu & Hlive & Hconf & Hflag).
    destruct Hstep as [dev mb modelPath nCtx nThreads nGpuLayers [st hp]
                      |[st hp]|st hp|be others fuel prompt maxTokens found st hp r s E];
      cbn [fst snd] in *.
    + assert (NL : no_leak st hp) by (intros x Hx; now rewrite <- Hlive).
      pose proof (loadModel_configured dev mb modelPath nCtx nThreads nGpuLayers (st, hp)) as C'.
      pose proof (loadModel_flag dev mb modelPath nCtx nThreads nGpuLayers (st, hp)) as F'.
      cbn [fst] in F'. rewrite Hflag in F'.
      rewrite loadModel_release_first in *.
      destruct (release_previous_clean st hp NL) as (U & L & _).
      destruct (release_previous (st, hp)) as [st1 hp1]. cbn [fst snd] in U, L.
      pose proof (loadModel_after_cleanup dev mb modelPath nCtx nThreads nGpuLayers
                    st1 hp1 U L) as A. cbv zeta in A.
      destruct (loadModel dev mb modelPath nCtx nThreads nGpuLayers (st1, hp1))
        as [ok [st2 hp2]]. cbn [fst snd] in *.
      destruct A as (_ & At & Af).
      destruct ok.
      * destruct (At eq_refl) as (A1 & _ & A3). auto.
      * destruct (Af eq_refl) as (A1 & _ & A3).
        rewrite A3, (unloaded_resources _ A1). auto.
    + destruct (unloadModel_releases_everything st hp) as [L _].
      { intros x Hx. now rewrite <- Hlive. }
      pose proof (unloadModel_configured st hp Hconf) as C'.
      pose proof (unloadModel_globals st hp) as Gl.
      destruct (unloadModel (st, hp)) as [st1 hp1]. cbn [fst snd] in *.
      assert (U : fully_unloaded st1) by (rewrite Gl; repeat split; reflexivity).
      split; [now right|]. split; [now rewrite L, (unloaded_resources _ U)|].
      split; [exact C'|]. rewrite Gl. exact Hflag.
    + destruct st as [m c sm v gen gid sid b bi bs cs nt mg]. auto.
    + apply generate_trace in E. destruct E as (F & _).
      assert (K : g_model (gs_globals s) = g_model st /\
                  g_ctx (gs_globals s) = g_ctx st /\
                  g_sampler (gs_globals s) = g_sampler st /\
                  g_vocab (gs_globals s) = g_vocab st /\
                  g_is_generating (gs_globals s) = g_is_generating st /\
                  g_batch_initialized (gs_globals s) = g_batch_initialized st /\
                  g_batch_size (gs_globals s) = g_batch_size st /\
                  g_max_gen_tokens (gs_globals s) = g_max_gen_tokens st /\
                  b_mem (g_batch (gs_globals s)) = b_mem (g_batch st) /\
                  batch_capacity (g_batch (gs_globals s)) = batch_capacity (g_batch st)).
      { unfold call_frame, plan_of in F.
        destruct (entered r); simpl in F; inversion F; repeat split; assumption. }
      destruct K as (Hm & Hc & Hs & Hv & Hg & Hb & H1 & H2 & H3 & H4).
      unfold fully_loaded, fully_unloaded, session_resources, configured in *.
      rewrite Hm, Hc, Hs, Hv, Hg, Hb, H1, H2, H3, H4. auto.
Qed.

Lemma session_stays_consistent_witness :
  api_reachable (loaded_phone, loaded_heap) /\
  fully_loaded loaded_phone /\ live loaded_heap = session_resources loaded_phone.
Proof.
  assert (R : api_reachable (loaded_phone, loaded_heap)).
  { exact (api_next _ _ api_start
             (api_loadModel phone_3gb q4_model "m.gguf" 2048 4 0
                            (initial_globals, empty_heap))). }
  split; [exact R|].
  destruct (session_stays_consistent _ R) as ([L|U] & Hl & _).
  - split; [exact L|exact Hl].
  - destruct U as (U & _). discriminate U.
Defined.

(** ** Stop requests outside a generation *)

(** X20: a stop request issued while no generation runs does not carry over.
    On a loaded, idle session a [generate] call that follows
    [stopGeneration] behaves exactly as if the request had never been made:
    same result, same events, same final state. *)
Theorem idle_stop_is_forgotten be others fuel prompt maxTokens onToken_found st :
  session_ready st = true ->
  isGenerating st = false ->
  generate be others fuel prompt maxTokens onToken_found (stopGeneration st)
  = generate be others fuel prompt maxTokens onToken_found st.
Proof.
  unfold isGenerating. intros Hready Hgen.
  destruct st as [m c sm v gen gid sid b bi bs cs nt mg].
  unfold generate, stopGeneration.
  change (session_ready (set_stop_generation_id _ _))
    with (session_ready (mkGlobals m c sm v gen gid sid b bi bs cs nt mg)).
  rewrite Hready. simpl in Hgen. subst gen. reflexivity.
Qed.

Lemma idle_stop_is_forgotten_witness :
  session_ready (set_generation_id 5 loaded_phone) = true /\
  isGenerating (set_generation_id 5 loaded_phone) = false /\
  g_stop_generation_id (stopGeneration (set_generation_id 5 loaded_phone)) = 5 /\
  generate toy_backend nobody 300 "Hello" 3 true
           (stopGeneration (set_generation_id 5 loaded_phone))
  = generate toy_backend nobody 300 "Hello" 3 true (set_generation_id 5 loaded_phone).
Proof.
  split; [reflexivity|]. split; [reflexivity|]. split; [reflexivity|].
  exact (idle_stop_is_forgotten toy_backend nobody 300 "Hello" 3 true
           (set_generation_id 5 loaded_phone) eq_refl eq_refl).
Defined.

(** X21: [unloadModel] does not wait for a generation in progress. Run to its
    end while another call is generating, it has recorded a stop request for
    the current generation, cleared the session handles and given every
    object of the session back to the library, and the generating call is
    where it was, inside its loop with the generating flag still set: its
    next library call finds the session gone. *)
Theorem unloadModel_does_not_wait c u g tg :
  c_threads c !! u = Some (TUnload UnloadLoad) ->
  c_threads c !! g = Some tg -> generating tg = true ->
  no_leak (c_globals c) (c_heap c) ->
  exists c',
    exec [u; u; u] c = Some c' /\
    c_threads c' !! g = Some tg /\
    c_threads c' !! u = Some (TUnload UnloadRet) /\
    fully_unloaded (c_globals c') /\ live (c_heap c') = [] /\
    isGenerating (c_globals c') = isGenerating (c_globals c) /\
    g_stop_generation_id (c_globals c') = g_generation_id (c_globals c).
Proof.
  intros Hu Hg Gg NL.
  eexists. split; [exact (unload_thread_is_unloadModel c u Hu)|].
  cbn [c_threads c_globals c_heap].
  assert (Hne : u <> g).
  { intros ->. rewrite Hu in Hg. inversion Hg; subst. discriminate Gg. }
  split; [now rewrite list_lookup_insert_ne|].
  split; [rewrite list_lookup_insert_eq; [reflexivity|eapply lookup_lt_Some; eassumption]|].
  destruct (unloadModel_releases_everything _ _ NL) as [L _].
  rewrite unloadModel_globals.
  split; [repeat split; reflexivity|]. split; [exact L|]. split; reflexivity.
Qed.

Lemma unloadModel_does_not_wait_witness :
  c_threads generating_config !! 1%nat = Some (TUnload UnloadLoad) /\
  no_leak (c_globals generating_config) (c_heap generating_config) /\
  exists c' l,
    exec [1; 1; 1]%nat generating_config = Some c' /\
    c_threads c' !! 0%nat = Some (TGenerate short_job L426 l) /\
    live (c_heap c') = [].
Proof.
  assert (NL : no_leak (c_globals generating_config) (c_heap generating_config))
    by (intros r Hr; exact Hr).
  split; [reflexivity|]. split; [exact NL|].
  destruct (unloadModel_does_not_wait generating_config 1 0
              (TGenerate short_job L426 (mkLocals 1 3 2 0 0 0)) eq_refl eq_refl eq_refl NL)
    as (c' & E & Hg & _ & _ & L & _).
  exists c', (mkLocals 1 3 2 0 0 0). split; [exact E|]. split; [exact Hg|exact L].
Defined.

Lemma left_loops_step g i c c' :
  step i c = Some c' -> left_loops g c -> left_loops g c'.
Proof.
  intros Hstep (j & r & l & Hg).
  destruct (step_inv _ _ _ Hstep) as (t & t' & st' & hp' & Hi & Hs & ->).
  destruct (Nat.eq_dec i g) as [->|Hne].
  - rewrite Hi in Hg. exists j, r, l. right. simpl.
    rewrite list_lookup_insert_eq by (eapply lookup_lt_Some; eassumption).
    destruct Hg as [Hg|Hg]; inversion Hg; subst t; simpl in Hs;
      [inversion Hs; reflexivity|discriminate].
  - exists j, r, l. simpl. now rewrite list_lookup_insert_ne.
Qed.

Lemma cancelled_for_measure g id c :
  cancelled_for g id c ->
  exists j pc l, c_threads c !! g = Some (TGenerate j pc l) /\ (1 <= steps_to_exit pc)%nat.
Proof.
  intros ((j & pc & l & Hg & Hpc & _) & _). exists j, pc, l. split; [exact Hg|].
  destruct pc; try discriminate; simpl; lia.
Qed.

Lemma cancelled_call_progress g id schedule :
  forall c c',
    exec schedule c = Some c' ->
    (left_loops g c -> left_loops g c') /\
    (flag_tracks_generation c -> cancelled_for g id c ->
     forall j pc l, c_threads c !! g = Some (TGenerate j pc l) ->
       (steps_to_exit pc <= length (List.filter (Nat.eqb g) schedule))%nat ->
       left_loops g c').
Proof.
  induction schedule as [|i rest IH]; intros c c' E; simpl in E.
  - inversion E; subst c'. split; [auto|].
    intros _ K j pc l Hg Hm. simpl in Hm.
    destruct (cancelled_for_measure _ _ _ K) as (j' & pc' & l' & Hg' & Hpos).
    rewrite Hg in Hg'. inversion Hg'; subst. lia.
  - destruct (step i c) as [c1|] eqn:Hstep; [|discriminate].
    destruct (IH c1 c' E) as [IH1 IH2].
    split; [intros L; apply IH1; eapply left_loops_step; eassumption|].
    intros Inv K j pc l Hg Hm.
    pose proof (step_preserves_flag_tracking _ _ _ Inv Hstep) as Inv1.
    destruct (cancellation_is_durable _ _ _ _ _ Inv K Hstep) as [K1|(j1 & r1 & l1 & H1)].
    2:{ apply IH1. exists j1, r1, l1. now left. }
    cbn [List.filter] in Hm.
    destruct (Nat.eqb_spec g i) as [<-|Hne].
    + destruct (cancelled_call_leaves _ _ _ _ _ _ _ K Hg Hstep) as (pc' & l' & Hg1 & Hlt & _).
      apply (IH2 Inv1 K1 j pc' l' Hg1). simpl in Hm. lia.
    + assert (Hg1 : c_threads c1 !! g = Some (TGenerate j pc l)).
      { destruct (step_inv _ _ _ Hstep) as (t & t' & st' & hp' & _ & _ & ->). simpl.
        rewrite list_lookup_insert_ne by congruence. exact Hg. }
      exact (IH2 Inv1 K1 j pc l Hg1 Hm).
Qed.

(** X22: a recorded cancellation is final. Once a call has stored the
    sentinel and a stop request for its generation is in the stop counter,
    the call is out of its loops after at most three of its own steps,
    however the steps of the other calls are interleaved with them and
    whatever those calls do: it starts no further loop iteration and the
    request cannot be lost. *)
Theorem cancelled_call_returns_soon g id c schedule c' :
  flag_tracks_generation c ->
  cancelled_for g id c ->
  exec schedule c = Some c' ->
  (3 <= length (List.filter (Nat.eqb g) schedule))%nat ->
  left_loops g c'.
Proof.
  intros Inv K E Hlen.
  pose proof K as ((j & pc & l & Hg & Hpc & _) & _).
  apply (proj2 (cancelled_call_progress g id schedule c c' E) Inv K j pc l Hg).
  destruct pc; try discriminate; simpl; lia.
Qed.

Lemma cancelled_call_returns_soon_witness :
  flag_tracks_generation cancelled_config /\
  cancelled_for 0 1 cancelled_config /\
  exists c',
    exec [0; 0; 0]%nat cancelled_config = Some c' /\ left_loops 0 c'.
Proof.
  assert (I : flag_tracks_generation cancelled_config) by reflexivity.
  assert (K : cancelled_for 0 1 cancelled_config).
  { split; [eexists _, _, _; split; [reflexivity|split; reflexivity]|].
    split; [reflexivity|]. split; [reflexivity|]. repeat constructor. }
  split; [exact I|]. split; [exact K|].
  destruct (exec [0; 0; 0]%nat cancelled_config) as [c'|] eqn:E;
    [|vm_compute in E; discriminate].
  exists c'. split; [reflexivity|].
  apply (cancelled_call_returns_soon 0 1 cancelled_config [0; 0; 0]%nat c' I K E).
  simpl. lia.
Defined.
